(** * The record codec of mautrix-python, embedded in Rocq

    Source: [src/mautrix/client/api/types/util/serializable.py].

    The module converts between JSON documents (the output of [json.loads])
    and attrs classes, enumerations and containers.  The functions of the
    codec are translated below under their own names (the [json] and
    [parse_json] wrappers around [json.dumps] and [json.loads] are left
    out); Python objects are the inductive [pyobj], the runtime type
    objects the module dispatches on are the inductive [pytype], and
    exceptions are the [Raise] case of [result].

    Conventions of the embedding.
    - A Python [dict] is an association list in insertion order whose keys
      are compared with Python's [==] on hashable keys ([key_eqb]).
    - An attrs instance is its class name together with one slot per
      declared attribute, in declaration order: the [attr.Attribute] and the
      value the instance holds for it.  [data.__class__] is recovered with
      [class_of], [getattr(data, field.name)] is the value of the slot.
    - Type objects follow [typing] as CPython 3.7 and later have it:
      what [Union[...]], [Optional[T]], [List[T]] and the like build, and
      bare [List], [Set] and [Dict], are aliases, not classes.  The type
      of such an alias is not [type(Union)], and [issubclass] refuses it
      as its first argument.
    - [float] is left out of [pyobj]; [attr.Factory] defaults, converters,
      validators and private (underscore) attribute names are left out of
      attrs classes.
    - A subclass of [Serializable] that defines [deserialize] or
      [serialize] itself, other than the enumerations and the attrs
      classes, is left out: [pytype] has the subclasses that inherit
      [deserialize].
    - Schemas are finite trees: a class does not contain itself. *)

From Stdlib Require Import List String Ascii ZArith Bool Lia.
Import ListNotations.
Open Scope string_scope.

(** ** Python objects *)

(** A subclass of [SerializableEnum]: its [__name__] and its members as
    declared, each a name bound to a string. *)
Record enum_class : Type := EnumClass {
  enum_name : string;
  enum_members : list (string * string)
}.

(** Hashable objects, as they occur as dictionary keys and set elements.
    An enum member carries its [_name_] and its [_value_]. *)
Inductive key : Type :=
| KNone
| KBool (b : bool)
| KInt (z : Z)
| KStr (s : string)
| KEnum (e : enum_class) (name : string) (val : string).

(** The builtin container classes. *)
Inductive builtin : Type := BList | BSet | BDict.

Unset Elimination Schemes.

Inductive pyobj : Type :=
| VNone
| VNothing                                   (* attr.NOTHING *)
| VBool (b : bool)
| VInt (z : Z)
| VStr (s : string)
| VEnum (e : enum_class) (name : string) (val : string)
| VList (items : list pyobj)
| VTuple (items : list pyobj)
| VSet (items : list key)
| VDict (items : list (key * pyobj))
| VLst (items : list pyobj)                  (* obj.Lst *)
| VObj (attrs : list (string * pyobj))       (* obj.Obj *)
| VInst (cname : string) (slots : list (attribute * pyobj))
        (unrecognized_ : option (list (key * pyobj)))
with pytype : Type :=
| TClass (name : string)                     (* int, str, bool, a plain class *)
| TNoneType                                  (* type(None) *)
| TAny                                       (* typing.Any and the JSON alias *)
| TNewType (supertype : pytype)              (* typing.NewType(_, supertype) *)
| TUnion (args : list pytype)                (* typing.Union[...] *)
| TEnum (e : enum_class)                     (* a SerializableEnum subclass *)
| TList (item_cls : option pytype)           (* typing.List[T]; None: bare *)
| TSet (item_cls : option pytype)            (* typing.Set[T];  None: bare *)
| TDict (args : option (pytype * pytype))    (* typing.Dict[K, V]; None: bare *)
| TAttrs (c : attrs_class)                   (* attr.has(cls) *)
| TBuiltin (b : builtin)                     (* the class list, set or dict *)
| TSerializable (name : string) (generic : bool)
    (* a subclass of Serializable, no enumeration and no attrs class, that
       inherits deserialize: from GenericSerializable when [generic], else
       from Serializable *)
with attrs_class : Type :=
| AttrsClass (name : string) (fields : list attribute)
with attribute : Type :=
| Attribute (name : string) (type : pytype) (default : pyobj)
            (json : option string)
            (flatten ignore_errors omitempty omitdefault : bool).

Definition dict (V : Type) : Type := list (key * V).

(** Projections of [attr.Attribute] and of its metadata mapping.  A
    metadata entry that is not given reads as the default the source passes
    to [metadata.get]; [mk_attribute] below builds an attribute from the
    entries that are given. *)
Definition a_name (f : attribute) : string :=
  match f with Attribute n _ _ _ _ _ _ _ => n end.
Definition a_type (f : attribute) : pytype :=
  match f with Attribute _ t _ _ _ _ _ _ => t end.
Definition a_default (f : attribute) : pyobj :=
  match f with Attribute _ _ d _ _ _ _ _ => d end.
Definition a_json (f : attribute) : option string :=
  match f with Attribute _ _ _ j _ _ _ _ => j end.
Definition a_flatten (f : attribute) : bool :=
  match f with Attribute _ _ _ _ b _ _ _ => b end.
Definition a_ignore_errors (f : attribute) : bool :=
  match f with Attribute _ _ _ _ _ b _ _ => b end.
Definition a_omitempty (f : attribute) : bool :=
  match f with Attribute _ _ _ _ _ _ b _ => b end.
Definition a_omitdefault (f : attribute) : bool :=
  match f with Attribute _ _ _ _ _ _ _ b => b end.

Definition c_name (c : attrs_class) : string :=
  match c with AttrsClass n _ => n end.
Definition c_fields (c : attrs_class) : list attribute :=
  match c with AttrsClass _ fs => fs end.

(** [attr.ib(type=t, default=d)] with an empty metadata mapping. *)
Definition mk_attribute (name : string) (type : pytype) (default : pyobj)
  : attribute :=
  Attribute name type default None false false true false.

(** [data.__class__] of an attrs instance. *)
Definition class_of (cname : string) (slots : list (attribute * pyobj))
  : attrs_class :=
  AttrsClass cname (map fst slots).

(** ** Exceptions *)

Inductive exn : Type :=
| SerializerError (msg : string) (cause : option exn)
| TypeError (msg : string)
| ValueError (msg : string) (arg : pyobj)
| KeyError (k : key)
| AttributeError (msg : string)
| NotImplementedError.

Set Elimination Schemes.

Inductive result (A : Type) : Type :=
| Ok (a : A)
| Raise (e : exn).
Arguments Ok {A} a.
Arguments Raise {A} e.

Definition bind {A B} (r : result A) (k : A -> result B) : result B :=
  match r with
  | Ok a => k a
  | Raise e => Raise e
  end.

Notation "x <- r ;; k" := (bind r (fun x => k))
  (at level 61, r at next level, right associativity).

Fixpoint map_result {A B} (f : A -> result B) (l : list A) : result (list B) :=
  match l with
  | [] => Ok []
  | a :: l' => b <- f a ;; bs <- map_result f l' ;; Ok (b :: bs)
  end.

(** ** Dictionaries *)

(** [a == b] on hashable objects; [True == 1] and [False == 0]. *)
Definition key_eqb (a b : key) : bool :=
  match a, b with
  | KNone, KNone => true
  | KBool x, KBool y => Bool.eqb x y
  | KInt x, KInt y => Z.eqb x y
  | KBool x, KInt y | KInt y, KBool x => Z.eqb (Z.b2z x) y
  | KStr x, KStr y => String.eqb x y
  | KEnum e n _, KEnum e' n' _ =>
      String.eqb (enum_name e) (enum_name e') && String.eqb n n'
  | _, _ => false
  end.

Section Dict.
Context {V : Type}.

(** [d.get(k)] *)
Fixpoint dict_get (d : dict V) (k : key) : option V :=
  match d with
  | [] => None
  | (k', v) :: d' => if key_eqb k' k then Some v else dict_get d' k
  end.

(** [k in d] *)
Definition dict_mem (d : dict V) (k : key) : bool :=
  match dict_get d k with Some _ => true | None => false end.

(** [d[k] = v]: an existing entry keeps its key object and its place, a
    new one goes last. *)
Fixpoint dict_set (d : dict V) (k : key) (v : V) : dict V :=
  match d with
  | [] => [(k, v)]
  | (k', v') :: d' =>
      if key_eqb k' k then (k', v) :: d' else (k', v') :: dict_set d' k v
  end.

(** [d.update(other)] *)
Definition dict_update (d other : dict V) : dict V :=
  fold_left (fun acc kv => dict_set acc (fst kv) (snd kv)) other d.

(** [dict(pairs)] *)
Definition dict_of_pairs (pairs : list (key * V)) : dict V :=
  dict_update [] pairs.
End Dict.

(** [s.add(k)] on a set kept in insertion order. *)
Fixpoint set_add (s : list key) (k : key) : list key :=
  match s with
  | [] => [k]
  | k' :: s' => if key_eqb k' k then s else k' :: set_add s' k
  end.

Definition key_to_value (k : key) : pyobj :=
  match k with
  | KNone => VNone
  | KBool b => VBool b
  | KInt z => VInt z
  | KStr s => VStr s
  | KEnum e n v => VEnum e n v
  end.

(** [hash(v)]: the objects of [key] are the hashable ones. *)
Definition to_key (v : pyobj) : result key :=
  match v with
  | VNone => Ok KNone
  | VBool b => Ok (KBool b)
  | VInt z => Ok (KInt z)
  | VStr s => Ok (KStr s)
  | VEnum e n x => Ok (KEnum e n x)
  | _ => Raise (TypeError "unhashable type")
  end.

(** ** Truth value and equality of objects *)

(** [bool(v)], as [data or {}] tests it. *)
Definition truthy (v : pyobj) : bool :=
  match v with
  | VNone => false
  | VBool b => b
  | VInt z => negb (Z.eqb z 0)
  | VStr s => negb (String.eqb s "")
  | VList l | VTuple l | VLst l => negb (Nat.eqb (List.length l) 0)
  | VSet s => negb (Nat.eqb (List.length s) 0)
  | VDict d => negb (Nat.eqb (List.length d) 0)
  | VNothing | VEnum _ _ _ | VObj _ | VInst _ _ _ => true
  end.

(** [a == b].  Sequences compare element by element, dictionaries and sets
    regardless of order, enum members by identity, attrs instances by class
    and by the tuple of their attribute values (the generated [__eq__]
    does not look at [unrecognized_]). *)
Fixpoint py_eq (a b : pyobj) {struct a} : bool :=
  let list_eq :=
    fix list_eq (l : list pyobj) (l' : list pyobj) {struct l} : bool :=
      match l, l' with
      | [], [] => true
      | x :: t, x' :: t' => py_eq x x' && list_eq t t'
      | _, _ => false
      end in
  match a, b with
  | VNone, VNone => true
  | VNothing, VNothing => true
  | VBool x, VBool y => Bool.eqb x y
  | VInt x, VInt y => Z.eqb x y
  | VBool x, VInt y | VInt y, VBool x => Z.eqb (Z.b2z x) y
  | VStr x, VStr y => String.eqb x y
  | VEnum e n _, VEnum e' n' _ =>
      String.eqb (enum_name e) (enum_name e') && String.eqb n n'
  | VList l, VList l' => list_eq l l'
  | VTuple l, VTuple l' => list_eq l l'
  | VLst l, VLst l' => list_eq l l'
  | VSet s, VSet s' =>
      Nat.eqb (List.length s) (List.length s')
      && forallb (fun k => existsb (key_eqb k) s') s
  | VDict d, VDict d' =>
      Nat.eqb (List.length d) (List.length d')
      && (fix all_in (d : list (key * pyobj)) : bool :=
            match d with
            | [] => true
            | (k, v) :: t =>
                match dict_get d' k with
                | Some v' => py_eq v v' && all_in t
                | None => false
                end
            end) d
  | VObj o, VObj o' =>
      (fix obj_eq (o : list (string * pyobj)) (o' : list (string * pyobj))
         {struct o} : bool :=
         match o, o' with
         | [], [] => true
         | (n, x) :: t, (n', x') :: t' =>
             String.eqb n n' && py_eq x x' && obj_eq t t'
         | _, _ => false
         end) o o'
  | VInst c s _, VInst c' s' _ =>
      String.eqb c c'
      && (fix slots_eq (s : list (attribute * pyobj))
            (s' : list (attribute * pyobj)) {struct s} : bool :=
            match s, s' with
            | [], [] => true
            | (_, x) :: t, (_, x') :: t' => py_eq x x' && slots_eq t t'
            | _, _ => false
            end) s s'
  | _, _ => false
  end.

(** ** Schema introspection *)

(** [field.metadata.get("json", field.name)] *)
Definition json_key (field : attribute) : string :=
  match a_json field with
  | Some k => k
  | None => a_name field
  end.

(** [_fields(attrs_type, only_if_flatten)].  The attributes are given with
    what accompanies each of them at the call site ([attr_of] projects the
    [attr.Attribute]): the value of the slot when an instance is encoded,
    the decoder of the declared type when a document is decoded. *)
Definition _fields {F : Type} (attr_of : F -> attribute) (attrs_type : list F)
    (only_if_flatten : option bool) : list (string * F) :=
  map (fun field => (json_key (attr_of field), field))
      (filter (fun field =>
                 match only_if_flatten with
                 | None => true
                 | Some b => Bool.eqb (a_flatten (attr_of field)) b
                 end) attrs_type).

(** ** Defaults *)

(** [isinstance(val, immutable)] with
    [immutable = (int, str, float, bool, type(None))]. *)
Definition is_immutable (val : pyobj) : bool :=
  match val with
  | VInt _ | VStr _ | VBool _ | VNone => true
  | _ => false
  end.

(** [copy.copy(val)].  As a value, a shallow copy has the contents of the
    original; what the copy shares with the original is the subject of
    [Module Store] below. *)
Definition copy_copy (val : pyobj) : pyobj := val.

Definition _safe_default (val : pyobj) : pyobj :=
  if is_immutable val then val else copy_copy val.

(** ** Enumerations *)

(** [cls(raw)]: a member of [cls] is returned as it is; else the first
    declared member bound to [raw] (later members with the same value are
    aliases of it).  A class is known by its name, as in [py_eq]. *)
Definition enum_call (cls : enum_class) (raw : pyobj) : result pyobj :=
  match raw with
  | VStr s =>
      match find (fun m => String.eqb (snd m) s) (enum_members cls) with
      | Some (n, v) => Ok (VEnum cls n v)
      | None => Raise (ValueError "is not a valid enum member" raw)
      end
  | VEnum e _ _ =>
      if String.eqb (enum_name e) (enum_name cls) then Ok raw
      else Raise (ValueError "is not a valid enum member" raw)
  | _ => Raise (ValueError "is not a valid enum member" raw)
  end.

(** [SerializableEnum.serialize] is given the member's [_value_]. *)
Definition SerializableEnum_serialize (val : string) : pyobj := VStr val.

Definition SerializableEnum_deserialize (cls : enum_class) (raw : pyobj)
  : result pyobj :=
  match enum_call cls raw with
  | Ok m => Ok m
  | Raise (ValueError _ _ as e) => Raise (SerializerError "" (Some e))
  | Raise e => Raise e
  end.

(** [cls.deserialize(raw)] for a class that inherits the method:
    [Serializable.deserialize] raises, the abstract
    [GenericSerializable.deserialize] is a [pass] and returns [None]. *)
Definition Serializable_deserialize (generic : bool) (raw : pyobj)
  : result pyobj :=
  if generic then Ok VNone else Raise NotImplementedError.

(** ** Decoding *)

(** The one-character strings a string iterates over. *)
Fixpoint chars (s : string) : list pyobj :=
  match s with
  | EmptyString => []
  | String c s' => VStr (String c EmptyString) :: chars s'
  end.

(** [iter(v)], run to the end. *)
Definition py_iter (v : pyobj) : result (list pyobj) :=
  match v with
  | VList l | VTuple l | VLst l => Ok l
  | VSet s => Ok (map key_to_value s)
  | VDict d => Ok (map (fun kv => key_to_value (fst kv)) d)
  | VStr s => Ok (chars s)
  | _ => Raise (TypeError "object is not iterable")
  end.

(** [a, b = v] *)
Definition py_unpack2 (v : pyobj) : result (pyobj * pyobj) :=
  items <- py_iter v ;;
  match items with
  | [a; b] => Ok (a, b)
  | _ => Raise (ValueError "wrong number of values to unpack (expected 2)" v)
  end.

(** [data.items()] *)
Definition py_items (data : pyobj) : result (dict pyobj) :=
  match data with
  | VDict d => Ok d
  | _ => Raise (AttributeError "object has no attribute 'items'")
  end.

(** [getattr(cls, "__args__", default=...)]: the builtin takes positional
    arguments only, so the call raises before any attribute is looked up. *)
Definition getattr_default_kw : result unit :=
  Raise (TypeError "getattr() takes no keyword arguments").

(** The decoder of a declared type: what [_try_deserialize] computes from
    the raw value once the attribute is fixed. *)
Definition decoder : Type := pyobj -> result pyobj.

(** The [try] statement of [_try_deserialize] around the outcome of
    [_deserialize(cls, value, default)].  When an exception is swallowed
    the function runs off its end and returns [None]. *)
Definition _try_deserialize_outcome (outcome : result pyobj)
    (ignore_errors : bool) : result pyobj :=
  match outcome with
  | Ok v => Ok v
  | Raise (SerializerError _ _ as e) =>
      if negb ignore_errors then Raise e else Ok VNone
  | Raise (TypeError _ as e)
  | Raise (ValueError _ _ as e)
  | Raise (KeyError _ as e) =>
      if negb ignore_errors
      then Raise (SerializerError "Unknown serialization error" (Some e))
      else Ok VNone
  | Raise e => Raise e
  end.

(** [attrs_type] called with the keywords [new_items]: the generated
    [__init__] takes each attribute from the keyword of its name, else
    from its default, and raises [TypeError] for a mandatory attribute
    that is not given. *)
Fixpoint attrs_init (fields : list attribute) (new_items : dict pyobj)
  : result (list (attribute * pyobj)) :=
  match fields with
  | [] => Ok []
  | field :: rest =>
      match dict_get new_items (KStr (a_name field)) with
      | Some v => slots <- attrs_init rest new_items ;; Ok ((field, v) :: slots)
      | None =>
          match a_default field with
          | VNothing =>
              Raise (TypeError "__init__() missing required positional argument")
          | d => slots <- attrs_init rest new_items ;; Ok ((field, d) :: slots)
          end
      end
  end.

Section DictToAttrs.
(** The class under decoding: its [__name__] and its attributes, each
    with the decoder of its declared type. *)
Variable cname : string.
Variable attrs_type : list (attribute * decoder).

(** The dict comprehension over the flattened attributes. *)
Fixpoint flatten_pass (fs : list (string * (attribute * decoder)))
    (data : pyobj) (new_items : dict pyobj) : result (dict pyobj) :=
  match fs with
  | [] => Ok new_items
  | (_, field) :: rest =>
      v <- snd field data ;;
      flatten_pass rest data (dict_set new_items (KStr (a_name (fst field))) v)
  end.

(** [for key, value in data.items(): ...] *)
Fixpoint items_pass (fields : dict (attribute * decoder))
    (items : list (key * pyobj)) (new_items unrecognized : dict pyobj)
  : result (dict pyobj * dict pyobj) :=
  match items with
  | [] => Ok (new_items, unrecognized)
  | (key, value) :: rest =>
      match dict_get fields key with
      | None =>
          items_pass fields rest new_items (dict_set unrecognized key value)
      | Some field =>
          v <- snd field value ;;
          items_pass fields rest
            (dict_set new_items (KStr (a_name (fst field))) v) unrecognized
      end
  end.

(** The loop of the [except TypeError] clause: the first attribute whose
    JSON key is not a key of [new_items]. *)
Fixpoint first_missing (fs : list (string * (attribute * decoder)))
    (new_items : dict pyobj) : option attribute :=
  match fs with
  | [] => None
  | (json_key, field) :: rest =>
      if negb (dict_mem new_items (KStr json_key))
      then Some (fst field)
      else first_missing rest new_items
  end.

Definition _dict_to_attrs_with (data default : pyobj)
    (default_if_empty : bool) : result pyobj :=
  let data := if truthy data then data else VDict [] in
  new_items <- flatten_pass (_fields fst attrs_type (Some true)) data [] ;;
  let fields :=
    dict_of_pairs (map (fun p => (KStr (fst p), snd p))
                       (_fields fst attrs_type (Some false))) in
  items <- py_items data ;;
  passed <- items_pass fields items new_items [] ;;
  let new_items := fst passed in
  let unrecognized := snd passed in
  if Nat.eqb (List.length new_items) 0 && default_if_empty
  then Ok (_safe_default default)
  else
    match attrs_init (map fst attrs_type) new_items with
    | Ok slots =>
        Ok (VInst cname slots
              (if Nat.ltb 0 (List.length unrecognized)
               then Some unrecognized else None))
    | Raise (TypeError _ as e) =>
        match first_missing (_fields fst attrs_type None) new_items with
        | Some field =>
            Raise (SerializerError
                     ("Missing value for required key " ++ a_name field
                      ++ " in " ++ cname) (Some e))
        | None =>
            Raise (SerializerError "Unknown serialization error" (Some e))
        end
    | Raise e => Raise e
    end.
End DictToAttrs.

(** The comprehensions of the container branches of [_deserialize], over
    the decoder [dec] of the element type. *)
Definition list_comprehension (dec : decoder) (value : pyobj) : result pyobj :=
  items <- py_iter value ;;
  decoded <- map_result dec items ;;
  Ok (VList decoded).

Definition set_comprehension (dec : decoder) (value : pyobj) : result pyobj :=
  items <- py_iter value ;;
  decoded <- map_result (fun item => v <- dec item ;; to_key v) items ;;
  Ok (VSet (fold_left set_add decoded [])).

(** [{key: _deserialize(val_cls, item) for key, item in value}]: the loop
    iterates [value] itself, so over a dictionary each key is unpacked into
    [key, item]. *)
Definition dict_comprehension (dec : decoder) (value : pyobj) : result pyobj :=
  items <- py_iter value ;;
  pairs <- map_result (fun x =>
             p <- py_unpack2 x ;;
             v <- dec (snd p) ;;
             k <- to_key (fst p) ;;
             Ok (k, v)) items ;;
  Ok (VDict (dict_of_pairs pairs)).

(** Modelled from the spec: [obj.Lst] and [obj.Obj] ([obj.py] is not among
    the sources).  They are the generic list-like and object-like
    passthrough wrappers of a raw list and a raw map; the encoder returns
    them unchanged, as any object it has no case for. *)
Definition Lst (items : list pyobj) : pyobj := VLst items.
Definition Obj (kwargs : list (string * pyobj)) : pyobj := VObj kwargs.

(** The keywords of [Obj] called with [value] unpacked: keywords must be
    strings. *)
Definition obj_kwargs (d : dict pyobj) : result (list (string * pyobj)) :=
  map_result (fun kv =>
                match fst kv with
                | KStr s => Ok (s, snd kv)
                | _ => Raise (TypeError "keywords must be strings")
                end) d.

(** The last statements of [_deserialize]. *)
Definition wrap_untyped (value : pyobj) : result pyobj :=
  match value with
  | VList l => Ok (Lst l)
  | VDict d => kw <- obj_kwargs d ;; Ok (Obj kw)
  | _ => Ok value
  end.

(** [_deserialize(None, value)], reached for the elements of a container
    class, which has no [__args__]: [issubclass] refuses [None]. *)
Definition _deserialize_untyped (value : pyobj) : result pyobj :=
  match value with
  | VNone => Ok (_safe_default VNone)
  | _ => Raise (TypeError "issubclass() arg 1 must be a class")
  end.

(** [_deserialize(cls, value, default)].  After the test for [None] and
    the step from a [NewType] to its supertype, the tests of the source
    run in this order:
    - [attr.has(cls)] and [cls == Any] (lines 143-146);
    - [type(cls) == type(Union)] (line 147), which is false for every
      object of [pytype]: the type of an alias is not the type of the
      special form [Union];
    - [issubclass(cls, Serializable)] (line 150), which raises [TypeError]
      for the aliases and for a [NewType], true for an enumeration and
      for a class that inherits [deserialize], false for the other
      classes;
    - [issubclass(cls, List)], [Set], [Dict] (lines 152-160), true for the
      class [list], [set] or [dict]: the [getattr] call raises, and the
      comprehension behind it would decode against the [None] of the
      default [__args__];
    - the last statements (lines 161-165) for every other class. *)
Fixpoint _deserialize (cls : pytype) (value default : pyobj) {struct cls}
  : result pyobj :=
  match value with
  | VNone => Ok (_safe_default default)
  | _ =>
      let cls := match cls with TNewType supertype => supertype | _ => cls end in
      match cls with
      | TAttrs c =>
          _dict_to_attrs_with (c_name c)
            (map (fun field =>
                    (field,
                     fun v => _try_deserialize_outcome
                                (_deserialize (a_type field) v (a_default field))
                                (a_ignore_errors field)))
                 (c_fields c))
            value default true
      | TAny => Ok value
      | TNewType _ | TUnion _ | TList _ | TSet _ | TDict _ =>
          Raise (TypeError "issubclass() arg 1 must be a class")
      | TEnum e => SerializableEnum_deserialize e value
      | TSerializable _ generic => Serializable_deserialize generic value
      | TBuiltin BList =>
          _ <- getattr_default_kw ;;
          list_comprehension _deserialize_untyped value
      | TBuiltin BSet =>
          _ <- getattr_default_kw ;;
          set_comprehension _deserialize_untyped value
      | TBuiltin BDict =>
          _ <- getattr_default_kw ;;
          dict_comprehension _deserialize_untyped value
      | TClass _ | TNoneType => wrap_untyped value
      end
  end.

Definition _try_deserialize (cls : pytype) (value default : pyobj)
    (ignore_errors : bool) : result pyobj :=
  _try_deserialize_outcome (_deserialize cls value default) ignore_errors.

(** The attributes of a class with the decoders [_dict_to_attrs] calls for
    them. *)
Definition field_decoders (attrs_type : attrs_class)
  : list (attribute * decoder) :=
  map (fun field =>
         (field,
          fun v => _try_deserialize (a_type field) v (a_default field)
                                    (a_ignore_errors field)))
      (c_fields attrs_type).

Definition _dict_to_attrs (attrs_type : attrs_class) (data default : pyobj)
    (default_if_empty : bool) : result pyobj :=
  _dict_to_attrs_with (c_name attrs_type) (field_decoders attrs_type)
                      data default default_if_empty.

(** [SerializableAttrs.deserialize] *)
Definition SerializableAttrs_deserialize (cls : attrs_class) (data : pyobj)
  : result pyobj :=
  _dict_to_attrs cls data VNone false.

(** ** Encoding *)

(** [_serialize(subkey)] on a dictionary key or a set element. *)
Definition serialize_key (k : key) : key :=
  match k with
  | KEnum _ _ v => KStr v
  | _ => k
  end.

Section AttrsToDict.
Variable serialize : pyobj -> pyobj.

(** The end of the loop body of [_attrs_to_dict], from the [omitdefault]
    test on. *)
Definition store_field (json_name : string) (field : attribute)
    (new_dict : dict pyobj) (field_val : pyobj) : dict pyobj :=
  if a_omitdefault field && py_eq field_val (a_default field)
  then new_dict
  else
    let serialized := serialize field_val in
    match serialized with
    | VDict d =>
        if a_flatten field then dict_update new_dict d
        else dict_set new_dict (KStr json_name) serialized
    | _ => dict_set new_dict (KStr json_name) serialized
    end.

(** The loop body of [_attrs_to_dict]. *)
Definition encode_field (new_dict : dict pyobj)
    (entry : string * (attribute * pyobj)) : dict pyobj :=
  let json_name := fst entry in
  let field := fst (snd entry) in
  if String.eqb json_name "" then new_dict
  else
    let field_val := snd (snd entry) in
    match field_val with
    | VNone =>
        if negb (a_omitempty field)
        then store_field json_name field new_dict (a_default field)
        else new_dict
    | _ => store_field json_name field new_dict field_val
    end.

(** [_attrs_to_dict(data)] on the slots and the [unrecognized_]
    attribute of [data]; updating with [None] raises the [TypeError]
    that the function catches.  The loop visits the slots with the JSON
    key [_fields(data.__class__)] yields for each of them
    ([_attrs_to_dict_fields] below). *)
Definition _attrs_to_dict_with (slots : list (attribute * pyobj))
    (unrecognized_ : option (dict pyobj)) : dict pyobj :=
  let new_dict :=
    fold_left (fun new_dict field =>
                 encode_field new_dict (json_key (fst field), field))
              slots [] in
  match unrecognized_ with
  | Some unrecognized => dict_update new_dict unrecognized
  | None => new_dict
  end.
End AttrsToDict.

Fixpoint _serialize (val : pyobj) : pyobj :=
  match val with
  | VInst _ slots unrecognized_ =>
      VDict (_attrs_to_dict_with _serialize slots unrecognized_)
  | VTuple l | VList l => VList (map _serialize l)
  | VSet s => VList (map (fun subval => key_to_value (serialize_key subval)) s)
  | VDict d =>
      VDict (fold_left (fun acc kv =>
                          dict_set acc (serialize_key (fst kv))
                                   (_serialize (snd kv))) d [])
  | VEnum _ _ v => SerializableEnum_serialize v
  | _ => val
  end.

Definition _attrs_to_dict (slots : list (attribute * pyobj))
    (unrecognized_ : option (dict pyobj)) : dict pyobj :=
  _attrs_to_dict_with _serialize slots unrecognized_.

(** [SerializableAttrs.serialize] *)
Definition SerializableAttrs_serialize (cname : string)
    (slots : list (attribute * pyobj)) (unrecognized_ : option (dict pyobj))
  : pyobj :=
  VDict (_attrs_to_dict slots unrecognized_).

(** A dictionary holds each key once. *)
Fixpoint dict_wfb {V} (d : dict V) : bool :=
  match d with
  | [] => true
  | (k, _) :: t => negb (dict_mem t k) && dict_wfb t
  end.

Definition dict_wf {V} (d : dict V) : Prop := dict_wfb d = true.

(** ** Vocabulary of the statements *)

(** A valid variant: a member object of the class, that is a declared
    name with its bound string, no alias of an earlier member. *)
Definition is_member (cls : enum_class) (name val : string) : Prop :=
  find (fun m => String.eqb (snd m) val) (enum_members cls) = Some (name, val).

(** An attribute without default: [field.default] is [attr.NOTHING]. *)
Definition is_mandatory (field : attribute) : bool :=
  match a_default field with
  | VNothing => true
  | _ => false
  end.

(** attrs refuses a class in which a mandatory attribute follows one with
    a default. *)
Fixpoint mandatory_first (fields : list attribute) : bool :=
  match fields with
  | [] => true
  | f :: rest =>
      (is_mandatory f || forallb (fun g => negb (is_mandatory g)) rest)
      && mandatory_first rest
  end.

Definition no_flatten (fields : list attribute) : bool :=
  forallb (fun g => negb (a_flatten g)) fields.

(** The value the encoder goes on with after the [is None] test. *)
Definition substituted (field : attribute) (field_val : pyobj) : pyobj :=
  match field_val with
  | VNone => a_default field
  | _ => field_val
  end.

(** The decoder [_dict_to_attrs] applies to the raw value of [field]. *)
Definition decode_field (field : attribute) : decoder :=
  fun v => _try_deserialize (a_type field) v (a_default field)
                            (a_ignore_errors field).

(** The entries of [fields = dict(_fields(attrs_type, only_if_flatten=False))]
    and the attribute the dictionary holds for the key [k] of a document. *)
Definition wire_fields (fields : list attribute) : list (key * attribute) :=
  map (fun p => (KStr (fst p), snd p))
      (_fields (fun f => f) fields (Some false)).

Definition field_for (c : attrs_class) (k : key) : option attribute :=
  dict_get (dict_of_pairs (wire_fields (c_fields c))) k.

Definition map_values {A B} (g : A -> B) (d : dict A) : dict B :=
  map (fun kv => (fst kv, g (snd kv))) d.

(** The exceptions [_try_deserialize] handles. *)
Definition absorbed (e : exn) : bool :=
  match e with
  | SerializerError _ _ | TypeError _ | ValueError _ _ | KeyError _ => true
  | AttributeError _ | NotImplementedError => false
  end.

(** The entries of a document that [_dict_to_attrs] finds no attribute
    for. *)
Definition unmatched (c : attrs_class) (kv : key * pyobj) : bool :=
  match field_for c (fst kv) with
  | None => true
  | Some _ => false
  end.

(** [obj.unrecognized_] after [_dict_to_attrs]: set when the bucket is
    not empty, else the [None] of the class. *)
Definition attached (unrecognized : dict pyobj) : option (dict pyobj) :=
  if Nat.ltb 0 (List.length unrecognized) then Some unrecognized else None.

(** ** Values that survive a round trip *)

(** A JSON document, as [json.loads] returns it: [None], a bool, an int,
    a str, a list of documents or a dict of documents under distinct
    string keys. *)
Fixpoint is_document (v : pyobj) : bool :=
  match v with
  | VNone | VBool _ | VInt _ | VStr _ => true
  | VList l => forallb is_document l
  | VDict d =>
      dict_wfb d
      && forallb (fun kv => match fst kv with
                            | KStr _ => is_document (snd kv)
                            | _ => false
                            end) d
  | _ => false
  end.

Definition is_scalar (v : pyobj) : bool :=
  match v with
  | VBool _ | VInt _ | VStr _ => true
  | _ => false
  end.

(** [field_val is not None] *)
Definition present (v : pyobj) : bool :=
  match v with
  | VNone => false
  | _ => true
  end.

(** The type [_deserialize] dispatches on, for the declared types the
    round trip is stated for: a plain class, [Any], an enumeration or an
    attrs class, as it is or as the supertype of a [NewType]. *)
Definition core_type (t : pytype) : option pytype :=
  let core t :=
    match t with
    | TClass _ | TAny | TEnum _ | TAttrs _ => Some t
    | _ => None
    end in
  match t with
  | TNewType a => core a
  | _ => core t
  end.

(** Attributes that are not flattened and have distinct names and
    distinct, non-empty wire keys. *)
Definition plain_fields (fields : list attribute) : Prop :=
  no_flatten fields = true
  /\ NoDup (map a_name fields)
  /\ NoDup (map json_key fields)
  /\ forall f, In f fields -> json_key f <> "".

(** A slot either holds [None] for an attribute that omits it and
    defaults to it, or holds a value that is sent and that round-trips
    against the declared type ([rt]). *)
Definition slot_ok (rt : pyobj -> pytype -> Prop) (f : attribute) (x : pyobj)
  : Prop :=
  (x = VNone /\ a_default f = VNone /\ a_omitempty f = true)
  \/ (x <> VNone /\ a_omitdefault f = false /\ rt x (a_type f)).

(** The encoder stores nothing for the slot: its wire key is empty, it
    holds [None] under [omitempty], or the value it goes on with equals
    the default under [omitdefault]. *)
Definition skipped (f : attribute) (x : pyobj) : bool :=
  String.eqb (json_key f) ""
  || (negb (present x) && a_omitempty f)
  || (a_omitdefault f && py_eq (substituted f x) (a_default f)).

(** The wire keys behind a declared type: for an attrs class the key of
    each attribute and, for a flattened attribute, the keys behind its
    type, which the encoder merges into the same document. *)
Fixpoint type_keys (t : pytype) : list string :=
  match t with
  | TNewType a => type_keys a
  | TAttrs c =>
      flat_map (fun f => json_key f
                         :: (if a_flatten f then type_keys (a_type f) else []))
               (c_fields c)
  | _ => []
  end.

Definition field_keys (f : attribute) : list string :=
  json_key f :: (if a_flatten f then type_keys (a_type f) else []).

Definition class_keys (fields : list attribute) : list string :=
  flat_map field_keys fields.

(** The decoder of the record collects at least one attribute from the
    encoding: some attribute is flattened, or some slot is stored. *)
Definition sends (slots : list (attribute * pyobj)) : bool :=
  existsb (fun s => a_flatten (fst s) || negb (skipped (fst s) (snd s))) slots.

(** A slot that is read back equal, [rt] saying so of a value against a
    declared type.
    - An attribute that is not flattened and stores nothing is not
      mandatory and has a default equal to the value; one that stores
      the default in place of [None] defaults to [None]; else the value
      is read back against the declared type.
    - A flattened attribute is of an attrs class.  When it stores
      nothing, or stores the default in place of [None], its default
      equals the value and the class flattens nothing itself, so that the
      nested decode finds no attribute and returns the default; else the
      value is read back against the declared type. *)
Definition slot_rt (rt : pyobj -> pytype -> Prop) (f : attribute) (x : pyobj)
  : Prop :=
  if a_flatten f then
    match core_type (a_type f) with
    | Some (TAttrs c) =>
        if skipped f x || negb (present x)
        then py_eq (a_default f) x = true /\ no_flatten (c_fields c) = true
        else rt x (a_type f)
    | _ => False
    end
  else if skipped f x
       then is_mandatory f = false /\ py_eq (a_default f) x = true
       else if present x then rt x (a_type f) else a_default f = VNone.

(** [roundtrips v t]: [v] is a value of the declared type [t] that the
    codec stores and reads back equal: a scalar for a plain class, a
    member for an enumeration, a document other than [null] for [Any],
    and for an attrs class an instance of it without bucket, with
    distinct attribute names and distinct wire keys (those of the classes
    it flattens included), whose slots are read back equal and from whose
    encoding the decoder collects at least one attribute. *)
Fixpoint roundtrips (v : pyobj) (t : pytype) {struct v} : Prop :=
  match core_type t with
  | Some (TClass _) => is_scalar v = true
  | Some TAny => v <> VNone /\ is_document v = true
  | Some (TEnum e) => exists n s, v = VEnum e n s /\ is_member e n s
  | Some (TAttrs c) =>
      match v with
      | VInst cname slots None =>
          c = class_of cname slots
          /\ NoDup (map a_name (map fst slots))
          /\ NoDup (class_keys (map fst slots))
          /\ sends slots = true
          /\ (fix slots_ok (l : list (attribute * pyobj)) : Prop :=
                match l with
                | [] => True
                | (f, x) :: l' => slot_rt roundtrips f x /\ slots_ok l'
                end) slots
      | _ => False
      end
  | _ => False
  end.

(** A record as the round trip takes it at the top level, where the
    decoder need not collect any attribute. *)
Definition roundtrips_record (slots : list (attribute * pyobj)) : Prop :=
  NoDup (map a_name (map fst slots))
  /\ NoDup (class_keys (map fst slots))
  /\ Forall (fun s => slot_rt roundtrips (fst s) (snd s)) slots.

(** [a == b] on the slots of two instances, as [py_eq] compares them. *)
Fixpoint slots_eq (s s' : list (attribute * pyobj)) : bool :=
  match s, s' with
  | [], [] => true
  | (_, x) :: t, (_, x') :: t' => py_eq x x' && slots_eq t t'
  | _, _ => false
  end.

(** What the encoder stores for one slot, from an empty dictionary. *)
Definition slot_wire (s : attribute * pyobj) : dict pyobj :=
  encode_field _serialize [] (json_key (fst s), s).

(** The entries of the encoding of a record lie under the wire keys of
    its class. *)
Definition keeps (slots : list (attribute * pyobj)) : Prop :=
  forall k w, In (k, w) (_attrs_to_dict slots None) ->
    exists j, k = KStr j /\ In j (class_keys (map fst slots)).

(** The record is read back equal from every document that binds the
    wire keys of its class as its encoding does. *)
Definition reads_back (slots : list (attribute * pyobj)) : Prop :=
  forall cname D default default_if_empty,
    dict_wf D ->
    (forall j, In j (class_keys (map fst slots)) ->
       dict_get D (KStr j) = dict_get (_attrs_to_dict slots None) (KStr j)) ->
    (default_if_empty = true -> sends slots = true) ->
    exists slots' bucket,
      _dict_to_attrs (class_of cname slots) (VDict D) default default_if_empty
      = Ok (VInst cname slots' bucket)
      /\ slots_eq slots' slots = true.

(** What [roundtrips] promises of a value against a declared type. *)
Definition read_back (x : pyobj) (t : pytype) : Prop :=
  (forall d, exists y,
      _deserialize t (_serialize x) d = Ok y /\ py_eq y x = true)
  /\ (forall c, core_type t = Some (TAttrs c) ->
        exists n slots,
          x = VInst n slots None /\ c = class_of n slots
          /\ sends slots = true /\ keeps slots /\ reads_back slots).

(** What the encoder stores for slots that are stored one by one. *)
Definition wire (slots : list (attribute * pyobj)) : dict pyobj :=
  flat_map (fun s => if present (snd s)
                     then [(KStr (json_key (fst s)), _serialize (snd s))]
                     else []) slots.

(** ** Object identity

    [pyobj] describes what an object holds, not which object it is.  For
    what [_safe_default] shares with the default it copies, objects live in
    a store: a location holds an atom or a container of locations. *)
Module Store.
Definition loc : Type := nat.

Inductive cell : Type :=
| CAtom (k : key)              (* None, a bool, an int, a str, an enum member *)
| CList (items : list loc)
| CDict (items : list (key * loc)).

Definition store : Type := list cell.

Definition lookup (s : store) (l : loc) : option cell := nth_error s l.

Definition alloc (s : store) (c : cell) : store * loc :=
  ((s ++ [c])%list, List.length s).

(** The object at [l] is changed in place. *)
Fixpoint update (s : store) (l : loc) (c : cell) : store :=
  match s, l with
  | [], _ => []
  | _ :: s', O => c :: s'
  | c0 :: s', S l' => c0 :: update s' l' c
  end.

(** [isinstance(val, immutable)] *)
Definition is_immutable (c : cell) : bool :=
  match c with
  | CAtom (KEnum _ _ _) => false
  | CAtom _ => true
  | _ => false
  end.

Definition is_container (c : cell) : bool :=
  match c with
  | CAtom _ => false
  | _ => true
  end.

(** [copy.copy(val)]: a new list or dict object that holds the
    references of the original; an enum member copies to itself. *)
Definition copy_copy (s : store) (val : loc) : store * loc :=
  match lookup s val with
  | Some (CList items) => alloc s (CList items)
  | Some (CDict items) => alloc s (CDict items)
  | _ => (s, val)
  end.

Definition _safe_default (s : store) (val : loc) : store * loc :=
  match lookup s val with
  | Some c => if is_immutable c then (s, val) else copy_copy s val
  | None => (s, val)
  end.

(** [_deserialize(cls, None, default)]: the first statement returns. *)
Definition _deserialize_None (s : store) (default : loc) : store * loc :=
  _safe_default s default.

(** [l[i]] *)
Definition list_item (s : store) (l : loc) (i : nat) : option loc :=
  match lookup s l with
  | Some (CList items) => nth_error items i
  | _ => None
  end.

(** [l.append(x)] *)
Definition list_append (s : store) (l : loc) (x : loc) : store :=
  match lookup s l with
  | Some (CList items) => update s l (CList (items ++ [x])%list)
  | _ => s
  end.

Fixpoint all_some {A} (l : list (option A)) : option (list A) :=
  match l with
  | [] => Some []
  | None :: _ => None
  | Some a :: l' => option_map (cons a) (all_some l')
  end.

(** The object at [l] read back as a [pyobj], down to [depth] levels. *)
Fixpoint read (depth : nat) (s : store) (l : loc) : option pyobj :=
  match depth with
  | O => None
  | S depth' =>
      match lookup s l with
      | Some (CAtom k) => Some (key_to_value k)
      | Some (CList items) =>
          option_map VList (all_some (map (read depth' s) items))
      | Some (CDict items) =>
          option_map VDict
            (all_some (map (fun kv => option_map (pair (fst kv))
                                        (read depth' s (snd kv))) items))
      | None => None
      end
  end.

(** Every reference of the store points into the store. *)
Definition cell_closed (n : nat) (c : cell) : Prop :=
  match c with
  | CAtom _ => True
  | CList items => Forall (fun l => l < n) items
  | CDict items => Forall (fun kv => snd kv < n) items
  end.

Definition closed (s : store) : Prop :=
  Forall (cell_closed (List.length s)) s.

(** The default [[[1]]] of the example: a list holding one list. *)
Definition nested_default : store :=
  [CAtom (KInt 1); CList [0]; CList [1]].
End Store.

(** ** Schemas and documents of the examples *)

(** [class Color(SerializableEnum): RED = "red"; GREEN = "green"] *)
Definition Color : enum_class :=
  EnumClass "Color" [("RED", "red"); ("GREEN", "green")].

(** A record [{x, y}] of two attributes of plain classes, and a record
    holding it in one attribute flagged [flatten]. *)
Definition xy_record (iname tx ty : string) (dx dy : pyobj) : attrs_class :=
  AttrsClass iname
    [mk_attribute "x" (TClass tx) dx; mk_attribute "y" (TClass ty) dy].

Definition flatten_attribute (fname : string) (inner : attrs_class)
    (fdefault : pyobj) (fjson : option string)
    (ignore_errors omitempty omitdefault : bool) : attribute :=
  Attribute fname (TAttrs inner) fdefault fjson true
            ignore_errors omitempty omitdefault.

Definition xy_document : pyobj :=
  VDict [(KStr "x", VInt 1); (KStr "y", VInt 2)].

(** [class Event]: one mandatory attribute [event_id] sent as ["id"]. *)
Definition Event : attrs_class :=
  AttrsClass "Event"
    [Attribute "event_id" (TClass "str") VNothing (Some "id")
               false false true false].

(** [class Wrapper]: one mandatory attribute, a flattened [{x, y}]. *)
Definition Wrapper : attrs_class :=
  AttrsClass "Wrapper"
    [flatten_attribute "F" (xy_record "XY" "int" "int" VNothing VNothing)
                       VNothing None false true false].

(** [class Body]: [y] mandatory, [x] with the default [5]; and
    [class Envelope], which holds a [Body] in a flattened attribute. *)
Definition Body : attrs_class :=
  AttrsClass "Body"
    [mk_attribute "y" (TClass "int") VNothing;
     mk_attribute "x" (TClass "int") (VInt 5)].

Definition Envelope : attrs_class :=
  AttrsClass "Envelope"
    [flatten_attribute "F" Body VNone None false true false].

Definition envelope_document : pyobj :=
  VDict [(KStr "y", VInt 1); (KStr "extra", VBool true)].

(** [class Paint]: [color: Color = Color.RED], flagged [ignore_errors]. *)
Definition Paint_color : attribute :=
  Attribute "color" (TEnum Color) (VEnum Color "RED" "red") None
            false true true false.

Definition Paint : attrs_class := AttrsClass "Paint" [Paint_color].

(** [class Holder]: [body: Body = None], flagged [ignore_errors]. *)
Definition Holder : attrs_class :=
  AttrsClass "Holder"
    [Attribute "body" (TAttrs Body) VNone None false true true false].

(** [class Profile], with a nested [class Address] and a flattened
    [class Geo]: [nick] is sent as [null] when it is [None], [level] is
    left out when it is [0], [tag] is of a [NewType] of [str].  And a
    profile whose [nick] is not set. *)
Definition Address_fields : list attribute :=
  [mk_attribute "city" (TClass "str") VNothing;
   mk_attribute "zip" (TClass "str") VNone].

Definition Address : attrs_class := AttrsClass "Address" Address_fields.

Definition Geo_fields : list attribute :=
  [mk_attribute "lat" (TClass "int") VNothing;
   mk_attribute "lon" (TClass "int") VNothing].

Definition Geo : attrs_class := AttrsClass "Geo" Geo_fields.

Definition Profile_fields : list attribute :=
  [Attribute "user_id" (TClass "str") VNothing (Some "id")
             false false true false;
   mk_attribute "color" (TEnum Color) VNone;
   Attribute "nick" (TClass "str") VNone None false false false false;
   Attribute "level" (TClass "int") (VInt 0) None false false true true;
   mk_attribute "address" (TAttrs Address) VNone;
   flatten_attribute "geo" Geo VNone None false true false;
   mk_attribute "extra" TAny VNone;
   mk_attribute "tag" (TNewType (TClass "str")) VNone].

Definition a_profile : list (attribute * pyobj) :=
  combine Profile_fields
    [VStr "@a:b"; VEnum Color "GREEN" "green"; VNone; VInt 0;
     VInst "Address" (combine Address_fields [VStr "Oslo"; VNone]) None;
     VInst "Geo" (combine Geo_fields [VInt 59; VInt 10]) None;
     VList [VInt 1; VNone];
     VStr "t"].

(** [class Outer] whose attribute [inner] is an [Inner] with the single
    optional attribute [a]; and the value [Outer(inner=Inner(a=None))]. *)
Definition Inner_a : attribute := mk_attribute "a" (TClass "int") VNone.
Definition Outer_inner : attribute :=
  mk_attribute "inner" (TAttrs (AttrsClass "Inner" [Inner_a])) VNone.
Definition empty_inner : list (attribute * pyobj) :=
  [(Outer_inner, VInst "Inner" [(Inner_a, VNone)] None)].

(** ** Vocabulary of the further statements *)

(** The raw value [_dict_to_attrs] hands to the decoder of the attribute
    [g] for the document [d]: the whole document when [g] is flattened,
    else the value under the wire key of [g], provided the dictionary of
    attributes holds [g] under that key (a later attribute with the same
    wire key takes its place). *)
Definition raw_for (c : attrs_class) (d : dict pyobj) (g : attribute)
  : option pyobj :=
  if a_flatten g then Some (VDict d)
  else
    match field_for c (KStr (json_key g)) with
    | Some g' =>
        if String.eqb (a_name g') (a_name g)
        then dict_get d (KStr (json_key g))
        else None
    | None => None
    end.

(** The exceptions that leave [_dict_to_attrs]. *)
Definition leaves_decoder (e : exn) : bool :=
  match e with
  | SerializerError _ _ | AttributeError _ | NotImplementedError => true
  | _ => false
  end.

(** The declared types against which no value but [None] decodes, with
    the message of the [TypeError] that is raised: the aliases of [typing]
    ([Union] and [Optional], [List], [Set] and [Dict], bare or with
    arguments) and what [NewType] returns, which [issubclass] refuses, and
    the classes [list], [set] and [dict], which reach the [getattr] call;
    as they are or as the supertype of a [NewType]. *)
Definition refused (t : pytype) : option string :=
  let direct t :=
    match t with
    | TNewType _ | TUnion _ | TList _ | TSet _ | TDict _ =>
        Some "issubclass() arg 1 must be a class"
    | TBuiltin _ => Some "getattr() takes no keyword arguments"
    | _ => None
    end in
  match t with
  | TNewType a => direct a
  | _ => direct t
  end.

(** [class Room]: [name: str] and [aliases: List[str] = None]. *)
Definition Room : attrs_class :=
  AttrsClass "Room"
    [mk_attribute "name" (TClass "str") VNothing;
     mk_attribute "aliases" (TList (Some (TClass "str"))) VNone].

(** [class Message]: [sender] and [body] mandatory, [topic] optional. *)
Definition Message : attrs_class :=
  AttrsClass "Message"
    [mk_attribute "sender" (TClass "str") VNothing;
     mk_attribute "body" (TClass "str") VNothing;
     mk_attribute "topic" (TClass "str") VNone].

(** ** Objects the encoder turns into JSON *)

(** The entries of a JSON object: string keys bound to documents. *)
Definition doc_entries (d : dict pyobj) : bool :=
  forallb (fun kv => match fst kv with
                     | KStr _ => is_document (snd kv)
                     | _ => false
                     end) d.

(** A key [_serialize] turns into a string: a str or an enum member. *)
Definition string_keyed (k : key) : bool :=
  match k with
  | KStr _ | KEnum _ _ _ => true
  | _ => false
  end.

(** The objects built from [None], bools, ints, strs, enum members,
    lists, tuples, sets and dicts keyed by strs or enum members, and from
    attrs instances of such objects.  For an instance, a slot that holds
    [None] counts with the default the encoder writes in its place, and
    the [unrecognized_] bucket, which the encoder copies as it is, is made
    of JSON entries. *)
Fixpoint encodable (v : pyobj) : bool :=
  match v with
  | VNone | VBool _ | VInt _ | VStr _ | VEnum _ _ _ | VSet _ => true
  | VList l | VTuple l => forallb encodable l
  | VDict d => forallb (fun kv => string_keyed (fst kv) && encodable (snd kv)) d
  | VInst _ slots unrecognized_ =>
      forallb (fun s => if present (snd s) then encodable (snd s)
                        else a_omitempty (fst s)
                             || encodable (a_default (fst s))) slots
      && match unrecognized_ with
         | Some b => doc_entries b
         | None => true
         end
  | VNothing | VLst _ | VObj _ => false
  end.

(** * The notification guard

    [mautrix/bridge/notification_disabler.py]: an asynchronous context
    manager that installs a push rule silencing a room while the room is
    backfilled, and removes the rule afterwards.  The HTTP request and
    the logger are outside the file: the request is a parameter of the
    model, and what the guard asks of both is recorded as a trace. *)
Module Disabler.

(** [Method.PUT], [Method.DELETE] *)
Inductive Method : Type := PUT | DELETE.

(** What the guard does to the outside: [intent.api.request], in which
    [content] is [None] when the keyword is not given, [log.debug] and
    [log.warning]. *)
Inductive event : Type :=
| Request (method : Method) (path : list string) (content : option pyobj)
| LogDebug (msg : string)
| LogWarning (msg : string).

(** An exception in flight.  [is_Exception]: it is an instance of
    [Exception], which [except Exception] catches; an exception that is
    only a [BaseException] is not. *)
Record raised : Type := Raised { exc_name : string; is_Exception : bool }.

(** Of [IntentAPI], the guard reads [mxid] and calls [api.request]. *)
Record IntentAPI : Type := Intent { mxid : string }.

(** The attributes of a [NotificationDisabler].  [__init__] assigns
    [intent] only under its [if]: the outer [None] is an object on which
    the attribute was never assigned, [Some None] one on which it is
    [None].  [config_enabled] is the class attribute. *)
Record NotificationDisabler : Type := Self {
  room_id : string;
  intent : option (option IntentAPI);
  enabled : bool;
  config_enabled : bool
}.

(** [self.enabled = b] *)
Definition set_enabled (self : NotificationDisabler) (b : bool)
  : NotificationDisabler :=
  Self (room_id self) (intent self) b (config_enabled self).

(** [_path], as the accessors applied to [Path]. *)
Definition _path : list string :=
  ["pushrules"; "global"; "override"; "net.maunium.silence_while_backfilling"].

Definition _rule (self : NotificationDisabler) : pyobj :=
  VDict [(KStr "actions", VList [VStr "dont_notify"]);
         (KStr "conditions",
          VList [VDict [(KStr "kind", VStr "event_match");
                        (KStr "key", VStr "room_id");
                        (KStr "pattern", VStr (room_id self))]])].

(** Reading [self.intent] when it was never assigned, or [.mxid] of
    [None]. *)
Definition no_attribute : raised := Raised "AttributeError" true.

Section Run.
Variable world : Type.

(** [await self.intent.api.request(method, path, content=...)] in a state
    of the outside world: the state after it, and the exception it raised
    if any. *)
Variable request :
  world -> Method -> list string -> option pyobj -> world * option raised.

(** Where a call leaves things: the object, the world, what was asked of
    the outside, and the exception the call raised if any. *)
Record run : Type := Run {
  self_of : NotificationDisabler;
  world_of : world;
  trace : list event;
  raises : option raised
}.

Definition __aenter__ (self : NotificationDisabler) (w : world) : run :=
  match intent self with
  | None => Run self w [] (Some no_attribute)
  | Some None => Run self w [] None
  | Some (Some api) =>
      if negb (config_enabled self) then Run self w [] None
      else
        let self := set_enabled self true in
        let debug :=
          LogDebug ("Disabling notifications in " ++ room_id self
                    ++ " for " ++ mxid api) in
        let sent := Request PUT _path (Some (_rule self)) in
        match request w PUT _path (Some (_rule self)) with
        | (w', None) => Run self w' [debug; sent] None
        | (w', Some e) =>
            if is_Exception e
            then Run self w'
                     [debug; sent;
                      LogWarning ("Failed to disable notifications in "
                                  ++ room_id self ++ " for " ++ mxid api
                                  ++ " while backfilling")]
                     (Some e)
            else Run self w' [debug; sent] (Some e)
        end
  end.

(** [__aexit__(exc_type, exc_val, exc_tb)]: the arguments are not read.
    When [intent] has no [mxid], the f-string of the [try] raises
    [AttributeError] and so does the f-string of the handler. *)
Definition __aexit__ (self : NotificationDisabler) (w : world) : run :=
  if negb (enabled self) then Run self w [] None
  else
    match intent self with
    | Some (Some api) =>
        let debug :=
          LogDebug ("Re-enabling notifications in " ++ room_id self
                    ++ " for " ++ mxid api) in
        let sent := Request DELETE _path None in
        match request w DELETE _path None with
        | (w', None) => Run self w' [debug; sent] None
        | (w', Some e) =>
            if is_Exception e
            then Run self w'
                     [debug; sent;
                      LogWarning ("Failed to re-enable notifications in "
                                  ++ room_id self ++ " for " ++ mxid api
                                  ++ " after backfilling")]
                     None
            else Run self w' [debug; sent] (Some e)
        end
    | _ => Run self w [] (Some no_attribute)
    end.

(** [async with self: body], for a body that leaves the guard alone: the
    statement awaits [__aenter__]; when that returns it runs the body and
    then awaits [__aexit__], whatever the body did.  [__aexit__] returns
    [None], so an exception of the body is raised again after it. *)
Definition async_with (self : NotificationDisabler)
    (body : world -> world * list event * option raised) (w : world) : run :=
  let entered := __aenter__ self w in
  match raises entered with
  | Some _ => entered
  | None =>
      let '(w2, t2, e2) := body (world_of entered) in
      let left := __aexit__ (self_of entered) w2 in
      Run (self_of left) (world_of left)
          (trace entered ++ t2 ++ trace left)%list
          (match raises left with
           | Some e => Some e
           | None => e2
           end)
  end.

(** The calls a program makes on one guard, one after the other,
    whatever they raise. *)
Inductive call : Type := Enter | Exit.

Fixpoint calls (cs : list call) (self : NotificationDisabler) (w : world)
  : NotificationDisabler * world :=
  match cs with
  | [] => (self, w)
  | c :: cs' =>
      let r := match c with
               | Enter => __aenter__ self w
               | Exit => __aexit__ self w
               end in
      calls cs' (self_of r) (world_of r)
  end.
End Run.

Arguments Run {world} _ _ _ _.
Arguments self_of {world} _.
Arguments world_of {world} _.
Arguments trace {world} _.
Arguments raises {world} _.

(** The requests of a trace, in order. *)
Definition requests (t : list event) : list Method :=
  flat_map (fun ev => match ev with
                      | Request m _ _ => [m]
                      | _ => []
                      end) t.

(** An outside world that answers the requests from a script: the head
    of the list is the answer to the next request, and a request past the
    end of the script returns. *)
Definition scripted (w : list (option raised)) (m : Method)
    (path : list string) (content : option pyobj)
  : list (option raised) * option raised :=
  match w with
  | [] => ([], None)
  | answer :: w' => (w', answer)
  end.
End Disabler.

(** * Properties *)

(** ** Unfolding equations *)

Lemma _deserialize_None cls default :
  _deserialize cls VNone default = Ok (_safe_default default).
Proof. destruct cls; reflexivity. Qed.

Lemma _deserialize_attrs c value default :
  value <> VNone ->
  _deserialize (TAttrs c) value default = _dict_to_attrs c value default true.
Proof. destruct value; try reflexivity; congruence. Qed.

Lemma _serialize_inst cname slots u :
  _serialize (VInst cname slots u) = VDict (_attrs_to_dict slots u).
Proof. reflexivity. Qed.

Lemma _attrs_to_dict_fields slots u :
  _attrs_to_dict slots u =
  let new_dict :=
    fold_left (encode_field _serialize) (_fields fst slots None) [] in
  match u with
  | Some unrecognized => dict_update new_dict unrecognized
  | None => new_dict
  end.
Proof.
  unfold _attrs_to_dict, _attrs_to_dict_with, _fields.
  assert (E : forall acc,
             fold_left (fun new_dict field =>
                          encode_field _serialize new_dict
                                       (json_key (fst field), field)) slots acc
             = fold_left (encode_field _serialize)
                 (map (fun field => (json_key (fst field), field))
                      (filter (fun _ => true) slots)) acc).
  { induction slots as [|s slots IH]; intro acc; simpl; [reflexivity|apply IH]. }
  rewrite E. reflexivity.
Qed.

(** ** Keys and dictionaries *)

Lemma key_eqb_refl k : key_eqb k k = true.
Proof.
  destruct k; simpl; auto using Bool.eqb_reflx, Z.eqb_refl, String.eqb_refl.
  now rewrite !String.eqb_refl.
Qed.

Lemma key_eqb_sym a b : key_eqb a b = key_eqb b a.
Proof.
  destruct a, b; simpl; auto using Z.eqb_sym, String.eqb_sym.
  - destruct b, b0; reflexivity.
  - now rewrite (String.eqb_sym (enum_name e)), (String.eqb_sym name).
Qed.

Lemma key_eqb_trans a b c :
  key_eqb a b = true -> key_eqb b c = true -> key_eqb a c = true.
Proof.
  destruct a, b, c; simpl; try discriminate; auto;
    rewrite ?Bool.eqb_true_iff, ?Z.eqb_eq, ?String.eqb_eq, ?andb_true_iff,
            ?String.eqb_eq;
    try (intros; subst; auto; fail);
    try (intros; congruence).
  - destruct b0, b; simpl; intros; subst; congruence.
  - intros [? ?] [? ?]; split; congruence.
Qed.

Lemma key_eqb_KStr s k : key_eqb (KStr s) k = true -> k = KStr s.
Proof. destruct k; simpl; try discriminate. now rewrite String.eqb_eq; intros ->. Qed.

Lemma key_eqb_compat a b c :
  key_eqb a b = true -> key_eqb a c = key_eqb b c.
Proof.
  intro H. destruct (key_eqb b c) eqn:E.
  - eapply key_eqb_trans; eauto.
  - destruct (key_eqb a c) eqn:E'; [|reflexivity].
    rewrite key_eqb_sym in H. rewrite (key_eqb_trans _ _ _ H E') in E.
    discriminate.
Qed.

Section DictFacts.
Context {V : Type}.
Implicit Types (d : dict V) (k : key) (v : V).

Lemma dict_get_compat d k k' :
  key_eqb k k' = true -> dict_get d k = dict_get d k'.
Proof.
  intro H. induction d as [|[k0 v0] d IH]; simpl; [reflexivity|].
  rewrite (key_eqb_sym k0 k), (key_eqb_sym k0 k'), (key_eqb_compat _ _ _ H).
  now rewrite IH.
Qed.

Lemma dict_get_set_same d k v : dict_get (dict_set d k v) k = Some v.
Proof.
  induction d as [|[k0 v0] d IH]; simpl.
  - now rewrite key_eqb_refl.
  - destruct (key_eqb k0 k) eqn:E; simpl; now rewrite E.
Qed.

Lemma dict_get_set_other d k k' v :
  key_eqb k k' = false -> dict_get (dict_set d k v) k' = dict_get d k'.
Proof.
  intro H. induction d as [|[k0 v0] d IH]; simpl.
  - now rewrite H.
  - destruct (key_eqb k0 k) eqn:E; simpl.
    + rewrite (key_eqb_compat _ _ _ E), H. reflexivity.
    + now rewrite IH.
Qed.

Lemma dict_get_set d k k' v :
  dict_get (dict_set d k v) k' =
  if key_eqb k k' then Some v else dict_get d k'.
Proof.
  destruct (key_eqb k k') eqn:E.
  - rewrite <- (dict_get_compat _ _ _ E). apply dict_get_set_same.
  - now apply dict_get_set_other.
Qed.

Lemma dict_mem_set d k k' v :
  dict_mem (dict_set d k v) k' = key_eqb k k' || dict_mem d k'.
Proof.
  unfold dict_mem. rewrite dict_get_set. now destruct (key_eqb k k').
Qed.

Lemma dict_set_fresh d k v :
  dict_mem d k = false -> dict_set d k v = (d ++ [(k, v)])%list.
Proof.
  unfold dict_mem. induction d as [|[k0 v0] d IH]; simpl; [reflexivity|].
  destruct (key_eqb k0 k); [discriminate|]. intro H. now rewrite IH.
Qed.

Lemma dict_get_app d d' k :
  dict_get (d ++ d')%list k =
  match dict_get d k with Some v => Some v | None => dict_get d' k end.
Proof.
  induction d as [|[k0 v0] d IH]; simpl; [reflexivity|].
  now destruct (key_eqb k0 k).
Qed.

Lemma dict_update_cons d k v other :
  dict_update d ((k, v) :: other) = dict_update (dict_set d k v) other.
Proof. reflexivity. Qed.

Lemma dict_get_update_absent other : forall d k,
  dict_mem other k = false ->
  dict_get (dict_update d other) k = dict_get d k.
Proof.
  unfold dict_mem.
  induction other as [|[k0 v0] other IH]; intros d k H; [reflexivity|].
  simpl in H. rewrite dict_update_cons.
  destruct (key_eqb k0 k) eqn:E; [discriminate|].
  rewrite IH by exact H. now apply dict_get_set_other.
Qed.

(** After [d.update(other)] the keys of [other] are bound as in
    [other]. *)
Lemma dict_get_update_present other : forall d k v,
  dict_wf other -> dict_get other k = Some v ->
  dict_get (dict_update d other) k = Some v.
Proof.
  induction other as [|[k0 v0] other IH]; intros d k v W H; [discriminate|].
  unfold dict_wf in W. simpl in W, H.
  apply andb_true_iff in W as [Hfresh W].
  rewrite dict_update_cons.
  destruct (key_eqb k0 k) eqn:E.
  - injection H as <-.
    rewrite dict_get_update_absent.
    + rewrite <- (dict_get_compat _ _ _ E). apply dict_get_set_same.
    + unfold dict_mem in *. rewrite <- (dict_get_compat _ _ _ E).
      now destruct (dict_get other k0).
  - now apply IH.
Qed.
End DictFacts.

(** ** Enumerations *)

Lemma find_value_none (members : list (string * string)) s :
  (forall n s', In (n, s') members -> s' <> s) ->
  find (fun m => String.eqb (snd m) s) members = None.
Proof.
  induction members as [|[n s'] members IH]; intro H; simpl; [reflexivity|].
  destruct (String.eqb s' s) eqn:E.
  - apply String.eqb_eq in E. exfalso. apply (H n s'); [now left|exact E].
  - apply IH. intros n0 s0 Hin. apply (H n0 s0). now right.
Qed.

Lemma find_value_some (members : list (string * string)) n s :
  In (n, s) members ->
  exists n', find (fun m => String.eqb (snd m) s) members = Some (n', s).
Proof.
  induction members as [|[n0 s0] members IH]; intro H; [contradiction|].
  simpl. destruct (String.eqb s0 s) eqn:E.
  - apply String.eqb_eq in E. subst. now exists n0.
  - destruct H as [H|H]; [|now apply IH].
    injection H as -> ->. now rewrite String.eqb_refl in E.
Qed.

(** C5.  Enumeration boundary.  For every enumeration class: decoding a
    raw value that is neither the bound string of a member nor a member of
    the class (any string that is no bound string, in particular) raises
    [SerializerError], chained from the [ValueError] of the member lookup,
    which carries the raw value; decoding the bound string of a declared
    member succeeds and the member obtained encodes to that very string;
    every member [v] satisfies [deserialize(serialize(v)) == v]; and a
    member of the class handed in as raw value is returned as it is. *)
Theorem enum_boundary (cls : enum_class) :
  (forall raw,
      (forall n s, In (n, s) (enum_members cls) -> raw <> VStr s) ->
      (forall e n s, raw = VEnum e n s -> enum_name e <> enum_name cls) ->
      SerializableEnum_deserialize cls raw =
      Raise (SerializerError ""
               (Some (ValueError "is not a valid enum member" raw))))
  /\ (forall n s,
         In (n, s) (enum_members cls) ->
         exists m,
           SerializableEnum_deserialize cls (VStr s) = Ok m
           /\ _serialize m = VStr s)
  /\ (forall n s,
         is_member cls n s ->
         SerializableEnum_deserialize cls (_serialize (VEnum cls n s))
         = Ok (VEnum cls n s))
  /\ (forall n s,
         SerializableEnum_deserialize cls (VEnum cls n s)
         = Ok (VEnum cls n s)).
Proof.
  split; [|split; [|split]].
  - intros raw H N. unfold SerializableEnum_deserialize, enum_call.
    destruct raw; try reflexivity.
    + rewrite find_value_none; [reflexivity|].
      intros n0 s0 Hin E. subst. eapply H; eauto.
    + destruct (String.eqb (enum_name e) (enum_name cls)) eqn:E;
        [|reflexivity].
      apply String.eqb_eq in E. exfalso. now apply (N e name val).
  - intros n s Hin. destruct (find_value_some _ _ _ Hin) as [n' E].
    exists (VEnum cls n' s). unfold SerializableEnum_deserialize, enum_call.
    rewrite E. split; reflexivity.
  - intros n s M. simpl. unfold SerializableEnum_serialize,
      SerializableEnum_deserialize, enum_call.
    unfold is_member in M. now rewrite M.
  - intros n s. unfold SerializableEnum_deserialize, enum_call.
    now rewrite String.eqb_refl.
Qed.

Lemma enum_boundary_witness :
  SerializableEnum_deserialize Color (VStr "blue") =
  Raise (SerializerError ""
           (Some (ValueError "is not a valid enum member" (VStr "blue"))))
  /\ (exists m, SerializableEnum_deserialize Color (VStr "green") = Ok m
                /\ _serialize m = VStr "green")
  /\ SerializableEnum_deserialize Color (_serialize (VEnum Color "RED" "red"))
     = Ok (VEnum Color "RED" "red")
  /\ SerializableEnum_deserialize Color (VEnum Color "RED" "red")
     = Ok (VEnum Color "RED" "red").
Proof.
  destruct (enum_boundary Color) as [H1 [H2 [H3 H4]]].
  split; [|split; [|split]].
  - apply H1.
    + intros n s [H|[H|[]]]; inversion H; discriminate.
    + intros e n s E. discriminate.
  - apply (H2 "GREEN"). simpl. right. left. reflexivity.
  - apply H3. reflexivity.
  - apply H4.
Defined.

(** ** The unrecognized bucket on encode *)

(** C10.  The bucket is merged into the output after the loop over the
    declared attributes, so every key of the bucket is bound in the final
    document to the bucket's value, whatever the declared attributes stored
    under that key. *)
Theorem unrecognized_overrides_fields
    (slots : list (attribute * pyobj)) (unrecognized : dict pyobj)
    (k : key) (v : pyobj) :
  dict_wf unrecognized ->
  dict_get unrecognized k = Some v ->
  _attrs_to_dict slots (Some unrecognized)
  = dict_update (_attrs_to_dict slots None) unrecognized
  /\ dict_get (_attrs_to_dict slots (Some unrecognized)) k = Some v.
Proof.
  intros W H. split; [reflexivity|].
  unfold _attrs_to_dict, _attrs_to_dict_with.
  now apply dict_get_update_present.
Qed.

Lemma unrecognized_overrides_fields_witness :
  let name := mk_attribute "name" (TClass "str") VNone in
  let bucket := [(KStr "name", VStr "b"); (KStr "extra", VBool true)] in
  dict_get (_attrs_to_dict [(name, VStr "a")] None) (KStr "name")
  = Some (VStr "a")
  /\ dict_get (_attrs_to_dict [(name, VStr "a")] (Some bucket)) (KStr "name")
     = Some (VStr "b").
Proof.
  split; [reflexivity|].
  apply (unrecognized_overrides_fields
           [(mk_attribute "name" (TClass "str") VNone, VStr "a")]
           [(KStr "name", VStr "b"); (KStr "extra", VBool true)]
           (KStr "name") (VStr "b")); reflexivity.
Defined.

(** ** Containers *)

(** C9.  Decoding [{"a": 1}] against [Dict[str, int]] returns no mapping:
    [issubclass] refuses the alias and the call raises [TypeError].  The
    branch of the source for mappings, which the class [dict] reaches,
    raises [TypeError] at its [getattr] call, and the comprehension that
    would follow iterates the value itself, unpacks the key ["a"] and
    raises [ValueError]. *)
Theorem dict_decode_raises :
  let cls := TDict (Some (TClass "str", TClass "int")) in
  let value := VDict [(KStr "a", VInt 1)] in
  _deserialize cls value VNone
  = Raise (TypeError "issubclass() arg 1 must be a class")
  /\ _deserialize (TBuiltin BDict) value VNone
     = Raise (TypeError "getattr() takes no keyword arguments")
  /\ dict_comprehension (fun item => _deserialize (TClass "int") item VNone)
                        value
     = Raise (ValueError "wrong number of values to unpack (expected 2)"
                         (VStr "a")).
Proof. repeat split. Qed.

(** ** Flattened attributes *)



(** ** Omission on encode *)

Section Loop.
Variable step : dict pyobj -> attribute * pyobj -> dict pyobj.

Lemma loop_skip e s1 s2 :
  (forall nd, step nd e = nd) ->
  forall acc, fold_left step (s1 ++ e :: s2)%list acc
              = fold_left step (s1 ++ s2)%list acc.
Proof.
  intros H acc. rewrite !fold_left_app. simpl. now rewrite H.
Qed.

Lemma loop_replace e e' s1 s2 :
  (forall nd, step nd e = step nd e') ->
  forall acc, fold_left step (s1 ++ e :: s2)%list acc
              = fold_left step (s1 ++ e' :: s2)%list acc.
Proof.
  intros H acc. rewrite !fold_left_app. simpl. now rewrite H.
Qed.
End Loop.

Lemma encode_field_omitempty field json_name new_dict :
  a_omitempty field = true ->
  encode_field _serialize new_dict (json_name, (field, VNone)) = new_dict.
Proof.
  intro H. unfold encode_field. simpl. rewrite H. simpl.
  now destruct (String.eqb json_name "").
Qed.

Lemma encode_field_substitute field json_name new_dict :
  a_omitempty field = false ->
  encode_field _serialize new_dict (json_name, (field, VNone))
  = encode_field _serialize new_dict (json_name, (field, a_default field)).
Proof.
  intro H. unfold encode_field. simpl. rewrite H. simpl.
  destruct (String.eqb json_name ""); [reflexivity|].
  destruct (a_default field) eqn:E; reflexivity.
Qed.

Lemma encode_field_omitdefault field field_val json_name new_dict :
  a_omitdefault field = true ->
  py_eq (substituted field field_val) (a_default field) = true ->
  encode_field _serialize new_dict (json_name, (field, field_val)) = new_dict.
Proof.
  intros H E. unfold encode_field, store_field. cbn [fst snd].
  destruct (String.eqb json_name ""); [reflexivity|].
  destruct field_val; cbn [substituted] in E; rewrite ?H, ?E; cbn [andb];
    try reflexivity.
  now destruct (negb (a_omitempty field)).
Qed.

(** C7.  Omission policies of the encoder.  An attribute flagged
    [omitempty] that holds [None] is skipped: the record encodes as if the
    attribute were not declared, and alone it leaves its wire key out of
    the document.  Without [omitempty] the record encodes as if the
    attribute held its declared default, which alone is stored under the
    wire key.  An attribute flagged [omitdefault] whose value, after that
    substitution, equals its default is skipped as well, also when the
    value was set explicitly. *)
Theorem omission_policies (field : attribute)
    (s1 s2 : list (attribute * pyobj)) (u : option (dict pyobj)) :
  (a_omitempty field = true ->
   _attrs_to_dict (s1 ++ (field, VNone) :: s2)%list u
   = _attrs_to_dict (s1 ++ s2)%list u
   /\ dict_get (_attrs_to_dict [(field, VNone)] None) (KStr (json_key field))
      = None)
  /\ (a_omitempty field = false ->
      _attrs_to_dict (s1 ++ (field, VNone) :: s2)%list u
      = _attrs_to_dict (s1 ++ (field, a_default field) :: s2)%list u
      /\ (a_omitdefault field = false -> a_flatten field = false ->
          json_key field <> "" ->
          dict_get (_attrs_to_dict [(field, VNone)] None)
                   (KStr (json_key field))
          = Some (_serialize (a_default field))))
  /\ (forall field_val,
         a_omitdefault field = true ->
         py_eq (substituted field field_val) (a_default field) = true ->
         _attrs_to_dict (s1 ++ (field, field_val) :: s2)%list u
         = _attrs_to_dict (s1 ++ s2)%list u).
Proof.
  unfold _attrs_to_dict, _attrs_to_dict_with.
  split; [|split].
  - intro H. split.
    + rewrite (loop_skip (fun new_dict field =>
                 encode_field _serialize new_dict (json_key (fst field), field)));
        [reflexivity|].
      intro nd. simpl. now apply encode_field_omitempty.
    + simpl. now rewrite encode_field_omitempty.
  - intro H. split.
    + rewrite (loop_replace (fun new_dict field =>
                 encode_field _serialize new_dict (json_key (fst field), field))
                 (field, VNone) (field, a_default field));
        [reflexivity|].
      intro nd. simpl. now apply encode_field_substitute.
    + intros Hd Hf Hj. simpl. unfold encode_field, store_field. simpl.
      apply String.eqb_neq in Hj. rewrite Hj, H, Hd, Hf. simpl.
      destruct (_serialize (a_default field));
        simpl; now rewrite String.eqb_refl.
  - intros field_val H E.
    rewrite (loop_skip (fun new_dict field =>
               encode_field _serialize new_dict (json_key (fst field), field)));
      [reflexivity|].
    intro nd. simpl. now apply encode_field_omitdefault.
Qed.

Lemma omission_policies_witness :
  let topic := Attribute "topic" (TClass "str") (VStr "none") None
                         false false true true in
  let level := Attribute "level" (TClass "int") (VInt 50) None
                         false false false false in
  _attrs_to_dict [(topic, VNone); (level, VInt 1)] None = [(KStr "level", VInt 1)]
  /\ _attrs_to_dict [(level, VNone)] None = [(KStr "level", VInt 50)]
  /\ _attrs_to_dict [(topic, VStr "none"); (level, VInt 1)] None
     = [(KStr "level", VInt 1)].
Proof.
  intros topic level.
  destruct (omission_policies topic [] [(level, VInt 1)] None) as [H1 [_ H3]].
  destruct (omission_policies level [] [] None) as [_ [H2 _]].
  split; [|split].
  - pose proof (proj1 (H1 eq_refl)) as P. cbn [app] in P.
    rewrite P. reflexivity.
  - pose proof (proj1 (H2 eq_refl)) as P. cbn [app] in P.
    rewrite P. reflexivity.
  - pose proof (H3 (VStr "none") eq_refl eq_refl) as P. cbn [app] in P.
    rewrite P. reflexivity.
Defined.

(** ** Missing mandatory attributes *)

Lemma map_fst_field_decoders c : map fst (field_decoders c) = c_fields c.
Proof.
  unfold field_decoders. rewrite map_map. simpl. apply map_id.
Qed.

Lemma fields_flatten_none c :
  no_flatten (c_fields c) = true ->
  _fields fst (field_decoders c) (Some true) = [].
Proof.
  unfold _fields, field_decoders, no_flatten.
  induction (c_fields c) as [|f fs IH]; simpl; [reflexivity|].
  intro H. apply andb_true_iff in H as [Hf H].
  apply negb_true_iff in Hf. rewrite Hf. simpl. now apply IH.
Qed.

Lemma attrs_init_missing fields f :
  find is_mandatory fields = Some f ->
  attrs_init fields []
  = Raise (TypeError "__init__() missing required positional argument").
Proof.
  induction fields as [|g fields IH]; simpl; [discriminate|].
  unfold is_mandatory at 1.
  destruct (a_default g) eqn:E; try reflexivity; intro H; rewrite (IH H);
    reflexivity.
Qed.

Lemma find_mandatory_first fields f :
  mandatory_first fields = true ->
  find is_mandatory fields = Some f ->
  exists rest, fields = f :: rest.
Proof.
  destruct fields as [|g rest]; simpl; [discriminate|].
  intros M H. destruct (is_mandatory g) eqn:E.
  - injection H as <-. now exists rest.
  - apply andb_true_iff in M as [M _]. simpl in M.
    exfalso. clear E. induction rest as [|h rest IH]; simpl in *; [discriminate|].
    apply andb_true_iff in M as [Mh M].
    destruct (is_mandatory h); [discriminate|]. now apply IH.
Qed.

(** C4, as the code has it.  For a class without flattened attributes
    that declares a mandatory attribute (mandatory attributes first, as
    attrs demands), decoding [{}] raises [SerializerError] with the message
    [Missing value for required key <name> in <class>], where [<name>] is
    the attribute name, not the wire key, of the first mandatory attribute
    in declaration order. *)
Theorem missing_required_field (c : attrs_class) (f : attribute) :
  no_flatten (c_fields c) = true ->
  mandatory_first (c_fields c) = true ->
  find is_mandatory (c_fields c) = Some f ->
  SerializableAttrs_deserialize c (VDict [])
  = Raise (SerializerError
             ("Missing value for required key " ++ a_name f
              ++ " in " ++ c_name c)
             (Some (TypeError
                      "__init__() missing required positional argument"))).
Proof.
  intros NF MF H.
  unfold SerializableAttrs_deserialize, _dict_to_attrs, _dict_to_attrs_with.
  rewrite (fields_flatten_none _ NF). simpl.
  rewrite map_fst_field_decoders, (attrs_init_missing _ _ H).
  destruct (find_mandatory_first _ _ MF H) as [rest E].
  unfold _fields, field_decoders. rewrite E. reflexivity.
Qed.

Lemma missing_required_field_witness :
  SerializableAttrs_deserialize Event (VDict [])
  = Raise (SerializerError "Missing value for required key event_id in Event"
             (Some (TypeError
                      "__init__() missing required positional argument"))).
Proof.
  apply (missing_required_field Event
           (Attribute "event_id" (TClass "str") VNothing (Some "id")
                      false false true false)); reflexivity.
Defined.

(** C4 as stated fails twice.  The message names the attribute
    [event_id], whose wire key is ["id"]; and a mandatory attribute that is
    flattened is handed [attr.NOTHING] by the nested decode of [{}], so the
    record is built and no error is raised. *)
Lemma missing_field_counterexample :
  (json_key (Attribute "event_id" (TClass "str") VNothing (Some "id")
                       false false true false) = "id"
   /\ forall cause,
       SerializableAttrs_deserialize Event (VDict [])
       <> Raise (SerializerError "Missing value for required key id in Event"
                                 cause))
  /\ (find is_mandatory (c_fields Wrapper) <> None
      /\ exists slots,
          SerializableAttrs_deserialize Wrapper (VDict [])
          = Ok (VInst "Wrapper" slots None)).
Proof.
  split; split.
  - reflexivity.
  - intros cause H. vm_compute in H. discriminate.
  - discriminate.
  - eexists. vm_compute. reflexivity.
Qed.

(** ** Copies of defaults *)

Lemma lookup_alloc_old s c l :
  l < List.length s -> Store.lookup (fst (Store.alloc s c)) l = Store.lookup s l.
Proof. intro H. unfold Store.alloc, Store.lookup. simpl. now rewrite nth_error_app1. Qed.

Lemma lookup_alloc_new s c :
  Store.lookup (fst (Store.alloc s c)) (snd (Store.alloc s c)) = Some c.
Proof.
  unfold Store.alloc, Store.lookup. simpl.
  rewrite nth_error_app2, Nat.sub_diag by lia. reflexivity.
Qed.

Lemma lookup_update_other s : forall l l' c,
  l <> l' -> Store.lookup (Store.update s l c) l' = Store.lookup s l'.
Proof.
  unfold Store.lookup.
  induction s as [|c0 s IH]; intros l l' c H; [reflexivity|].
  destruct l, l'; simpl; try reflexivity; [congruence|].
  apply IH. congruence.
Qed.

Lemma lookup_bound s l c : Store.lookup s l = Some c -> l < List.length s.
Proof. intro H. apply nth_error_Some. unfold Store.lookup in H. congruence. Qed.

(** C8, as the code has it.  Decoding [None] returns an immutable default
    as the same object and leaves the store alone.  For a list or a dict
    it returns a new object that holds the references of the default (a
    shallow copy): two decodes return two new, different objects, and
    changing one of them in place changes neither the other nor the
    default.  The objects the default refers to are shared by all of
    them. *)
Theorem null_decode_copies_shallowly (s : Store.store) (default : Store.loc)
    (c : Store.cell) :
  Store.lookup s default = Some c ->
  (Store.is_immutable c = true ->
   Store._deserialize_None s default = (s, default))
  /\ (Store.is_container c = true ->
      forall s1 r1 s2 r2,
        Store._deserialize_None s default = (s1, r1) ->
        Store._deserialize_None s1 default = (s2, r2) ->
        Store.lookup s r1 = None /\ Store.lookup s1 r2 = None
        /\ r1 <> r2 /\ r1 <> default /\ r2 <> default
        /\ Store.lookup s2 r1 = Some c /\ Store.lookup s2 r2 = Some c
        /\ Store.lookup s2 default = Some c
        /\ forall c',
            Store.lookup (Store.update s2 r1 c') r2 = Some c
            /\ Store.lookup (Store.update s2 r1 c') default = Some c).
Proof.
  intro H. pose proof (lookup_bound _ _ _ H) as B. split.
  - intro I. unfold Store._deserialize_None, Store._safe_default.
    now rewrite H, I.
  - intros C s1 r1 s2 r2 E1 E2.
    assert (I : Store.is_immutable c = false) by (destruct c; [discriminate|reflexivity..]).
    assert (A : forall s0, Store.lookup s0 default = Some c ->
                Store._deserialize_None s0 default = Store.alloc s0 c).
    { intros s0 H0. unfold Store._deserialize_None, Store._safe_default,
        Store.copy_copy. rewrite H0, I. destruct c; [discriminate|reflexivity..]. }
    rewrite (A _ H) in E1. injection E1 as <- <-.
    assert (H1 : Store.lookup (s ++ [c])%list default = Some c).
    { apply (eq_trans (lookup_alloc_old s c default B) H). }
    rewrite (A _ H1) in E2. injection E2 as <- <-.
    assert (L : List.length (s ++ [c])%list = S (List.length s)).
    { rewrite length_app. simpl. lia. }
    assert (R1 : Store.lookup ((s ++ [c]) ++ [c])%list (List.length s) = Some c).
    { etransitivity; [|exact (lookup_alloc_new s c)].
      apply (lookup_alloc_old (s ++ [c])%list c). rewrite L. simpl. lia. }
    assert (R2 : Store.lookup ((s ++ [c]) ++ [c])%list
                              (List.length (s ++ [c])%list) = Some c).
    { apply (lookup_alloc_new (s ++ [c])%list c). }
    assert (D : Store.lookup ((s ++ [c]) ++ [c])%list default = Some c).
    { rewrite <- H1. apply (lookup_alloc_old (s ++ [c])%list c). rewrite L. lia. }
    repeat split; try assumption; try lia.
    + apply nth_error_None. lia.
    + apply nth_error_None. lia.
    + rewrite lookup_update_other by lia. exact R2.
    + rewrite lookup_update_other by lia. exact D.
Qed.

Lemma null_decode_copies_shallowly_witness :
  let s := Store.nested_default in
  let (s1, r1) := Store._deserialize_None s 2 in
  let (s2, r2) := Store._deserialize_None s1 2 in
  r1 <> r2
  /\ Store.lookup (Store.update s2 r1 (Store.CList [])) r2
     = Some (Store.CList [1]).
Proof.
  destruct (null_decode_copies_shallowly Store.nested_default 2
              (Store.CList [1]) eq_refl) as [_ H].
  specialize (H eq_refl _ _ _ _ eq_refl eq_refl).
  destruct H as (_ & _ & N & _ & _ & _ & _ & _ & U).
  split; [exact N|]. exact (proj1 (U (Store.CList []))).
Defined.

(** C8 as stated fails: the copy is not deep.  With the default [[[1]]],
    appending to the inner list reached through the first decoded value is
    seen through the second decoded value and through the default. *)
Lemma shared_default_counterexample :
  let s := Store.nested_default in
  let (s1, r1) := Store._deserialize_None s 2 in
  let (s2, r2) := Store._deserialize_None s1 2 in
  match Store.list_item s2 r1 0 with
  | Some inner =>
      let s3 := Store.list_append s2 inner 0 in
      Store.read 3 s2 r2 = Some (VList [VList [VInt 1]])
      /\ Store.read 3 s3 r2 = Some (VList [VList [VInt 1; VInt 1]])
      /\ Store.read 3 s3 2 = Some (VList [VList [VInt 1; VInt 1]])
  | None => False
  end.
Proof. vm_compute. repeat split. Qed.

Lemma read_alloc_old c s :
  Store.closed s ->
  forall depth l, l < List.length s ->
    Store.read depth (s ++ [c])%list l = Store.read depth s l.
Proof.
  intros W. induction depth as [|depth IH]; intros l B; [reflexivity|].
  cbn [Store.read].
  replace (Store.lookup (s ++ [c])%list l) with (Store.lookup s l)
    by (symmetry; apply (lookup_alloc_old s c l B)).
  destruct (Store.lookup s l) as [[k|items|items]|] eqn:E; try reflexivity.
  - assert (F : Forall (fun l => l < List.length s) items).
    { unfold Store.closed in W. rewrite Forall_forall in W.
      apply (W (Store.CList items)). eapply nth_error_In. exact E. }
    do 2 f_equal. apply map_ext_in. intros a Ha.
    rewrite Forall_forall in F. apply IH. now apply F.
  - assert (F : Forall (fun kv => snd kv < List.length s) items).
    { unfold Store.closed in W. rewrite Forall_forall in W.
      apply (W (Store.CDict items)). eapply nth_error_In. exact E. }
    do 2 f_equal. apply map_ext_in. intros a Ha.
    rewrite Forall_forall in F. f_equal. apply IH. now apply F.
Qed.

(** The object [_safe_default] returns reads back as the default does:
    on [pyobj] the function is the identity, as [copy_copy] has it. *)
Lemma safe_default_reads_as_default s default s' r :
  Store.closed s ->
  Store._safe_default s default = (s', r) ->
  forall depth, Store.read depth s' r = Store.read depth s default.
Proof.
  intros W E depth. unfold Store._safe_default, Store.copy_copy in E.
  destruct (Store.lookup s default) as [c|] eqn:H;
    [|injection E as <- <-; reflexivity].
  assert (A : forall c', Store.lookup s default = Some c' ->
              Store.is_container c' = true ->
              Store.read depth (s ++ [c'])%list (List.length s)
              = Store.read depth s default).
  { intros c' H' C. destruct depth as [|depth]; [reflexivity|].
    cbn [Store.read]. rewrite H'.
    replace (Store.lookup (s ++ [c'])%list (List.length s)) with (Some c')
      by (symmetry; apply (lookup_alloc_new s c')).
    assert (F : Store.cell_closed (List.length s) c').
    { unfold Store.closed in W. rewrite Forall_forall in W. apply W.
      eapply nth_error_In. exact H'. }
    destruct c' as [k|items|items]; [discriminate| |]; simpl in F;
      rewrite Forall_forall in F; do 2 f_equal; apply map_ext_in; intros a Ha.
    - apply (read_alloc_old _ _ W). now apply F.
    - f_equal. apply (read_alloc_old _ _ W). now apply F. }
  destruct (Store.is_immutable c); [injection E as <- <-; reflexivity|].
  destruct c as [k|items|items]; [injection E as <- <-; reflexivity| |];
    rewrite <- (A _ H eq_refl); unfold Store.alloc in E;
    injection E as <- <-; reflexivity.
Qed.

(** ** The dictionary of attributes by wire key *)

Lemma dict_get_map_values {A B} (g : A -> B) (d : dict A) k :
  dict_get (map_values g d) k = option_map g (dict_get d k).
Proof.
  induction d as [|[k0 a] d IH]; simpl; [reflexivity|].
  now destruct (key_eqb k0 k).
Qed.

Lemma dict_set_map_values {A B} (g : A -> B) (d : dict A) k a :
  dict_set (map_values g d) k (g a) = map_values g (dict_set d k a).
Proof.
  induction d as [|[k0 a0] d IH]; simpl; [reflexivity|].
  destruct (key_eqb k0 k); simpl; [reflexivity|]. now rewrite IH.
Qed.

Lemma dict_update_map_values {A B} (g : A -> B) (other : dict A) :
  forall d, dict_update (map_values g d) (map_values g other)
            = map_values g (dict_update d other).
Proof.
  induction other as [|[k a] other IH]; intro d; [reflexivity|].
  simpl map_values. rewrite !dict_update_cons. simpl fst. simpl snd.
  rewrite dict_set_map_values. apply IH.
Qed.

Lemma wire_fields_decoders c :
  map (fun p => (KStr (fst p), snd p))
      (_fields fst (field_decoders c) (Some false))
  = map_values (fun f => (f, decode_field f)) (wire_fields (c_fields c)).
Proof.
  unfold wire_fields, _fields, field_decoders, map_values.
  induction (c_fields c) as [|f fs IH]; simpl; [reflexivity|].
  destruct (Bool.eqb (a_flatten f) false); simpl; now rewrite IH.
Qed.

Lemma fields_dict_get c k :
  dict_get (dict_of_pairs
              (map (fun p => (KStr (fst p), snd p))
                   (_fields fst (field_decoders c) (Some false)))) k
  = option_map (fun f => (f, decode_field f)) (field_for c k).
Proof.
  rewrite wire_fields_decoders. unfold dict_of_pairs, field_for.
  change (@nil (key * (attribute * decoder)))
    with (map_values (fun f => (f, decode_field f)) []).
  rewrite dict_update_map_values. apply dict_get_map_values.
Qed.

(** What [dict(pairs)] holds under a key comes from a pair with that
    key. *)
Lemma dict_get_update_In {V} (other : dict V) : forall (d : dict V) k v,
  dict_get (dict_update d other) k = Some v ->
  dict_get d k = Some v
  \/ exists k', In (k', v) other /\ key_eqb k' k = true.
Proof.
  induction other as [|[k0 v0] other IH]; intros d k v H; [now left|].
  rewrite dict_update_cons in H. apply IH in H as [H|[k' [Hin E]]].
  - rewrite dict_get_set in H. destruct (key_eqb k0 k) eqn:E.
    + injection H as <-. right. exists k0. split; [now left|exact E].
    + now left.
  - right. exists k'. split; [now right|exact E].
Qed.

Lemma wire_fields_In fields k f :
  In (k, f) (wire_fields fields) ->
  In f fields /\ a_flatten f = false /\ k = KStr (json_key f).
Proof.
  unfold wire_fields, _fields. rewrite map_map. simpl.
  rewrite in_map_iff. intros [g [E Hin]]. injection E as <- <-.
  apply filter_In in Hin as [Hin Hf]. apply Bool.eqb_prop in Hf. auto.
Qed.

Lemma field_for_In c k f :
  field_for c k = Some f ->
  In f (c_fields c) /\ a_flatten f = false /\ k = KStr (json_key f).
Proof.
  unfold field_for, dict_of_pairs. intro H.
  apply dict_get_update_In in H as [H|[k' [Hin E]]]; [discriminate|].
  apply wire_fields_In in Hin as (Hin & Hf & ->).
  apply key_eqb_KStr in E. auto.
Qed.

Lemma dict_mem_update {V} (other : dict V) : forall (d : dict V) k,
  dict_mem (dict_update d other) k
  = dict_mem d k || existsb (fun kv => key_eqb (fst kv) k) other.
Proof.
  induction other as [|[k0 v0] other IH]; intros d k.
  - simpl. now rewrite orb_false_r.
  - rewrite dict_update_cons, IH, dict_mem_set. simpl.
    now destruct (key_eqb k0 k), (dict_mem d k).
Qed.

(** A key that is no wire key of the class is not in the dictionary. *)
Lemma field_for_none c k :
  (forall f, In f (c_fields c) -> key_eqb (KStr (json_key f)) k = false) ->
  field_for c k = None.
Proof.
  intro H. destruct (field_for c k) as [f|] eqn:E; [|reflexivity].
  apply field_for_In in E as (Hin & _ & ->).
  specialize (H f Hin). now rewrite key_eqb_refl in H.
Qed.

(** ** Well-formed dictionaries *)

Lemma dict_wf_set {V} (d : dict V) k v : dict_wf d -> dict_wf (dict_set d k v).
Proof.
  unfold dict_wf. induction d as [|[k0 v0] d IH]; simpl; [reflexivity|].
  intro W. apply andb_true_iff in W as [F W].
  destruct (key_eqb k0 k) eqn:E; simpl.
  - now rewrite F, W.
  - rewrite dict_mem_set, (key_eqb_sym k k0), E. simpl. now rewrite F, IH.
Qed.

Lemma dict_wf_update {V} (other : dict V) :
  forall d, dict_wf d -> dict_wf (dict_update d other).
Proof.
  induction other as [|[k v] other IH]; intros d W; [exact W|].
  rewrite dict_update_cons. apply IH. now apply dict_wf_set.
Qed.

Lemma dict_mem_filter_false {V} (P : key * V -> bool) (d : dict V) k :
  dict_mem d k = false -> dict_mem (filter P d) k = false.
Proof.
  unfold dict_mem. induction d as [|[k0 v0] d IH]; simpl; [reflexivity|].
  destruct (key_eqb k0 k) eqn:E; [discriminate|]. intro H.
  destruct (P (k0, v0)); simpl; rewrite ?E; now apply IH.
Qed.

Lemma dict_wf_filter {V} (P : key * V -> bool) (d : dict V) :
  dict_wf d -> dict_wf (filter P d).
Proof.
  unfold dict_wf. induction d as [|[k0 v0] d IH]; simpl; [reflexivity|].
  intro W. apply andb_true_iff in W as [F W].
  destruct (P (k0, v0)); simpl; [|now apply IH].
  apply negb_true_iff in F. rewrite (dict_mem_filter_false P d k0 F).
  simpl. now apply IH.
Qed.

Lemma dict_update_nil_wf {V} (other : dict V) :
  forall d, dict_wf (d ++ other)%list -> dict_update d other = (d ++ other)%list.
Proof.
  induction other as [|[k v] other IH]; intros d W.
  - now rewrite app_nil_r.
  - rewrite dict_update_cons.
    assert (F : dict_mem d k = false).
    { clear IH. unfold dict_wf in W. induction d as [|[k0 v0] d IHd]; [reflexivity|].
      simpl in W. apply andb_true_iff in W as [F W].
      unfold dict_mem in *. simpl.
      rewrite dict_get_app in F. simpl in F. rewrite key_eqb_sym.
      destruct (dict_get d k0); [discriminate|].
      destruct (key_eqb k k0); [discriminate|]. now apply IHd. }
    rewrite (dict_set_fresh d k v F).
    replace (d ++ (k, v) :: other)%list with ((d ++ [(k, v)]) ++ other)%list in *
      by (now rewrite <- app_assoc).
    now apply IH.
Qed.

(** ** The passes of [_dict_to_attrs] *)

Lemma unmatched_compat c k k' v v' :
  key_eqb k k' = true -> unmatched c (k, v) = unmatched c (k', v').
Proof.
  intro E. unfold unmatched, field_for. simpl.
  now rewrite (dict_get_compat _ _ _ E).
Qed.

Lemma dict_get_filter_unmatched c (d : dict pyobj) k v :
  field_for c k = None -> dict_get d k = Some v ->
  dict_get (filter (unmatched c) d) k = Some v.
Proof.
  intros U. induction d as [|[k0 v0] d IH]; simpl; [discriminate|].
  destruct (key_eqb k0 k) eqn:E.
  - intro H. injection H as <-.
    rewrite (unmatched_compat c k0 k v0 v0 E). unfold unmatched. simpl.
    rewrite U. simpl. now rewrite E.
  - intro H. destruct (unmatched c (k0, v0)); simpl; rewrite ?E; now apply IH.
Qed.

(** The bucket after the loop over the document: the entries without
    attribute, in the order of the document. *)
Lemma items_pass_bucket c : forall items ni u ni' u',
  items_pass (dict_of_pairs
                (map (fun p => (KStr (fst p), snd p))
                     (_fields fst (field_decoders c) (Some false))))
             items ni u = Ok (ni', u') ->
  u' = dict_update u (filter (unmatched c) items).
Proof.
  induction items as [|[k v] items IH]; intros ni u ni' u' H.
  - simpl in H. now injection H as _ <-.
  - simpl in H. rewrite fields_dict_get in H. cbn [filter].
    replace (unmatched c (k, v))
      with (match field_for c k with None => true | Some _ => false end)
      by reflexivity.
    destruct (field_for c k) as [f|]; simpl in H.
    + destruct (decode_field f v); simpl in H; [|discriminate].
      now apply IH in H.
    + apply IH in H. now rewrite dict_update_cons.
Qed.

Lemma attrs_init_fst fields : forall ni slots,
  attrs_init fields ni = Ok slots -> map fst slots = fields.
Proof.
  induction fields as [|f fields IH]; intros ni slots H; simpl in H.
  - now injection H as <-.
  - destruct (dict_get ni (KStr (a_name f))).
    + destruct (attrs_init fields ni) eqn:E; simpl in H; [|discriminate].
      injection H as <-. simpl. now rewrite (IH _ _ E).
    + destruct (a_default f); try discriminate;
        destruct (attrs_init fields ni) eqn:E; simpl in H; try discriminate;
        injection H as <-; simpl; now rewrite (IH _ _ E).
Qed.

(** A successful decode of a document at the top level went through both
    passes and the constructor. *)
Lemma dict_to_attrs_ok_inv c d default r :
  _dict_to_attrs c (VDict d) default false = Ok r ->
  exists ni0 ni u slots,
    flatten_pass (_fields fst (field_decoders c) (Some true)) (VDict d) []
    = Ok ni0
    /\ items_pass (dict_of_pairs
                     (map (fun p => (KStr (fst p), snd p))
                          (_fields fst (field_decoders c) (Some false))))
                  d ni0 [] = Ok (ni, u)
    /\ attrs_init (c_fields c) ni = Ok slots
    /\ r = VInst (c_name c) slots (attached u).
Proof.
  unfold _dict_to_attrs, _dict_to_attrs_with.
  replace (if truthy (VDict d) then VDict d else VDict []) with (VDict d)
    by (destruct d; reflexivity).
  destruct (flatten_pass _ _ _) as [ni0|] eqn:E0; simpl; [|discriminate].
  destruct (items_pass _ _ _ _) as [[ni u]|] eqn:E1; simpl; [|discriminate].
  rewrite andb_false_r, map_fst_field_decoders.
  destruct (attrs_init _ _) as [slots|[]] eqn:E2; try discriminate.
  - intro H. injection H as <-. exists ni0, ni, u, slots. auto.
  - destruct (first_missing _ _); discriminate.
Qed.

(** ** Unrecognized keys *)

Lemma filter_unmatched_set c (d : dict pyobj) k v :
  filter (unmatched c) (dict_set d k v)
  = if unmatched c (k, v) then dict_set (filter (unmatched c) d) k v
    else filter (unmatched c) d.
Proof.
  induction d as [|[k0 v0] d IH]; simpl.
  - now destruct (unmatched c (k, v)).
  - destruct (key_eqb k0 k) eqn:E; simpl.
    + rewrite (unmatched_compat c k0 k v v E), (unmatched_compat c k0 k v0 v E).
      destruct (unmatched c (k, v)); simpl; [now rewrite E|reflexivity].
    + rewrite IH. destruct (unmatched c (k0, v0)), (unmatched c (k, v));
        simpl; rewrite ?E; reflexivity.
Qed.

Lemma filter_unmatched_update c (other : dict pyobj) : forall d,
  filter (unmatched c) (dict_update d other)
  = dict_update (filter (unmatched c) d) (filter (unmatched c) other).
Proof.
  induction other as [|[k v] other IH]; intro d; [reflexivity|].
  rewrite dict_update_cons, IH, filter_unmatched_set. simpl filter.
  destruct (unmatched c (k, v)); [now rewrite dict_update_cons|reflexivity].
Qed.

Lemma filter_idem {A} (P : A -> bool) (l : list A) :
  filter P (filter P l) = filter P l.
Proof.
  induction l as [|a l IH]; simpl; [reflexivity|].
  destruct (P a) eqn:E; simpl; rewrite ?E, IH; reflexivity.
Qed.

Lemma field_for_some c f :
  In f (c_fields c) -> a_flatten f = false ->
  field_for c (KStr (json_key f)) <> None.
Proof.
  intros Hin Hf. unfold field_for, dict_of_pairs.
  assert (M : dict_mem (dict_update [] (wire_fields (c_fields c)))
                       (KStr (json_key f)) = true).
  { rewrite dict_mem_update. simpl. apply existsb_exists.
    exists (KStr (json_key f), f). split; [|apply key_eqb_refl].
    unfold wire_fields, _fields. rewrite map_map. simpl.
    apply in_map_iff. exists f. split; [reflexivity|].
    apply filter_In. split; [exact Hin|]. now rewrite Hf. }
  unfold dict_mem in M. now destruct (dict_get _ _).
Qed.

(** Without flattened attributes the loop of the encoder stores under
    wire keys only. *)
Lemma encode_field_matched c f x nd :
  In f (c_fields c) -> a_flatten f = false ->
  filter (unmatched c) nd = [] ->
  filter (unmatched c)
         (encode_field _serialize nd (json_key f, (f, x))) = [].
Proof.
  intros Hin Hf H.
  assert (S : forall s, filter (unmatched c)
                          (dict_set nd (KStr (json_key f)) s) = []).
  { intro s. rewrite filter_unmatched_set, H. unfold unmatched. simpl.
    pose proof (field_for_some c f Hin Hf).
    now destruct (field_for c (KStr (json_key f))). }
  unfold encode_field, store_field. simpl. rewrite Hf.
  destruct (String.eqb (json_key f) ""); [exact H|].
  destruct x; try (destruct (a_omitdefault f && _); [exact H|]);
    try (destruct (_serialize _); apply S).
  destruct (negb (a_omitempty f)); [|exact H].
  destruct (a_omitdefault f && _); [exact H|].
  destruct (_serialize _); apply S.
Qed.

Lemma encode_loop_matched c slots : forall nd,
  (forall f, In f (map fst slots) -> In f (c_fields c) /\ a_flatten f = false) ->
  filter (unmatched c) nd = [] ->
  filter (unmatched c)
         (fold_left (fun new_dict field =>
                       encode_field _serialize new_dict
                                    (json_key (fst field), field)) slots nd)
  = [].
Proof.
  induction slots as [|[f x] slots IH]; intros nd H E; [exact E|].
  simpl. apply IH.
  - intros g Hg. apply H. now right.
  - destruct (H f (or_introl eq_refl)) as [Hin Hf].
    now apply encode_field_matched.
Qed.

Lemma no_flatten_In fields f :
  no_flatten fields = true -> In f fields -> a_flatten f = false.
Proof.
  unfold no_flatten. rewrite forallb_forall. intros H Hin.
  apply negb_true_iff. now apply H.
Qed.

Lemma attached_eq (u : dict pyobj) :
  attached u = match u with [] => None | _ => Some u end.
Proof. now destruct u. Qed.

(** C2, as the code has it.  When a document decodes, every key of it
    that is no wire key of the class is bound to the same value in the
    encoding of the decoded record.  For a class without flattened
    attributes, decoding that encoding again yields the same
    [unrecognized_]. *)
Theorem unrecognized_fidelity (c : attrs_class) (d : dict pyobj) (r : pyobj) :
  dict_wf d ->
  SerializableAttrs_deserialize c (VDict d) = Ok r ->
  exists cname slots bucket,
    r = VInst cname slots bucket
    /\ (forall k v,
           dict_get d k = Some v ->
           (forall f, In f (c_fields c) ->
                      key_eqb (KStr (json_key f)) k = false) ->
           dict_get (_attrs_to_dict slots bucket) k = Some v)
    /\ (no_flatten (c_fields c) = true ->
        forall cname' slots' bucket',
          SerializableAttrs_deserialize c (VDict (_attrs_to_dict slots bucket))
          = Ok (VInst cname' slots' bucket') ->
          bucket' = bucket).
Proof.
  intros W H. unfold SerializableAttrs_deserialize in *.
  apply dict_to_attrs_ok_inv in H as (ni0 & ni & u & slots & _ & P & I & ->).
  apply items_pass_bucket in P.
  assert (Wf : dict_wf (filter (unmatched c) d)) by now apply dict_wf_filter.
  assert (U : u = filter (unmatched c) d).
  { rewrite P. now apply (dict_update_nil_wf (filter (unmatched c) d) []). }
  exists (c_name c), slots, (attached u). split; [reflexivity|]. split.
  - intros k v G N.
    assert (Gu : dict_get u k = Some v).
    { rewrite U. apply dict_get_filter_unmatched; [|exact G].
      now apply field_for_none. }
    rewrite attached_eq. destruct u as [|e u]; [discriminate|].
    unfold _attrs_to_dict, _attrs_to_dict_with.
    apply dict_get_update_present; [|exact Gu].
    rewrite U. exact Wf.
  - intros NF cname' slots' bucket' H.
    apply dict_to_attrs_ok_inv in H as (ni0' & ni' & u' & s' & _ & P' & _ & E).
    injection E as _ _ E. subst bucket'. apply items_pass_bucket in P'.
    assert (M : filter (unmatched c)
                  (fold_left (fun new_dict field =>
                                encode_field _serialize new_dict
                                             (json_key (fst field), field))
                             slots []) = []).
    { apply encode_loop_matched; [|reflexivity].
      rewrite (attrs_init_fst _ _ _ I). intros f Hin. split; [exact Hin|].
      now apply (no_flatten_In (c_fields c)). }
    assert (E : u' = u); [|now rewrite E].
    rewrite P'. unfold _attrs_to_dict, _attrs_to_dict_with.
    rewrite attached_eq. destruct u as [|e u].
    + now rewrite M.
    + rewrite filter_unmatched_update, M, U, filter_idem.
      simpl dict_update at 2. rewrite <- U.
      assert (Wu : dict_wf (e :: u)) by (rewrite U; exact Wf).
      rewrite (dict_update_nil_wf (e :: u) [] Wu).
      now apply (dict_update_nil_wf (e :: u) []).
Qed.

Lemma unrecognized_fidelity_witness :
  let name := mk_attribute "name" (TClass "str") VNothing in
  let d := [(KStr "name", VStr "a"); (KStr "extra_flag", VBool true)] in
  exists cname slots bucket,
    SerializableAttrs_deserialize (AttrsClass "User" [name]) (VDict d)
    = Ok (VInst cname slots bucket)
    /\ dict_get (_attrs_to_dict slots bucket) (KStr "extra_flag")
       = Some (VBool true).
Proof.
  intros name d.
  destruct (unrecognized_fidelity (AttrsClass "User" [name]) d
              (VInst "User" [(name, VStr "a")]
                     (Some [(KStr "extra_flag", VBool true)]))
              eq_refl eq_refl) as (cname & slots & bucket & E & K & _).
  exists cname, slots, bucket. split.
  - rewrite <- E. reflexivity.
  - apply K; [reflexivity|].
    intros f [<-|[]]. reflexivity.
Defined.

(** C2 as stated fails for a class with a flattened attribute.  [Envelope]
    decodes [{"y": 1, "extra": true}] with the bucket [{y, extra}]; the
    encoding also holds the key [x] of the default of [Body.x], and
    decoding it again yields the bucket [{y, x, extra}]. *)
Lemma unrecognized_bucket_counterexample :
  exists slots slots',
    SerializableAttrs_deserialize Envelope envelope_document
    = Ok (VInst "Envelope" slots
                (Some [(KStr "y", VInt 1); (KStr "extra", VBool true)]))
    /\ SerializableAttrs_deserialize Envelope
         (VDict (_attrs_to_dict slots
                   (Some [(KStr "y", VInt 1); (KStr "extra", VBool true)])))
       = Ok (VInst "Envelope" slots'
                   (Some [(KStr "y", VInt 1); (KStr "x", VInt 5);
                          (KStr "extra", VBool true)]))
    /\ py_eq (VDict [(KStr "y", VInt 1); (KStr "x", VInt 5);
                     (KStr "extra", VBool true)])
             (VDict [(KStr "y", VInt 1); (KStr "extra", VBool true)])
       = false.
Proof.
  do 2 eexists. split; [vm_compute; reflexivity|].
  split; [vm_compute; reflexivity|reflexivity].
Qed.

(** ** Errors of single attributes *)

Lemma try_deserialize_absorbs cls value default e :
  _deserialize cls value default = Raise e -> absorbed e = true ->
  _try_deserialize cls value default true = Ok VNone.
Proof.
  intros H A. unfold _try_deserialize. rewrite H.
  destruct e; try reflexivity; discriminate.
Qed.

Section PassesSucceed.
Variable c : attrs_class.
Variable Q : string -> pyobj -> Prop.

Lemma items_pass_succeeds : forall items ni u,
  (forall k v f, In (k, v) items -> field_for c k = Some f ->
                 exists x, decode_field f v = Ok x /\ Q (a_name f) x) ->
  exists ni' u',
    items_pass (dict_of_pairs
                  (map (fun p => (KStr (fst p), snd p))
                       (_fields fst (field_decoders c) (Some false))))
               items ni u = Ok (ni', u')
    /\ (forall n x, dict_get ni' n = Some x ->
                    dict_get ni n = Some x
                    \/ exists s, key_eqb (KStr s) n = true /\ Q s x)
    /\ (forall n, dict_mem ni n = true -> dict_mem ni' n = true)
    /\ (forall k v f, In (k, v) items -> field_for c k = Some f ->
                      dict_mem ni' (KStr (a_name f)) = true).
Proof.
  induction items as [|[k v] items IH]; intros ni u H.
  - exists ni, u. repeat split; auto; intros k v f [].
  - simpl. rewrite fields_dict_get.
    destruct (field_for c k) as [f|] eqn:E; simpl.
    + destruct (H k v f (or_introl eq_refl) E) as [x [Dx Qx]].
      rewrite Dx. simpl.
      destruct (IH (dict_set ni (KStr (a_name f)) x) u)
        as (ni' & u' & P & G & M & F).
      { intros k' v' f' Hin. apply H. now right. }
      exists ni', u'. split; [exact P|]. split; [|split].
      * intros n x' Hn. apply G in Hn as [Hn|Hn]; [|now right].
        rewrite dict_get_set in Hn.
        destruct (key_eqb (KStr (a_name f)) n) eqn:En; [|now left].
        injection Hn as <-. right. now exists (a_name f).
      * intros n Hn. apply M. rewrite dict_mem_set, Hn. apply orb_true_r.
      * intros k' v' f' [Hin|Hin] E'.
        -- injection Hin as <- <-. rewrite E in E'. injection E' as <-.
           apply M. rewrite dict_mem_set, key_eqb_refl. reflexivity.
        -- now apply (F k' v').
    + destruct (IH ni (dict_set u k v)) as (ni' & u' & P & G & M & F).
      { intros k' v' f' Hin. apply H. now right. }
      exists ni', u'. split; [exact P|]. split; [exact G|]. split; [exact M|].
      intros k' v' f' [Hin|Hin] E'.
      * injection Hin as <- <-. congruence.
      * now apply (F k' v').
Qed.

Lemma flatten_pass_succeeds data :
  forall (fs : list (string * (attribute * decoder))) ni,
  (forall e, In e fs -> exists x, snd (snd e) data = Ok x) ->
  exists ni',
    flatten_pass fs data ni = Ok ni'
    /\ (forall n x, dict_get ni' n = Some x ->
                    dict_get ni n = Some x
                    \/ exists e, In e fs
                         /\ key_eqb (KStr (a_name (fst (snd e)))) n = true)
    /\ (forall n, dict_mem ni n = true -> dict_mem ni' n = true)
    /\ (forall e, In e fs -> dict_mem ni' (KStr (a_name (fst (snd e)))) = true).
Proof.
  induction fs as [|[j [g dec]] fs IH]; intros ni H.
  - exists ni. repeat split; auto; intros e [].
  - simpl. destruct (H (j, (g, dec)) (or_introl eq_refl)) as [x Dx].
    simpl in Dx. rewrite Dx. simpl.
    destruct (IH (dict_set ni (KStr (a_name g)) x)) as (ni' & P & G & M & F).
    { intros e Hin. apply H. now right. }
    exists ni'. split; [exact P|]. split; [|split].
    + intros n x' Hn. apply G in Hn as [Hn|[e [Hin En]]].
      * rewrite dict_get_set in Hn.
        destruct (key_eqb (KStr (a_name g)) n) eqn:En; [|now left].
        right. exists (j, (g, dec)). split; [now left|exact En].
      * right. exists e. split; [now right|exact En].
    + intros n Hn. apply M. rewrite dict_mem_set, Hn. apply orb_true_r.
    + intros e [<-|Hin]; [|now apply F].
      apply M. simpl. rewrite dict_mem_set, key_eqb_refl. reflexivity.
Qed.
End PassesSucceed.

Lemma attrs_init_succeeds ni : forall fields,
  (forall g, In g fields -> is_mandatory g = true ->
             dict_mem ni (KStr (a_name g)) = true) ->
  exists slots,
    attrs_init fields ni = Ok slots
    /\ forall g x, In g fields -> dict_get ni (KStr (a_name g)) = Some x ->
                   In (g, x) slots.
Proof.
  induction fields as [|f fields IH]; intro H.
  - exists []. split; [reflexivity|]. intros g x [].
  - destruct IH as (slots & E & S).
    { intros g Hin. apply H. now right. }
    simpl. rewrite E.
    destruct (dict_get ni (KStr (a_name f))) as [v|] eqn:G; simpl.
    + exists ((f, v) :: slots). split; [reflexivity|].
      intros g x [<-|Hin] Gx; [left; congruence|right; now apply S].
    + assert (N : is_mandatory f = false).
      { destruct (is_mandatory f) eqn:Mf; [|reflexivity].
        specialize (H f (or_introl eq_refl) Mf).
        unfold dict_mem in H. now rewrite G in H. }
      unfold is_mandatory in N.
      destruct (a_default f) eqn:Df; try discriminate;
        (eexists; split; [reflexivity|]);
        intros g x [<-|Hin] Gx; try congruence; right; now apply S.
Qed.

Lemma NoDup_name_inj fields f g :
  NoDup (map a_name fields) -> In f fields -> In g fields ->
  a_name f = a_name g -> f = g.
Proof.
  induction fields as [|h fields IH]; intros N Hf Hg E; [contradiction|].
  simpl in N. inversion N as [|? ? Hnot N']; subst.
  destruct Hf as [<-|Hf], Hg as [<-|Hg]; auto.
  - exfalso. apply Hnot. rewrite E. now apply in_map.
  - exfalso. apply Hnot. rewrite <- E. now apply in_map.
Qed.

Lemma dict_wf_In_unique {V} (d : dict V) k v v' :
  dict_wf d -> In (k, v) d -> In (k, v') d -> v = v'.
Proof.
  unfold dict_wf. induction d as [|[k0 v0] d IH]; intros W H H'; [contradiction|].
  simpl in W. apply andb_true_iff in W as [F W]. apply negb_true_iff in F.
  assert (A : forall x, In (k0, x) d -> False).
  { intros x Hin. clear -F Hin. unfold dict_mem in F.
    induction d as [|[k1 v1] d IHd]; [contradiction|].
    simpl in F. destruct Hin as [E|Hin].
    - injection E as -> ->. now rewrite key_eqb_refl in F.
    - destruct (key_eqb k1 k0); [discriminate|]. now apply IHd. }
  destruct H as [H|H], H' as [H'|H'].
  - congruence.
  - injection H as -> ->. exfalso. eapply A; eauto.
  - injection H' as -> ->. exfalso. eapply A; eauto.
  - now apply IH.
Qed.

Lemma fields_flatten_In c e :
  In e (_fields fst (field_decoders c) (Some true)) ->
  In (fst (snd e)) (c_fields c) /\ a_flatten (fst (snd e)) = true
  /\ snd (snd e) = decode_field (fst (snd e)).
Proof.
  unfold _fields, field_decoders. rewrite in_map_iff.
  intros [[g dec] [<- Hin]]. apply filter_In in Hin as [Hin Hf].
  apply in_map_iff in Hin as [g' [E Hin]]. injection E as <- <-.
  simpl in *. apply Bool.eqb_prop in Hf. auto.
Qed.

Lemma fields_flatten_In' c g :
  In g (c_fields c) -> a_flatten g = true ->
  In (json_key g, (g, decode_field g))
     (_fields fst (field_decoders c) (Some true)).
Proof.
  intros Hin Hf. unfold _fields, field_decoders. apply in_map_iff.
  exists (g, decode_field g). split; [reflexivity|].
  apply filter_In. split; [|simpl; now rewrite Hf].
  apply in_map_iff. now exists g.
Qed.




(** ** Nested records and documents *)

Lemma pyobj_inst_ind (P : pyobj -> Prop) :
  (forall v, (forall n s u, v <> VInst n s u) -> P v) ->
  (forall n slots u, Forall (fun s => P (snd s)) slots -> P (VInst n slots u)) ->
  forall v, P v.
Proof.
  intros H1 H2. fix IH 1. intro v.
  destruct v; try (apply H1; intros; discriminate).
  apply H2. induction slots as [|[f x] slots IHs]; constructor.
  - apply IH.
  - exact IHs.
Qed.

Lemma deserialize_core t t' v default :
  core_type t = Some t' -> v <> VNone ->
  _deserialize t v default = _deserialize t' v default.
Proof.
  intros C N. destruct t; simpl in C; try discriminate;
    try (injection C as <-; reflexivity).
  destruct t; simpl in C; try discriminate;
    injection C as <-; destruct v; try reflexivity; congruence.
Qed.

Lemma present_spec x : present x = false <-> x = VNone.
Proof. destruct x; simpl; split; congruence. Qed.

Lemma present_true x : x <> VNone -> present x = true.
Proof. destruct x; simpl; congruence. Qed.

Lemma encode_field_present f x nd :
  x <> VNone -> json_key f <> "" -> a_flatten f = false ->
  a_omitdefault f = false ->
  encode_field _serialize nd (json_key f, (f, x))
  = dict_set nd (KStr (json_key f)) (_serialize x).
Proof.
  intros N J F O. unfold encode_field, store_field. cbn [fst snd].
  apply String.eqb_neq in J. rewrite J, O, F. cbn [andb].
  destruct x; try congruence; try reflexivity;
    destruct (_serialize _); reflexivity.
Qed.

Lemma NoDup_inj {A B} (g : A -> B) (l : list A) a b :
  NoDup (map g l) -> In a l -> In b l -> g a = g b -> a = b.
Proof.
  induction l as [|h l IH]; intros N Ha Hb E; [contradiction|].
  simpl in N. inversion N as [|? ? Hnot N']; subst.
  destruct Ha as [<-|Ha], Hb as [<-|Hb]; auto.
  - exfalso. apply Hnot. rewrite E. now apply in_map.
  - exfalso. apply Hnot. rewrite <- E. now apply in_map.
Qed.

Section Slots.
Variable rt : pyobj -> pytype -> Prop.

Lemma encode_loop_wire : forall slots nd,
  Forall (fun s => slot_ok rt (fst s) (snd s)) slots ->
  no_flatten (map fst slots) = true ->
  NoDup (map json_key (map fst slots)) ->
  (forall f, In f (map fst slots) -> json_key f <> "") ->
  (forall f, In f (map fst slots) -> dict_mem nd (KStr (json_key f)) = false) ->
  fold_left (fun new_dict field =>
               encode_field _serialize new_dict (json_key (fst field), field))
            slots nd
  = (nd ++ wire slots)%list.
Proof.
  induction slots as [|[f x] slots IH]; intros nd S NF ND J M.
  - simpl. now rewrite app_nil_r.
  - inversion S as [|? ? Sx S']; subst. simpl in NF, ND, Sx.
    apply andb_true_iff in NF as [Ff NF]. apply negb_true_iff in Ff.
    inversion ND as [|? ? Hnot ND']; subst.
    cbn [fold_left fst]. unfold wire. cbn [flat_map fst snd]. fold (wire slots).
    destruct Sx as [(-> & _ & O)|(N & O & _)].
    + rewrite encode_field_omitempty by exact O. simpl.
      apply IH; auto.
      * intros g Hg. apply J. now right.
      * intros g Hg. apply M. now right.
    + rewrite encode_field_present; auto; [|apply J; now left].
      rewrite (present_true _ N).
      rewrite dict_set_fresh by (apply M; now left).
      rewrite IH; auto.
      * now rewrite <- app_assoc.
      * intros g Hg. apply J. now right.
      * intros g Hg. unfold dict_mem. rewrite dict_get_app.
        specialize (M g (or_intror Hg)). unfold dict_mem in M.
        destruct (dict_get nd (KStr (json_key g))); [discriminate|].
        simpl. destruct (String.eqb (json_key f) (json_key g)) eqn:E;
          [|reflexivity].
        apply String.eqb_eq in E. exfalso. apply Hnot. rewrite E.
        now apply in_map.
Qed.

End Slots.

Lemma serialize_dict_loop (d : dict pyobj) : forall acc,
  Forall (fun kv => serialize_key (fst kv) = fst kv
                    /\ _serialize (snd kv) = snd kv) d ->
  fold_left (fun acc kv =>
               dict_set acc (serialize_key (fst kv)) (_serialize (snd kv)))
            d acc
  = dict_update acc d.
Proof.
  induction d as [|[k v] d IH]; intros acc H; [reflexivity|].
  inversion H as [|? ? [Ek Ev] H']; subst. simpl in Ek, Ev.
  rewrite dict_update_cons. cbn [fold_left fst snd]. rewrite Ek, Ev.
  now apply IH.
Qed.

(** The encoder returns a document as it is. *)
Lemma serialize_document : forall v,
  is_document v = true -> _serialize v = v.
Proof.
  fix IH 1. intros v D. destruct v; try discriminate; try reflexivity.
  - cbn [_serialize]. f_equal. cbn [is_document] in D.
    induction items as [|x items IHl]; [reflexivity|].
    simpl in D. apply andb_true_iff in D as [Dx D].
    simpl. rewrite (IH x Dx). f_equal. now apply IHl.
  - cbn [_serialize]. f_equal. cbn [is_document] in D.
    apply andb_true_iff in D as [W D].
    rewrite serialize_dict_loop.
    + now apply (dict_update_nil_wf items []).
    + clear W. induction items as [|[k x] items IHl]; constructor.
      * simpl in D. apply andb_true_iff in D as [Dx _].
        destruct k; try discriminate. split; [reflexivity|]. now apply IH.
      * apply IHl. simpl in D. now apply andb_true_iff in D as [_ D].
Qed.

(** ** The record decoder as a function of the document *)

Lemma safe_default_id v : _safe_default v = v.
Proof. unfold _safe_default, copy_copy. now destruct (is_immutable v). Qed.

Lemma dict_wf_In_get {V} (d : dict V) k v :
  dict_wf d -> In (k, v) d -> dict_get d k = Some v.
Proof.
  unfold dict_wf. induction d as [|[k0 v0] d IH]; intros W H; [contradiction|].
  simpl in W. apply andb_true_iff in W as [F W]. apply negb_true_iff in F.
  simpl. destruct H as [H|H].
  - injection H as -> ->. now rewrite key_eqb_refl.
  - destruct (key_eqb k0 k) eqn:E; [|now apply IH].
    exfalso. unfold dict_mem in F. rewrite (dict_get_compat d k0 k E) in F.
    rewrite (IH W H) in F. discriminate.
Qed.

Lemma dict_get_In {V} (d : dict V) k v :
  dict_get d k = Some v -> exists k', In (k', v) d /\ key_eqb k' k = true.
Proof.
  induction d as [|[k0 v0] d IH]; simpl; [discriminate|].
  destruct (key_eqb k0 k) eqn:E.
  - intro H. injection H as <-. exists k0. split; [now left|exact E].
  - intro H. destruct (IH H) as (k' & Hin & E'). exists k'. split; [now right|exact E'].
Qed.

Lemma flatten_pass_values (Q : string -> pyobj -> Prop) data :
  forall (fs : list (string * (attribute * decoder))) ni,
  (forall e, In e fs ->
     exists x, snd (snd e) data = Ok x /\ Q (a_name (fst (snd e))) x) ->
  exists ni',
    flatten_pass fs data ni = Ok ni'
    /\ (forall n x, dict_get ni' n = Some x ->
                    dict_get ni n = Some x
                    \/ exists s, key_eqb (KStr s) n = true /\ Q s x)
    /\ (forall n, dict_mem ni n = true -> dict_mem ni' n = true)
    /\ (forall e, In e fs -> dict_mem ni' (KStr (a_name (fst (snd e)))) = true).
Proof.
  induction fs as [|[j [g dec]] fs IH]; intros ni H.
  - exists ni. repeat split; auto; intros e [].
  - simpl. destruct (H (j, (g, dec)) (or_introl eq_refl)) as [x [Dx Qx]].
    simpl in Dx, Qx. rewrite Dx. simpl.
    destruct (IH (dict_set ni (KStr (a_name g)) x)) as (ni' & P & G & M & F).
    { intros e Hin. apply H. now right. }
    exists ni'. split; [exact P|]. split; [|split].
    + intros n x' Hn. apply G in Hn as [Hn|Hn]; [|now right].
      rewrite dict_get_set in Hn.
      destruct (key_eqb (KStr (a_name g)) n) eqn:En; [|now left].
      injection Hn as <-. right. now exists (a_name g).
    + intros n Hn. apply M. rewrite dict_mem_set, Hn. apply orb_true_r.
    + intros e [<-|Hin]; [|now apply F].
      apply M. simpl. rewrite dict_mem_set, key_eqb_refl. reflexivity.
Qed.

Lemma attrs_init_exact ni : forall fields,
  (forall g, In g fields -> is_mandatory g = true ->
             dict_mem ni (KStr (a_name g)) = true) ->
  attrs_init fields ni
  = Ok (map (fun g => (g, match dict_get ni (KStr (a_name g)) with
                          | Some v => v
                          | None => a_default g
                          end)) fields).
Proof.
  induction fields as [|f fields IH]; intro H; [reflexivity|].
  simpl. rewrite IH by (intros g Hg; apply H; now right).
  destruct (dict_get ni (KStr (a_name f))) as [v|] eqn:G; [reflexivity|].
  assert (N : is_mandatory f = false).
  { destruct (is_mandatory f) eqn:Mf; [|reflexivity].
    specialize (H f (or_introl eq_refl) Mf).
    unfold dict_mem in H. now rewrite G in H. }
  unfold is_mandatory in N. destruct (a_default f); try discriminate; reflexivity.
Qed.

Lemma raw_for_item c d k v f :
  dict_wf d -> In (k, v) d -> field_for c k = Some f ->
  raw_for c d f = Some v.
Proof.
  intros W Hin F. destruct (field_for_In _ _ _ F) as (_ & Ff & ->).
  unfold raw_for. rewrite Ff, F, String.eqb_refl.
  now apply dict_wf_In_get.
Qed.

Lemma raw_for_flatten c d g : a_flatten g = true -> raw_for c d g = Some (VDict d).
Proof. intro H. unfold raw_for. now rewrite H. Qed.

(** What the two passes leave in [new_items] under the name of each
    attribute. *)
Lemma passes_spec c d :
  NoDup (map a_name (c_fields c)) ->
  dict_wf d ->
  (forall g raw, In g (c_fields c) -> raw_for c d g = Some raw ->
                 exists y, decode_field g raw = Ok y) ->
  exists ni0 ni,
    flatten_pass (_fields fst (field_decoders c) (Some true)) (VDict d) []
    = Ok ni0
    /\ items_pass (dict_of_pairs
                     (map (fun p => (KStr (fst p), snd p))
                          (_fields fst (field_decoders c) (Some false))))
                  d ni0 []
       = Ok (ni, dict_update [] (filter (unmatched c) d))
    /\ forall g, In g (c_fields c) ->
         match raw_for c d g with
         | Some raw =>
             exists y, decode_field g raw = Ok y
                       /\ dict_get ni (KStr (a_name g)) = Some y
         | None => dict_get ni (KStr (a_name g)) = None
         end.
Proof.
  intros ND W OK.
  set (Q := fun s x => exists g raw, In g (c_fields c) /\ a_name g = s
                         /\ raw_for c d g = Some raw
                         /\ decode_field g raw = Ok x).
  destruct (flatten_pass_values Q (VDict d)
              (_fields fst (field_decoders c) (Some true)) [])
    as (ni0 & P0 & G0 & _ & F0).
  { intros e He. apply fields_flatten_In in He as (Hg & Hfl & ->).
    destruct (OK _ _ Hg (raw_for_flatten c d _ Hfl)) as [y Dy].
    exists y. split; [exact Dy|].
    exists (fst (snd e)), (VDict d). auto using raw_for_flatten. }
  destruct (items_pass_succeeds c Q d ni0 []) as (ni & u & P & G & M & F).
  { intros k v f Hin Ff. pose proof (raw_for_item c d k v f W Hin Ff) as R.
    destruct (field_for_In _ _ _ Ff) as (Hf & _ & _).
    destruct (OK _ _ Hf R) as [y Dy]. exists y. split; [exact Dy|].
    now exists f, v. }
  exists ni0, ni. split; [exact P0|]. split.
  { rewrite P. f_equal. f_equal. now apply (items_pass_bucket c d ni0 [] ni u). }
  intros g Hg.
  assert (V : forall x, dict_get ni (KStr (a_name g)) = Some x ->
              exists raw, raw_for c d g = Some raw /\ decode_field g raw = Ok x).
  { intros x Gx.
    assert (Qx : Q (a_name g) x).
    { apply G in Gx as [Gx|(s & Es & Qs)].
      - apply G0 in Gx as [Gx|(s & Es & Qs)]; [discriminate|].
        apply key_eqb_KStr in Es. injection Es as <-. exact Qs.
      - apply key_eqb_KStr in Es. injection Es as <-. exact Qs. }
    destruct Qx as (g' & raw & Hg' & En & R & D).
    assert (g' = g) as -> by (apply (NoDup_name_inj (c_fields c)); auto).
    now exists raw. }
  destruct (raw_for c d g) as [raw|] eqn:R.
  - assert (Mg : dict_mem ni (KStr (a_name g)) = true).
    { unfold raw_for in R. destruct (a_flatten g) eqn:Fg.
      - apply M. apply (F0 (json_key g, (g, decode_field g))).
        now apply fields_flatten_In'.
      - destruct (field_for c (KStr (json_key g))) as [g'|] eqn:Fk;
          [|discriminate].
        destruct (String.eqb (a_name g') (a_name g)) eqn:En; [|discriminate].
        apply String.eqb_eq in En.
        assert (g' = g) as ->.
        { apply (NoDup_name_inj (c_fields c)); auto.
          now apply (field_for_In c (KStr (json_key g))). }
        apply dict_get_In in R as (k' & Hin & Ek).
        apply (F k' raw); [exact Hin|].
        unfold field_for in *. now rewrite (dict_get_compat _ _ _ Ek). }
    unfold dict_mem in Mg.
    destruct (dict_get ni (KStr (a_name g))) as [x|] eqn:Gx; [|discriminate].
    destruct (V x eq_refl) as (raw' & E & D). injection E as <-.
    now exists x.
  - destruct (dict_get ni (KStr (a_name g))) as [x|] eqn:Gx; [|reflexivity].
    destruct (V x eq_refl) as (raw' & E & _). discriminate.
Qed.

Lemma dict_to_attrs_spec c d default default_if_empty :
  NoDup (map a_name (c_fields c)) ->
  dict_wf d ->
  (forall g raw, In g (c_fields c) -> raw_for c d g = Some raw ->
                 exists y, decode_field g raw = Ok y) ->
  (forall g, In g (c_fields c) -> is_mandatory g = true ->
             raw_for c d g <> None) ->
  (default_if_empty = true ->
   exists g, In g (c_fields c) /\ raw_for c d g <> None) ->
  exists slots,
    _dict_to_attrs c (VDict d) default default_if_empty
    = Ok (VInst (c_name c) slots (attached (filter (unmatched c) d)))
    /\ map fst slots = c_fields c
    /\ forall g x, In (g, x) slots ->
         match raw_for c d g with
         | Some raw => decode_field g raw = Ok x
         | None => x = a_default g
         end.
Proof.
  intros ND W OK Mand NE.
  destruct (passes_spec c d ND W OK) as (ni0 & ni & P0 & P & S).
  assert (In_ni : forall g, In g (c_fields c) -> raw_for c d g <> None ->
                    dict_mem ni (KStr (a_name g)) = true).
  { intros g Hg R. specialize (S g Hg). unfold dict_mem.
    destruct (raw_for c d g); [|congruence].
    destruct S as (y & _ & ->). reflexivity. }
  exists (map (fun g => (g, match dict_get ni (KStr (a_name g)) with
                            | Some v => v
                            | None => a_default g
                            end)) (c_fields c)).
  split; [|split].
  - unfold _dict_to_attrs, _dict_to_attrs_with.
    replace (if truthy (VDict d) then VDict d else VDict []) with (VDict d)
      by (destruct d; reflexivity).
    rewrite P0. cbn [bind py_items]. rewrite P. cbn [bind fst snd].
    assert (L : Nat.eqb (List.length ni) 0 && default_if_empty = false).
    { destruct default_if_empty; [|apply andb_false_r].
      destruct (NE eq_refl) as (g & Hg & R).
      pose proof (In_ni g Hg R) as Mg.
      destruct ni; [discriminate|reflexivity]. }
    rewrite L, map_fst_field_decoders.
    rewrite attrs_init_exact by (intros g Hg Mg; apply In_ni; auto).
    unfold attached.
    rewrite (dict_update_nil_wf (filter (unmatched c) d) [])
      by (now apply dict_wf_filter).
    reflexivity.
  - rewrite map_map. simpl. apply map_id.
  - intros g x Hin. apply in_map_iff in Hin as (g' & E & Hg).
    injection E as -> <-. specialize (S g Hg).
    destruct (raw_for c d g).
    + destruct S as (y & D & ->). exact D.
    + now rewrite S.
Qed.


Lemma NoDup_strings (l : list string) :
  (fix nodup (l : list string) : bool :=
     match l with
     | [] => true
     | a :: l' => negb (existsb (String.eqb a) l') && nodup l'
     end) l = true -> NoDup l.
Proof.
  induction l as [|a l IHl]; intro H; constructor.
  - apply andb_true_iff in H as [H _]. apply negb_true_iff in H.
    intro Hin. assert (existsb (String.eqb a) l = true); [|congruence].
    apply existsb_exists. exists a. split; [exact Hin|apply String.eqb_refl].
  - apply andb_true_iff in H as [_ H]. now apply IHl.
Qed.




(** ** Failures of the decoder *)

Lemma refused_raises t msg value default :
  refused t = Some msg -> value <> VNone ->
  _deserialize t value default = Raise (TypeError msg).
Proof.
  intros C N.
  destruct t as [| | |a| | | | | | |b|]; simpl in C; try discriminate;
    try (injection C as <-; destruct value; try reflexivity; congruence).
  - destruct a as [| | | | | | | | | |b|]; simpl in C; try discriminate;
      injection C as <-; try destruct b;
      destruct value; try reflexivity; congruence.
  - injection C as <-. destruct b; destruct value; try reflexivity; congruence.
Qed.



Section PassesRaise.
Variable c : attrs_class.

Lemma items_pass_raises : forall items ni u k v f e,
  In (k, v) items -> field_for c k = Some f -> decode_field f v = Raise e ->
  exists e',
    items_pass (dict_of_pairs
                  (map (fun p => (KStr (fst p), snd p))
                       (_fields fst (field_decoders c) (Some false))))
               items ni u = Raise e'.
Proof.
  induction items as [|[k0 v0] items IH]; intros ni u k v f e Hin F D;
    [contradiction|].
  simpl. rewrite fields_dict_get. destruct Hin as [E|Hin].
  - injection E as -> ->. rewrite F. simpl. rewrite D. simpl. now exists e.
  - destruct (field_for c k0) as [f0|]; simpl.
    + destruct (decode_field f0 v0) as [x|e0]; simpl; [|now exists e0].
      now apply (IH _ _ k v f e).
    + now apply (IH _ _ k v f e).
Qed.

Lemma flatten_pass_raises data : forall fs ni (en : string * (attribute * decoder)) e,
  In en fs -> snd (snd en) data = Raise e ->
  exists e', flatten_pass fs data ni = Raise e'.
Proof.
  induction fs as [|[j [g dec]] fs IH]; intros ni en e Hin D; [contradiction|].
  simpl. destruct Hin as [<-|Hin].
  - simpl in D. rewrite D. simpl. now exists e.
  - destruct (dec data) as [x|e0]; simpl; [|now exists e0].
    now apply (IH _ en e).
Qed.

(** The exceptions of the passes are those of the decoders. *)
Lemma items_pass_kind (K : exn -> Prop) : forall items ni u e,
  (forall f v e0, decode_field f v = Raise e0 -> K e0) ->
  items_pass (dict_of_pairs
                (map (fun p => (KStr (fst p), snd p))
                     (_fields fst (field_decoders c) (Some false))))
             items ni u = Raise e ->
  K e.
Proof.
  induction items as [|[k v] items IH]; intros ni u e H R; [discriminate|].
  simpl in R. rewrite fields_dict_get in R.
  destruct (field_for c k) as [f|]; simpl in R.
  - destruct (decode_field f v) as [x|e0] eqn:D; simpl in R.
    + now apply (IH _ _ e H R).
    + injection R as <-. now apply (H f v).
  - now apply (IH _ _ e H R).
Qed.

Lemma flatten_pass_kind (K : exn -> Prop) data : forall fs ni e,
  (forall en, In en fs -> snd (snd en) = decode_field (fst (snd en))) ->
  (forall f v e0, decode_field f v = Raise e0 -> K e0) ->
  flatten_pass fs data ni = Raise e ->
  K e.
Proof.
  induction fs as [|[j [g dec]] fs IH]; intros ni e S H R; [discriminate|].
  simpl in R. pose proof (S (j, (g, dec)) (or_introl eq_refl)) as Eg.
  simpl in Eg. subst dec.
  destruct (decode_field g data) as [x|e0] eqn:D; simpl in R.
  - apply (IH (dict_set ni (KStr (a_name g)) x) e); auto.
    intros en Hin. apply S. now right.
  - injection R as <-. now apply (H g data).
Qed.
End PassesRaise.

(** X4.  A failure is never applied in part.  When the decoder of a
    flattened attribute raises on the document, or the decoder of the
    attribute found for some key raises on its value, [_dict_to_attrs]
    raises: no record is returned. *)
Theorem decode_failure_propagates (c : attrs_class) (d : dict pyobj)
    (default : pyobj) (default_if_empty : bool) :
  (exists g e, In g (c_fields c) /\ a_flatten g = true
               /\ decode_field g (VDict d) = Raise e)
  \/ (exists k v f e, In (k, v) d /\ field_for c k = Some f
                      /\ decode_field f v = Raise e) ->
  exists e', _dict_to_attrs c (VDict d) default default_if_empty = Raise e'.
Proof.
  intro H. unfold _dict_to_attrs, _dict_to_attrs_with.
  replace (if truthy (VDict d) then VDict d else VDict []) with (VDict d)
    by (destruct d; reflexivity).
  destruct H as [(g & e & Hg & Fg & D)|(k & v & f & e & Hin & F & D)].
  - destruct (flatten_pass_raises (VDict d)
                (_fields fst (field_decoders c) (Some true)) []
                (json_key g, (g, decode_field g)) e) as [e' R].
    + now apply fields_flatten_In'.
    + exact D.
    + rewrite R. now exists e'.
  - destruct (flatten_pass _ _ _) as [ni0|e0]; simpl; [|now exists e0].
    destruct (items_pass_raises c d ni0 [] k v f e Hin F D) as [e' R].
    rewrite R. now exists e'.
Qed.

Lemma decode_failure_propagates_witness :
  exists e',
    _dict_to_attrs Room
      (VDict [(KStr "name", VStr "a"); (KStr "aliases", VList [VStr "#a"])])
      VNone false
    = Raise e'.
Proof.
  apply (decode_failure_propagates Room
           [(KStr "name", VStr "a"); (KStr "aliases", VList [VStr "#a"])]
           VNone false).
  right.
  exists (KStr "aliases"), (VList [VStr "#a"]),
         (mk_attribute "aliases" (TList (Some (TClass "str"))) VNone),
         (SerializerError "Unknown serialization error"
            (Some (TypeError "issubclass() arg 1 must be a class"))).
  repeat split. right. left. reflexivity.
Defined.

Lemma decode_field_kind f v e :
  decode_field f v = Raise e -> leaves_decoder e = true.
Proof.
  unfold decode_field, _try_deserialize, _try_deserialize_outcome.
  destruct (_deserialize _ _ _) as [x|[]]; [discriminate|..];
    destruct (a_ignore_errors f); simpl; intro H; try discriminate;
    injection H as <-; reflexivity.
Qed.

Lemma attrs_init_kind : forall fields ni e,
  attrs_init fields ni = Raise e -> exists m, e = TypeError m.
Proof.
  induction fields as [|f fields IH]; intros ni e H; [discriminate|].
  simpl in H. destruct (dict_get ni (KStr (a_name f))).
  - destruct (attrs_init fields ni) eqn:E; simpl in H; [discriminate|].
    injection H as <-. now apply (IH ni).
  - destruct (a_default f); try (injection H as <-; now eexists);
      destruct (attrs_init fields ni) eqn:E; simpl in H; try discriminate;
      injection H as <-; now apply (IH ni).
Qed.

(** X5.  The exceptions that leave the record decoder.  For every class
    of the model and all data, an exception raised by [_dict_to_attrs]
    (and so by [SerializableAttrs.deserialize]) is a [SerializerError], an
    [AttributeError] or a [NotImplementedError]: the [TypeError] of the
    constructor and the [TypeError], [ValueError] and [KeyError] of the
    attribute decoders are wrapped, the [AttributeError] of
    [data.items()] and the [NotImplementedError] that
    [Serializable.deserialize] raises for an attribute of a class that
    inherits it are not. *)
Theorem decoder_exceptions (c : attrs_class) (data default : pyobj)
    (default_if_empty : bool) (e : exn) :
  _dict_to_attrs c data default default_if_empty = Raise e ->
  leaves_decoder e = true.
Proof.
  unfold _dict_to_attrs, _dict_to_attrs_with.
  set (data' := if truthy data then data else VDict []).
  destruct (flatten_pass _ _ _) as [ni0|e0] eqn:P0; simpl.
  - destruct (py_items data') as [items|e1] eqn:I; simpl.
    + destruct (items_pass _ _ _ _) as [[ni u]|e2] eqn:P; simpl.
      * destruct (Nat.eqb (List.length ni) 0 && default_if_empty);
          [discriminate|].
        destruct (attrs_init _ _) as [slots|e3] eqn:A; [discriminate|].
        destruct (attrs_init_kind _ _ _ A) as [m ->].
        destruct (first_missing _ _); intro H; injection H as <-; reflexivity.
      * intro H. injection H as <-.
        apply (items_pass_kind c (fun e => leaves_decoder e = true)
                               items ni0 [] e2); [|exact P].
        intros f v e0. apply decode_field_kind.
    + intro H. injection H as <-. unfold py_items in I.
      destruct data'; try discriminate; injection I as <-; reflexivity.
  - intro H. injection H as <-.
    apply (flatten_pass_kind (fun e => leaves_decoder e = true) data'
             (_fields fst (field_decoders c) (Some true)) [] e0); [| |exact P0].
    + intros en Hin. now apply fields_flatten_In in Hin.
    + intros f v e1. apply decode_field_kind.
Qed.

Lemma decoder_exceptions_witness :
  leaves_decoder
    (SerializerError "Missing value for required key event_id in Event"
       (Some (TypeError "__init__() missing required positional argument")))
  = true.
Proof.
  apply (decoder_exceptions Event (VDict []) VNone false). reflexivity.
Defined.

(** ** Shape of a decoded record *)

Lemma dict_set_In_key {V} (d : dict V) k0 v0 k v :
  In (k, v) (dict_set d k0 v0) -> (exists v', In (k, v') d) \/ k = k0.
Proof.
  induction d as [|[k1 v1] d IH]; simpl.
  - intros [E|[]]. inversion E. now right.
  - destruct (key_eqb k1 k0); simpl.
    + intros [E|H].
      * inversion E; subst. left. exists v1. now left.
      * left. exists v. now right.
    + intros [E|H].
      * inversion E; subst. left. exists v. now left.
      * destruct (IH H) as [[v' Hin]|E]; [|now right].
        left. exists v'. now right.
Qed.

Lemma dict_update_In_key {V} (other : dict V) : forall (d : dict V) k v,
  In (k, v) (dict_update d other) ->
  (exists v', In (k, v') d) \/ (exists v', In (k, v') other).
Proof.
  induction other as [|[k0 v0] other IH]; intros d k v H.
  - left. now exists v.
  - rewrite dict_update_cons in H. apply IH in H as [[v' H]|[v' H]].
    + apply dict_set_In_key in H as [[v'' H]| ->].
      * left. now exists v''.
      * right. exists v0. now left.
    + right. exists v'. now right.
Qed.

(** X6.  Shape of a decoded record.  Whatever the data, a record returned
    by [SerializableAttrs.deserialize] is an instance of the class asked
    for with exactly one slot per declared attribute, in declaration
    order.  Its [unrecognized_] is either left unset or a non-empty
    dictionary with distinct keys, none of which is the wire key of an
    attribute the decoder looks up. *)
Theorem decoded_record_shape (c : attrs_class) (data r : pyobj) :
  SerializableAttrs_deserialize c data = Ok r ->
  exists slots bucket,
    r = VInst (c_name c) slots bucket
    /\ map fst slots = c_fields c
    /\ match bucket with
       | None => True
       | Some b =>
           b <> [] /\ dict_wf b
           /\ forall k v, In (k, v) b -> field_for c k = None
       end.
Proof.
  unfold SerializableAttrs_deserialize, _dict_to_attrs, _dict_to_attrs_with.
  set (data' := if truthy data then data else VDict []).
  destruct (flatten_pass _ _ _) as [ni0|] eqn:P0; simpl; [|discriminate].
  destruct (py_items data') as [items|] eqn:I; simpl; [|discriminate].
  destruct (items_pass _ _ _ _) as [[ni u]|] eqn:P; simpl; [|discriminate].
  rewrite andb_false_r, map_fst_field_decoders.
  destruct (attrs_init _ _) as [slots|[]] eqn:A; try discriminate;
    [|destruct (first_missing _ _); discriminate].
  intro H. injection H as <-.
  exists slots, (if Nat.ltb 0 (List.length u) then Some u else None).
  split; [reflexivity|]. split; [now apply (attrs_init_fst _ ni)|].
  apply items_pass_bucket in P.
  assert (W : dict_wf u) by (rewrite P; apply dict_wf_update; reflexivity).
  assert (K : forall k v, In (k, v) u -> field_for c k = None).
  { intros k v Hin. rewrite P in Hin.
    apply dict_update_In_key in Hin as [[v' []]|[v' Hin]].
    apply filter_In in Hin as [_ U]. unfold unmatched in U. simpl in U.
    now destruct (field_for c k). }
  destruct u as [|e u]; [simpl; trivial|].
  split; [discriminate|]. split; assumption.
Qed.

Lemma decoded_record_shape_witness :
  exists slots bucket,
    VInst "Paint" [(Paint_color, VNone)] None = VInst (c_name Paint) slots bucket
    /\ map fst slots = c_fields Paint.
Proof.
  destruct (decoded_record_shape Paint
              (VDict [(KStr "color", VStr "bogus")])
              (VInst "Paint" [(Paint_color, VNone)] None) eq_refl)
    as (slots & bucket & E & F & _).
  now exists slots, bucket.
Defined.

(** ** Empty and ill-shaped values for a nested record *)

Lemma items_pass_unmatched c : forall items ni u,
  forallb (unmatched c) items = true ->
  items_pass (dict_of_pairs
                (map (fun p => (KStr (fst p), snd p))
                     (_fields fst (field_decoders c) (Some false))))
             items ni u
  = Ok (ni, dict_update u items).
Proof.
  induction items as [|[k v] items IH]; intros ni u H; [reflexivity|].
  simpl in H. apply andb_true_iff in H as [Hk H].
  simpl. rewrite fields_dict_get. unfold unmatched in Hk. simpl in Hk.
  destruct (field_for c k); [discriminate|]. simpl.
  rewrite IH by exact H. reflexivity.
Qed.

(** X7.  The guard [default_if_empty].  Against a class without
    flattened attributes, a value other than [None] that is falsy ([{}],
    [[]], [""], [0], [False]) or is a map in which no key is the wire key
    of an attribute decodes to the default handed in, not to a record:
    the keys of such a map are not kept anywhere. *)
Theorem empty_nested_record_is_default (c : attrs_class)
    (value default : pyobj) :
  no_flatten (c_fields c) = true ->
  value <> VNone ->
  truthy value = false
  \/ (exists d, value = VDict d /\ forallb (unmatched c) d = true) ->
  _deserialize (TAttrs c) value default = Ok default.
Proof.
  intros NF N H. rewrite _deserialize_attrs by exact N.
  unfold _dict_to_attrs, _dict_to_attrs_with.
  rewrite (fields_flatten_none c NF). cbn [flatten_pass bind].
  destruct H as [T|(d & -> & U)].
  - rewrite T. simpl. now rewrite safe_default_id.
  - replace (if truthy (VDict d) then VDict d else VDict []) with (VDict d)
      by (destruct d; reflexivity).
    cbn [py_items bind]. rewrite (items_pass_unmatched c d [] [] U).
    simpl. now rewrite safe_default_id.
Qed.

Lemma empty_nested_record_is_default_witness :
  _deserialize (TAttrs Body) (VDict [(KStr "extra", VBool true)]) (VStr "dflt")
  = Ok (VStr "dflt").
Proof.
  apply (empty_nested_record_is_default Body
           (VDict [(KStr "extra", VBool true)]) (VStr "dflt"));
    [reflexivity|discriminate|].
  right. exists [(KStr "extra", VBool true)]. split; reflexivity.
Defined.



(** ** The attribute named when the constructor fails *)

Lemma field_for_unique c g :
  NoDup (map json_key (c_fields c)) ->
  In g (c_fields c) -> a_flatten g = false ->
  field_for c (KStr (json_key g)) = Some g.
Proof.
  intros NJ Hin Ff.
  destruct (field_for c (KStr (json_key g))) as [g'|] eqn:E.
  - apply field_for_In in E as (Hg & _ & E). injection E as E.
    f_equal. symmetry. now apply (NoDup_inj json_key (c_fields c)).
  - exfalso. now apply (field_for_some c g).
Qed.

Lemma attrs_init_raises ni : forall fields g,
  In g fields -> is_mandatory g = true ->
  dict_mem ni (KStr (a_name g)) = false ->
  attrs_init fields ni
  = Raise (TypeError "__init__() missing required positional argument").
Proof.
  induction fields as [|f fields IH]; intros g Hin Mg A; [contradiction|].
  simpl. destruct Hin as [->|Hin].
  - unfold dict_mem in A.
    destruct (dict_get ni (KStr (a_name g))); [discriminate|].
    unfold is_mandatory in Mg. destruct (a_default g); try discriminate.
    reflexivity.
  - rewrite (IH g Hin Mg A).
    destruct (dict_get ni (KStr (a_name f))); [reflexivity|].
    destruct (a_default f); reflexivity.
Qed.

Lemma first_missing_find c ni :
  first_missing (_fields fst (field_decoders c) None) ni
  = find (fun g => negb (dict_mem ni (KStr (json_key g)))) (c_fields c).
Proof.
  unfold _fields, field_decoders.
  induction (c_fields c) as [|g fields IH]; [reflexivity|].
  simpl. destruct (negb (dict_mem ni (KStr (json_key g)))); [reflexivity|].
  exact IH.
Qed.

Lemma find_ext_in {A} (P Q : A -> bool) (l : list A) :
  (forall a, In a l -> P a = Q a) -> find P l = find Q l.
Proof.
  induction l as [|a l IH]; intro H; [reflexivity|].
  simpl. rewrite (H a (or_introl eq_refl)).
  destruct (Q a); [reflexivity|]. apply IH. intros b Hb. apply H. now right.
Qed.

Lemma first_absent_is_mandatory (absent : attribute -> bool) fields f :
  mandatory_first fields = true ->
  find (fun g => is_mandatory g && absent g) fields = Some f ->
  find absent fields = Some f.
Proof.
  induction fields as [|g fields IH]; intros MF H; [discriminate|].
  simpl in *. apply andb_true_iff in MF as [M MF].
  destruct (is_mandatory g && absent g) eqn:E.
  - apply andb_true_iff in E as [_ ->]. exact H.
  - destruct (absent g) eqn:Ag; [|now apply IH].
    rewrite andb_true_r in E. rewrite E in M. simpl in M.
    apply find_some in H as [Hin Hf]. apply andb_true_iff in Hf as [Mf _].
    rewrite forallb_forall in M. specialize (M f Hin).
    rewrite Mf in M. discriminate.
Qed.

(** X9.  The attribute named when a mandatory one is missing.  For a
    class without flattened attributes and without JSON overrides, with
    distinct attribute names and mandatory attributes first, and a
    document whose known keys all decode: when some mandatory attribute
    has no key in the document, [SerializableAttrs.deserialize] raises
    [SerializerError] with the message
    [Missing value for required key <name> in <class>] for the first such
    attribute in declaration order. *)
Theorem missing_attribute_named (c : attrs_class) (d : dict pyobj)
    (f : attribute) :
  no_flatten (c_fields c) = true ->
  mandatory_first (c_fields c) = true ->
  (forall g, In g (c_fields c) -> a_json g = None) ->
  NoDup (map a_name (c_fields c)) ->
  dict_wf d ->
  (forall k v g, In (k, v) d -> field_for c k = Some g ->
                 exists y, decode_field g v = Ok y) ->
  find (fun g => is_mandatory g && negb (dict_mem d (KStr (a_name g))))
       (c_fields c) = Some f ->
  SerializableAttrs_deserialize c (VDict d)
  = Raise (SerializerError
             ("Missing value for required key " ++ a_name f
              ++ " in " ++ c_name c)
             (Some (TypeError
                      "__init__() missing required positional argument"))).
Proof.
  intros NF MF NJ ND W OK H.
  assert (J : forall g, In g (c_fields c) -> json_key g = a_name g).
  { intros g Hg. unfold json_key. now rewrite (NJ g Hg). }
  assert (NDJ : NoDup (map json_key (c_fields c))).
  { rewrite (map_ext_in json_key a_name); auto. }
  assert (R : forall g, In g (c_fields c) ->
                raw_for c d g = dict_get d (KStr (a_name g))).
  { intros g Hg. unfold raw_for.
    rewrite (no_flatten_In _ _ NF Hg).
    rewrite (field_for_unique c g NDJ Hg (no_flatten_In _ _ NF Hg)).
    now rewrite String.eqb_refl, (J g Hg). }
  destruct (passes_spec c d ND W) as (ni0 & ni & P0 & P & S).
  { intros g raw Hg Rg. rewrite (R g Hg) in Rg.
    apply dict_get_In in Rg as (k' & Hin & Ek).
    apply (OK k' raw g Hin).
    rewrite <- (field_for_unique c g NDJ Hg (no_flatten_In _ _ NF Hg)).
    unfold field_for. apply dict_get_compat.
    now rewrite (J g Hg). }
  assert (M : forall g, In g (c_fields c) ->
                dict_mem ni (KStr (a_name g)) = dict_mem d (KStr (a_name g))).
  { intros g Hg. specialize (S g Hg). rewrite (R g Hg) in S.
    unfold dict_mem. destruct (dict_get d (KStr (a_name g))).
    - destruct S as (y & _ & ->). reflexivity.
    - now rewrite S. }
  unfold SerializableAttrs_deserialize, _dict_to_attrs, _dict_to_attrs_with.
  replace (if truthy (VDict d) then VDict d else VDict []) with (VDict d)
    by (destruct d; reflexivity).
  rewrite P0. cbn [bind py_items]. rewrite P. cbn [bind fst snd].
  rewrite andb_false_r, map_fst_field_decoders.
  pose proof (find_some _ _ H) as [Hf Af].
  apply andb_true_iff in Af as [Mf Af]. apply negb_true_iff in Af.
  rewrite (attrs_init_raises ni (c_fields c) f Hf Mf)
    by (now rewrite (M f Hf)).
  rewrite first_missing_find.
  rewrite (find_ext_in _ (fun g => negb (dict_mem d (KStr (a_name g)))))
    by (intros g Hg; now rewrite (J g Hg), (M g Hg)).
  now rewrite (first_absent_is_mandatory _ _ f MF H).
Qed.

Lemma missing_attribute_named_witness :
  SerializableAttrs_deserialize Message
    (VDict [(KStr "sender", VStr "@a:b"); (KStr "extra", VInt 1)])
  = Raise (SerializerError "Missing value for required key body in Message"
             (Some (TypeError
                      "__init__() missing required positional argument"))).
Proof.
  apply (missing_attribute_named Message
           [(KStr "sender", VStr "@a:b"); (KStr "extra", VInt 1)]
           (mk_attribute "body" (TClass "str") VNothing)).
  - reflexivity.
  - reflexivity.
  - intros g [<-|[<-|[<-|[]]]]; reflexivity.
  - apply NoDup_strings. reflexivity.
  - reflexivity.
  - intros k v g [E|[E|[]]] F; injection E as <- <-; vm_compute in F;
      try discriminate; injection F as <-; eexists; vm_compute; reflexivity.
  - reflexivity.
Defined.

(** ** Known keys on re-encode *)

Lemma dict_mem_filter_matched c (d : dict pyobj) k f :
  field_for c k = Some f -> dict_mem (filter (unmatched c) d) k = false.
Proof.
  intro F. unfold dict_mem. induction d as [|[k0 v0] d IH]; [reflexivity|].
  simpl. destruct (unmatched c (k0, v0)) eqn:U; [|exact IH].
  simpl. destruct (key_eqb k0 k) eqn:E; [|exact IH].
  rewrite (unmatched_compat c k0 k v0 v0 E) in U.
  unfold unmatched in U. simpl in U. rewrite F in U. discriminate.
Qed.

Lemma encode_field_get_other g y nd j :
  a_flatten g = false -> json_key g <> j ->
  dict_get (encode_field _serialize nd (json_key g, (g, y))) (KStr j)
  = dict_get nd (KStr j).
Proof.
  intros Fg N.
  assert (S : forall s, dict_get (dict_set nd (KStr (json_key g)) s) (KStr j)
                       = dict_get nd (KStr j)).
  { intro s. apply dict_get_set_other. simpl. now apply String.eqb_neq. }
  unfold encode_field, store_field. cbn [fst snd]. rewrite Fg.
  destruct (String.eqb (json_key g) ""); [reflexivity|].
  destruct y; try (destruct (a_omitdefault g && _); [reflexivity|]);
    try (destruct (_serialize _); apply S).
  destruct (negb (a_omitempty g)); [|reflexivity].
  destruct (a_omitdefault g && _); [reflexivity|].
  destruct (_serialize _); apply S.
Qed.

Lemma encode_loop_get : forall slots nd f x,
  no_flatten (map fst slots) = true ->
  NoDup (map json_key (map fst slots)) ->
  In (f, x) slots -> x <> VNone ->
  a_omitdefault f = false -> json_key f <> "" ->
  dict_get (fold_left (fun new_dict field =>
                         encode_field _serialize new_dict
                                      (json_key (fst field), field))
                      slots nd) (KStr (json_key f))
  = Some (_serialize x).
Proof.
  induction slots as [|[g y] slots IH]; intros nd f x NF ND Hin N O J;
    [contradiction|].
  simpl in NF, ND. apply andb_true_iff in NF as [Fg NF].
  apply negb_true_iff in Fg. inversion ND as [|? ? Hnot ND']; subst.
  cbn [fold_left fst]. destruct Hin as [E|Hin].
  - injection E as -> ->.
    rewrite encode_field_present by assumption.
    clear IH ND.
    generalize (dict_get_set_same nd (KStr (json_key f)) (_serialize x)).
    generalize (dict_set nd (KStr (json_key f)) (_serialize x)).
    induction slots as [|[g y] slots IHs]; intros acc A; [exact A|].
    simpl in NF, Hnot. apply andb_true_iff in NF as [Fg' NF].
    apply negb_true_iff in Fg'. inversion ND' as [|? ? Hnot' ND'']; subst.
    cbn [fold_left fst]. apply IHs; auto.
    rewrite encode_field_get_other; auto.
  - now apply IH.
Qed.

(** X10.  Known keys on re-encode.  For a class whose attributes are not
    flattened and have distinct names and distinct, non-empty wire keys:
    when a document decodes, a key of it that is the wire key of an
    attribute without [omitdefault], and whose value decodes to an object
    other than [None] that encodes back to that value, is bound to the
    same value in the encoding of the decoded record. *)
Theorem known_key_reproduced (c : attrs_class) (d : dict pyobj)
    (r : pyobj) (k : key) (v x : pyobj) (f : attribute) :
  plain_fields (c_fields c) ->
  dict_wf d ->
  SerializableAttrs_deserialize c (VDict d) = Ok r ->
  In (k, v) d ->
  field_for c k = Some f ->
  decode_field f v = Ok x ->
  x <> VNone ->
  _serialize x = v ->
  a_omitdefault f = false ->
  exists slots bucket,
    r = VInst (c_name c) slots bucket
    /\ dict_get (_attrs_to_dict slots bucket) k = Some v.
Proof.
  intros (NF & ND & NJ & J) W H Hin F D N E O.
  unfold SerializableAttrs_deserialize in H.
  apply dict_to_attrs_ok_inv in H as (ni0 & ni & u & slots & P0 & P & I & ->).
  pose proof (items_pass_bucket c d ni0 [] ni u P) as U.
  rewrite (dict_update_nil_wf (filter (unmatched c) d) []) in U
    by (now apply dict_wf_filter). simpl in U.
  destruct (field_for_In _ _ _ F) as (Hf & Ff & ->).
  assert (G : dict_get ni (KStr (a_name f)) = Some x).
  { destruct (items_pass_succeeds c
                (fun s y => s = a_name f -> y = x) d ni0 [])
      as (ni' & u' & P' & G & M & Fm).
    - intros k' v' g Hin' Fg.
      assert (exists y, decode_field g v' = Ok y) as [y Dy].
      { clear -P Hin' Fg. revert ni0 P. generalize (@nil (key * pyobj)).
        induction d as [|[k0 v0] d IH]; intros u0 ni0 P; [contradiction|].
        simpl in P. rewrite fields_dict_get in P. destruct Hin' as [E|Hin'].
        - injection E as -> ->. rewrite Fg in P. simpl in P.
          destruct (decode_field g v'); [now eexists|discriminate].
        - destruct (field_for c k0) as [f0|]; simpl in P.
          + destruct (decode_field f0 v0); simpl in P; [|discriminate].
            now apply (IH Hin' _ _ P).
          + now apply (IH Hin' _ _ P). }
      exists y. split; [exact Dy|]. intro En.
      assert (g = f) as -> by
          (apply (NoDup_name_inj (c_fields c)); auto;
           now apply (field_for_In c k')).
      apply field_for_In in Fg as (_ & _ & ->).
      rewrite (dict_wf_In_unique d _ v' v W Hin' Hin) in Dy. congruence.
    - rewrite P in P'. injection P' as <- <-.
      pose proof (Fm _ v f Hin F) as Mf. unfold dict_mem in Mf.
      destruct (dict_get ni (KStr (a_name f))) as [y|] eqn:Gy; [|discriminate].
      f_equal. apply G in Gy as [Gy|(s & Es & Qs)].
      + exfalso. rewrite (fields_flatten_none c NF) in P0.
        simpl in P0. injection P0 as <-. discriminate.
      + apply key_eqb_KStr in Es. injection Es as Es. now apply Qs. }
  assert (S : In (f, x) slots).
  { destruct (attrs_init_succeeds ni (c_fields c)) as (slots' & I' & S').
    - intros g Hg Mg. clear -I Hg Mg. revert slots I.
      induction (c_fields c) as [|h fields IH]; intros slots I; [contradiction|].
      simpl in I. destruct Hg as [->|Hg].
      + unfold dict_mem. destruct (dict_get ni (KStr (a_name g)));
          [reflexivity|].
        unfold is_mandatory in Mg. destruct (a_default g); discriminate.
      + destruct (attrs_init fields ni) as [rest|] eqn:A.
        * now apply (IH Hg rest).
        * destruct (dict_get ni (KStr (a_name h))); [discriminate|].
          destruct (a_default h); discriminate.
    - rewrite I in I'. injection I' as <-. now apply S'. }
  exists slots, (attached u). split; [reflexivity|].
  pose proof (attrs_init_fst _ _ _ I) as Fs.
  assert (L : dict_get (_attrs_to_dict slots None) (KStr (json_key f))
              = Some v).
  { unfold _attrs_to_dict, _attrs_to_dict_with.
    rewrite (encode_loop_get slots [] f x); auto; try congruence;
      rewrite Fs; auto. }
  unfold _attrs_to_dict, _attrs_to_dict_with in *.
  rewrite attached_eq. destruct u as [|e u]; [exact L|].
  rewrite dict_get_update_absent; [exact L|].
  rewrite U. now apply (dict_mem_filter_matched c d _ f).
Qed.

Lemma known_key_reproduced_witness :
  exists slots bucket,
    VInst "Body" [(mk_attribute "y" (TClass "int") VNothing, VInt 1);
                  (mk_attribute "x" (TClass "int") (VInt 5), VInt 5)]
          (Some [(KStr "extra", VBool true)])
    = VInst (c_name Body) slots bucket
    /\ dict_get (_attrs_to_dict slots bucket) (KStr "y") = Some (VInt 1).
Proof.
  apply (known_key_reproduced Body
           [(KStr "y", VInt 1); (KStr "extra", VBool true)]
           _ (KStr "y") (VInt 1) (VInt 1)
           (mk_attribute "y" (TClass "int") VNothing)).
  - repeat split; try (apply NoDup_strings; reflexivity).
    intros f [<-|[<-|[]]]; discriminate.
  - reflexivity.
  - reflexivity.
  - left. reflexivity.
  - reflexivity.
  - reflexivity.
  - discriminate.
  - reflexivity.
  - reflexivity.
Defined.

(** ** Attributes without wire key *)

(** X11.  An attribute whose JSON key is the empty string is never
    encoded: whatever it holds and whatever its flags, the record encodes
    as if the attribute were not declared. *)
Theorem empty_wire_key_skipped (field : attribute) (x : pyobj)
    (s1 s2 : list (attribute * pyobj)) (u : option (dict pyobj)) :
  json_key field = "" ->
  _attrs_to_dict (s1 ++ (field, x) :: s2)%list u
  = _attrs_to_dict (s1 ++ s2)%list u.
Proof.
  intro J. unfold _attrs_to_dict, _attrs_to_dict_with.
  rewrite (loop_skip (fun new_dict field =>
             encode_field _serialize new_dict (json_key (fst field), field)));
    [reflexivity|].
  intro nd. unfold encode_field. simpl. now rewrite J.
Qed.

Lemma empty_wire_key_skipped_witness :
  let hidden := Attribute "cache" (TClass "int") VNone (Some "")
                          false false false false in
  let name := mk_attribute "name" (TClass "str") VNothing in
  _attrs_to_dict [(name, VStr "a"); (hidden, VInt 7)] None
  = _attrs_to_dict [(name, VStr "a")] None.
Proof.
  intros hidden name.
  apply (empty_wire_key_skipped hidden (VInt 7) [(name, VStr "a")] [] None).
  reflexivity.
Defined.

(** ** The encoder yields JSON *)

Lemma is_document_dict d :
  is_document (VDict d) = dict_wfb d && doc_entries d.
Proof. reflexivity. Qed.

Lemma doc_entries_set d s v :
  doc_entries d = true -> is_document v = true ->
  doc_entries (dict_set d (KStr s) v) = true.
Proof.
  unfold doc_entries. intros D Dv.
  induction d as [|[k0 v0] d IH]; simpl in *.
  - now rewrite Dv.
  - apply andb_true_iff in D as [D0 D].
    destruct (key_eqb k0 (KStr s)) eqn:E; simpl.
    + destruct k0; try discriminate. now rewrite Dv, D.
    + now rewrite D0, IH.
Qed.

Lemma doc_entries_update other : forall d,
  doc_entries d = true -> doc_entries other = true ->
  doc_entries (dict_update d other) = true.
Proof.
  induction other as [|[k v] other IH]; intros d D O; [exact D|].
  rewrite dict_update_cons. unfold doc_entries in O. simpl in O.
  apply andb_true_iff in O as [Ok O]. apply IH; [|exact O].
  destruct k; try discriminate. now apply doc_entries_set.
Qed.

Lemma store_field_document (ser : pyobj -> pyobj) j f nd x :
  dict_wf nd -> doc_entries nd = true -> is_document (ser x) = true ->
  dict_wf (store_field ser j f nd x)
  /\ doc_entries (store_field ser j f nd x) = true.
Proof.
  intros W D Dx. unfold store_field.
  destruct (a_omitdefault f && py_eq x (a_default f)); [now split|].
  assert (S : dict_wf (dict_set nd (KStr j) (ser x))
              /\ doc_entries (dict_set nd (KStr j) (ser x)) = true).
  { split; [now apply dict_wf_set|now apply doc_entries_set]. }
  destruct (ser x) as [| | | | | | | | |d| | |] eqn:E; try exact S.
  destruct (a_flatten f); [|exact S].
  rewrite is_document_dict in Dx. apply andb_true_iff in Dx as [_ Dd].
  split; [now apply dict_wf_update|now apply doc_entries_update].
Qed.

Lemma serialize_set_document (s : list key) :
  forallb is_document
    (map (fun subval => key_to_value (serialize_key subval)) s) = true.
Proof.
  induction s as [|k s IH]; [reflexivity|].
  simpl. rewrite IH. now destruct k.
Qed.

Lemma encode_field_document f x acc :
  dict_wf acc -> doc_entries acc = true ->
  (encodable x = true -> is_document (_serialize x) = true) ->
  (encodable (a_default f) = true ->
   is_document (_serialize (a_default f)) = true) ->
  (if present x then encodable x
   else a_omitempty f || encodable (a_default f)) = true ->
  dict_wf (encode_field _serialize acc (json_key f, (f, x)))
  /\ doc_entries (encode_field _serialize acc (json_key f, (f, x))) = true.
Proof.
  intros W D Hx Hd E. unfold encode_field. cbn [fst snd].
  destruct (String.eqb (json_key f) ""); [now split|].
  destruct x; simpl in E;
    try (apply store_field_document; auto; fail).
  destruct (a_omitempty f); simpl in *; [now split|].
  apply store_field_document; auto.
Qed.

Lemma serialize_encodable : forall v,
  encodable v = true -> is_document (_serialize v) = true.
Proof.
  fix IH 1. intros v E. destruct v; try discriminate; try reflexivity.
  - cbn [_serialize is_document]. cbn [encodable] in E.
    induction items as [|x items IHl]; [reflexivity|].
    simpl in E. apply andb_true_iff in E as [Ex E].
    simpl. rewrite (IH x Ex). now apply IHl.
  - cbn [_serialize is_document]. cbn [encodable] in E.
    induction items as [|x items IHl]; [reflexivity|].
    simpl in E. apply andb_true_iff in E as [Ex E].
    simpl. rewrite (IH x Ex). now apply IHl.
  - cbn [_serialize is_document]. apply serialize_set_document.
  - cbn [_serialize]. cbn [encodable] in E. rewrite is_document_dict.
    assert (G : forall acc, dict_wf acc -> doc_entries acc = true ->
              let out := fold_left (fun acc kv =>
                           dict_set acc (serialize_key (fst kv))
                                    (_serialize (snd kv))) items acc in
              dict_wf out /\ doc_entries out = true).
    { induction items as [|[k x] items IHl]; intros acc W D; [now split|].
      simpl in E. apply andb_true_iff in E as [Ek E].
      apply andb_true_iff in Ek as [Sk Ex].
      cbn [fold_left fst snd]. apply (IHl E).
      - now apply dict_wf_set.
      - destruct k; try discriminate; simpl;
          apply doc_entries_set; auto. }
    destruct (G [] eq_refl eq_refl) as [W D].
    unfold dict_wf in W. now rewrite W, D.
  - cbn [_serialize]. cbn [encodable] in E.
    apply andb_true_iff in E as [Es Eu]. rewrite is_document_dict.
    unfold _attrs_to_dict_with.
    assert (G : forall acc, dict_wf acc -> doc_entries acc = true ->
              let out := fold_left (fun new_dict field =>
                           encode_field _serialize new_dict
                                        (json_key (fst field), field))
                                   slots acc in
              dict_wf out /\ doc_entries out = true).
    { clear Eu. induction slots as [|[f x] slots IHl]; intros acc W D;
        [now split|].
      simpl in Es. apply andb_true_iff in Es as [Ex Es].
      cbn [fold_left fst snd].
      destruct f as [n t dflt j fl ig oe od].
      destruct (encode_field_document
                  (Attribute n t dflt j fl ig oe od) x acc W D
                  (IH x) (IH dflt) Ex) as [W' D'].
      exact (IHl Es _ W' D'). }
    destruct (G [] eq_refl eq_refl) as [W D].
    destruct unrecognized_ as [b|].
    + pose proof (dict_wf_update b _ W) as Wb. unfold dict_wf in Wb.
      now rewrite Wb, doc_entries_update.
    + unfold dict_wf in W. now rewrite W, D.
Qed.

(** X12.  The encoder yields JSON.  For an object built from [None],
    bools, ints, strs, enum members, lists, tuples, sets, dicts keyed by
    strs or enum members and attrs instances of such objects,
    [_serialize] returns a JSON document: only [None], bools, ints, strs,
    lists and dicts with distinct string keys.  Encoding that document
    again changes nothing. *)
Theorem encoder_yields_json (v : pyobj) :
  encodable v = true ->
  is_document (_serialize v) = true
  /\ _serialize (_serialize v) = _serialize v.
Proof.
  intro E. pose proof (serialize_encodable v E) as D.
  split; [exact D|]. now apply serialize_document.
Qed.

Lemma encoder_yields_json_witness :
  let v := VInst "Tagged"
             [(mk_attribute "tags" (TList (Some (TClass "str"))) VNone,
               VTuple [VStr "a"; VEnum Color "RED" "red"]);
              (Attribute "pos" (TDict None) VNone None
                         true false false false,
               VDict [(KEnum Color "RED" "red", VSet [KInt 1; KInt 2])])]
             (Some [(KStr "extra", VBool true)]) in
  is_document (_serialize v) = true
  /\ _serialize (_serialize v) = _serialize v.
Proof.
  intro v. apply (encoder_yields_json v). reflexivity.
Defined.

(** ** The store around a decoded default *)

(** X13.  [_safe_default] leaves the objects of the store alone.  In a
    store whose references all point into it, the call returns a store
    that is closed again, in which every object that existed before reads
    as before, and the returned object reads as the default. *)
Theorem safe_default_frame (s s' : Store.store) (default r : Store.loc) :
  Store.closed s ->
  Store._safe_default s default = (s', r) ->
  Store.closed s'
  /\ (forall depth l, l < List.length s ->
        Store.read depth s' l = Store.read depth s l)
  /\ (forall depth, Store.read depth s' r = Store.read depth s default).
Proof.
  intros W E. split; [|split].
  - unfold Store._safe_default, Store.copy_copy in E.
    destruct (Store.lookup s default) as [c|] eqn:H;
      [|injection E as <- <-; exact W].
    assert (A : Store.is_container c = true ->
                Store.closed (s ++ [c])%list).
    { intros _. unfold Store.closed in *. rewrite length_app. simpl.
      assert (M : forall c', Store.cell_closed (List.length s) c' ->
                    Store.cell_closed (List.length s + 1) c').
      { intros [k|items|items] C; simpl in *; [exact I| |];
          (eapply Forall_impl; [|exact C]); simpl; intros; lia. }
      apply Forall_app. split.
      - eapply Forall_impl; [|exact W]. exact M.
      - constructor; [|constructor]. apply M.
        rewrite Forall_forall in W. apply W.
        eapply nth_error_In. exact H. }
    destruct c as [k|items|items].
    + destruct (Store.is_immutable (Store.CAtom k));
        injection E as <- <-; exact W.
    + simpl in E. injection E as <- <-. now apply A.
    + simpl in E. injection E as <- <-. now apply A.
  - intros depth l B. unfold Store._safe_default, Store.copy_copy in E.
    destruct (Store.lookup s default) as [c|] eqn:H;
      [|injection E as <- <-; reflexivity].
    destruct c as [k|items|items].
    + destruct (Store.is_immutable (Store.CAtom k));
        injection E as <- <-; reflexivity.
    + simpl in E. injection E as <- <-. now apply read_alloc_old.
    + simpl in E. injection E as <- <-. now apply read_alloc_old.
  - now apply (safe_default_reads_as_default s default s' r).
Qed.

Lemma safe_default_frame_witness :
  let s := Store.nested_default in
  Store.closed (s ++ [Store.CList [1]])%list
  /\ (forall depth l, l < List.length s ->
        Store.read depth (s ++ [Store.CList [1]])%list l
        = Store.read depth s l)
  /\ (forall depth, Store.read depth (s ++ [Store.CList [1]])%list 3
                    = Store.read depth s 2).
Proof.
  intro s. apply (safe_default_frame s _ 2 3).
  - repeat constructor.
  - reflexivity.
Defined.

(** ** Documents that survive a round trip *)

Lemma wire_get_none slots k :
  (forall s, In s slots -> key_eqb (KStr (json_key (fst s))) k = false) ->
  dict_get (wire slots) k = None.
Proof.
  induction slots as [|s slots IH]; intro H; [reflexivity|].
  unfold wire. cbn [flat_map]. fold (wire slots).
  destruct (present (snd s)).
  - cbn [app dict_get]. rewrite (H s (or_introl eq_refl)). apply IH.
    intros s' Hs. apply H. now right.
  - apply IH. intros s' Hs. apply H. now right.
Qed.

Lemma wire_get slots :
  NoDup (map json_key (map fst slots)) ->
  forall s, In s slots ->
    dict_get (wire slots) (KStr (json_key (fst s)))
    = if present (snd s) then Some (_serialize (snd s)) else None.
Proof.
  induction slots as [|s0 slots IH]; intros ND s Hs; [contradiction|].
  simpl in ND. inversion ND as [|? ? Hnot ND']; subst.
  unfold wire. cbn [flat_map]. fold (wire slots).
  assert (O : forall s', In s' slots ->
                key_eqb (KStr (json_key (fst s0)))
                        (KStr (json_key (fst s'))) = false).
  { intros s' Hs'. simpl. apply String.eqb_neq. intro E. apply Hnot.
    rewrite E. apply in_map. now apply in_map. }
  destruct Hs as [->|Hs].
  - destruct (present (snd s)).
    + cbn [app dict_get]. now rewrite key_eqb_refl.
    + apply wire_get_none. intros s' Hs'.
      rewrite key_eqb_sym. now apply O.
  - destruct (present (snd s0)).
    + cbn [app dict_get]. rewrite (O s Hs). now apply IH.
    + now apply IH.
Qed.



(** ** The notification guard *)

Section Guard.
Import Disabler.
Variable world : Type.
Variable request :
  world -> Method -> list string -> option pyobj -> world * option raised.

Lemma aenter_cases (self : NotificationDisabler) (w : world) :
  let r := __aenter__ world request self w in
  intent (self_of r) = intent self
  /\ ((self_of r = self /\ world_of r = w /\ trace r = []
       /\ (raises r = None \/ intent self = None))
      \/ (exists api, intent self = Some (Some api))
         /\ self_of r = set_enabled self true
         /\ requests (trace r) = [PUT]
         /\ raises r = snd (request w PUT _path (Some (_rule self)))).
Proof.
  unfold __aenter__. cbv zeta.
  change (_rule (set_enabled self true)) with (_rule self).
  destruct (intent self) as [[api|]|] eqn:I.
  - destruct (config_enabled self).
    + cbn [negb].
      destruct (request w PUT _path (Some (_rule self))) as [w' [e|]];
        [destruct (is_Exception e)|];
        (split; [exact I|right; split; [now exists api|]]);
        repeat split.
    + split; [exact I|left; repeat split; now left].
  - split; [exact I|left; repeat split; now left].
  - split; [exact I|left; repeat split; now right].
Qed.

Lemma aexit_cases (self : NotificationDisabler) (w : world) :
  let r := __aexit__ world request self w in
  self_of r = self
  /\ (enabled self = false ->
      world_of r = w /\ trace r = [] /\ raises r = None)
  /\ (enabled self = true ->
      (exists api, intent self = Some (Some api)) ->
      requests (trace r) = [DELETE]
      /\ match snd (request w DELETE _path None) with
         | Some e => if is_Exception e then raises r = None
                     else raises r = Some e
         | None => raises r = None
         end).
Proof.
  unfold __aexit__. destruct (enabled self) eqn:E; simpl.
  - destruct (intent self) as [[api|]|] eqn:I.
    + destruct (request w DELETE _path None) as [w' [e|]] eqn:R; simpl.
      * destruct (is_Exception e) eqn:X; simpl; rewrite ?X;
          (split; [reflexivity|split; [discriminate|auto]]).
      * split; [reflexivity|split; [discriminate|auto]].
    + split; [reflexivity|split; [discriminate|]].
      intros _ [api H]. discriminate.
    + split; [reflexivity|split; [discriminate|]].
      intros _ [api H]. discriminate.
  - split; [reflexivity|split; [auto|discriminate]].
Qed.

(** X15.  The guard brackets the body.  Take a guard on which [enabled]
    is false, as [__init__] leaves it, and any body and outside world.
    When [__aenter__] raises, the statement [async with] raises the same
    exception, the body does not run and no [DELETE] is requested.
    Otherwise the body runs between what the guard asks on entry and on
    exit: either the guard requested one [PUT] before the body and
    requests one [DELETE] after it, whatever the body did, or it asks
    nothing at all.  The statement then ends as the body ended, unless
    the [DELETE] raised an exception that is no [Exception]: a failure
    of the [DELETE] that is an [Exception] is swallowed. *)
Theorem guard_brackets_body (self : NotificationDisabler)
    (body : world -> world * list event * option raised) (w : world) :
  enabled self = false ->
  let entered := __aenter__ world request self w in
  let done := async_with world request self body w in
  match raises entered with
  | Some e =>
      done = entered /\ ~ In DELETE (requests (trace done))
  | None =>
      let '(w2, t2, e2) := body (world_of entered) in
      exists after,
        trace done = (trace entered ++ t2 ++ after)%list
        /\ ((requests (trace entered) = [PUT] /\ requests after = [DELETE])
            \/ (trace entered = [] /\ after = []))
        /\ (raises done = e2
            \/ exists e, raises done = Some e /\ is_Exception e = false
                         /\ snd (request w2 DELETE _path None) = Some e)
  end.
Proof.
  intros Fresh entered done.
  destruct (aenter_cases self w) as [I C]. fold entered in I, C.
  unfold done, async_with. fold entered.
  destruct (raises entered) as [e|] eqn:Re.
  - split; [reflexivity|].
    destruct C as [(_ & _ & T & _)|(_ & _ & T & _)]; rewrite T; simpl.
    + tauto.
    + intros [H|[]]. discriminate.
  - destruct (body (world_of entered)) as [[w2 t2] e2] eqn:B.
    destruct (aexit_cases (self_of entered) w2) as (S & Off & On).
    exists (trace (__aexit__ world request (self_of entered) w2)).
    simpl. split; [reflexivity|].
    destruct C as [(Es & _ & T & _)|(A & Es & T & _)].
    + rewrite Es in Off. destruct (Off Fresh) as (_ & T' & R').
      rewrite Es, T', R'. split; [right; auto|left; reflexivity].
    + rewrite Es in On. destruct On as [T' R'].
      * reflexivity.
      * exact A.
      * rewrite Es. split; [left; auto|].
        destruct (snd (request w2 DELETE _path None)) as [e|] eqn:D.
        -- destruct (is_Exception e) eqn:X; rewrite R'.
           ++ now left.
           ++ right. now exists e.
        -- rewrite R'. now left.
Qed.

Lemma calls_invariant (cs : list call) : forall self w,
  (enabled self = true -> exists api, intent self = Some (Some api)) ->
  let self' := fst (calls world request cs self w) in
  intent self' = intent self
  /\ (enabled self = true -> enabled self' = true)
  /\ (enabled self' = true -> exists api, intent self' = Some (Some api)).
Proof.
  induction cs as [|c cs IH]; intros self w Inv; simpl.
  - auto.
  - assert (Step : forall r,
              r = match c with
                  | Enter => __aenter__ world request self w
                  | Exit => __aexit__ world request self w
                  end ->
              intent (self_of r) = intent self
              /\ (enabled self = true -> enabled (self_of r) = true)
              /\ (enabled (self_of r) = true ->
                  exists api, intent (self_of r) = Some (Some api))).
    { intros r ->. destruct c.
      - destruct (aenter_cases self w) as [I [(Es & _)|(A & Es & _)]];
          rewrite Es in *; simpl; auto.
      - destruct (aexit_cases self w) as (Es & _). rewrite Es. auto. }
    destruct (Step _ eq_refl) as (I & M & Inv').
    destruct (IH _ (world_of match c with
                             | Enter => __aenter__ world request self w
                             | Exit => __aexit__ world request self w
                             end) Inv') as (I2 & M2 & Inv2).
    split; [congruence|]. split; auto.
Qed.

(** X16.  [enabled] is never reset, and [__aexit__] fails only with the
    request.  After any sequence of [__aenter__] and [__aexit__] calls on
    a guard on which [enabled] was false at first, whatever the calls
    raised: [intent] is unchanged; a further [__aexit__] leaves the
    object as it is and raises only an exception that the [DELETE]
    request raised and that is no [Exception]; and once [enabled] is
    true it stays true, so that every later [__aexit__] requests a
    [DELETE]. *)
Theorem exit_after_any_calls (self : NotificationDisabler) (w : world)
    (cs : list call) :
  enabled self = false ->
  let '(self', w') := calls world request cs self w in
  let left := __aexit__ world request self' w' in
  intent self' = intent self
  /\ self_of left = self'
  /\ (forall e, raises left = Some e ->
        is_Exception e = false
        /\ snd (request w' DELETE _path None) = Some e)
  /\ (forall cs', enabled self' = true ->
        let '(self'', w'') := calls world request cs' self' w' in
        enabled self'' = true
        /\ requests (trace (__aexit__ world request self'' w'')) = [DELETE]).
Proof.
  intro Fresh.
  pose proof (calls_invariant cs self w) as H. simpl in H.
  destruct (calls world request cs self w) as [self' w'] eqn:C.
  simpl in H. destruct H as (I & _ & Inv).
  { rewrite Fresh. discriminate. }
  destruct (aexit_cases self' w') as (S & Off & On).
  split; [exact I|]. split; [exact S|]. split.
  - intros e R. destruct (enabled self') eqn:E.
    + destruct (On eq_refl (Inv eq_refl)) as [_ R'].
      destruct (snd (request w' DELETE _path None)) as [e'|].
      * destruct (is_Exception e') eqn:X; [congruence|].
        assert (e = e') as -> by congruence. auto.
      * congruence.
    + destruct (Off eq_refl) as (_ & _ & R'). congruence.
  - intros cs' E.
    pose proof (calls_invariant cs' self' w' Inv) as H. simpl in H.
    destruct (calls world request cs' self' w') as [self'' w''] eqn:C'.
    simpl in H. destruct H as (_ & M & Inv').
    split; [now apply M|].
    destruct (aexit_cases self'' w'') as (_ & _ & On').
    now destruct (On' (M E) (Inv' (M E))).
Qed.

(** X17.  A guard without [intent].  [__init__] assigns [intent] only for
    a puppet that is a real user.  On an object on which it was not
    assigned, [__aenter__] raises [AttributeError] before it reads
    [config_enabled]: the statement [async with] raises it, the body
    does not run, nothing is requested or logged and the object is left
    as it was.  This is the only way in which [__aenter__] raises
    without having asked anything of the outside. *)
Theorem unset_intent_raises (self : NotificationDisabler)
    (body : world -> world * list event * option raised) (w : world) :
  intent self = None ->
  async_with world request self body w = Run self w [] (Some no_attribute)
  /\ forall self' w',
       raises (__aenter__ world request self' w') <> None ->
       trace (__aenter__ world request self' w') = [] ->
       intent self' = None.
Proof.
  intro I. split.
  - unfold async_with, __aenter__. now rewrite I.
  - intros self' w'. unfold __aenter__. cbv zeta.
    destruct (intent self') as [[api|]|]; [| |reflexivity].
    + destruct (config_enabled self'); cbn [negb].
      * destruct (request w' PUT _path _) as [w2 [e|]];
          [destruct (is_Exception e)|]; simpl; intros _ T; discriminate.
      * simpl. intros R. now contradiction R.
    + simpl. intros R. now contradiction R.
Qed.
End Guard.

Lemma guard_brackets_body_witness :
  let self := Disabler.Self "!room:a" (Some (Some (Disabler.Intent "@u:a")))
                            false true in
  let failure := Some (Disabler.Raised "ValueError" true) in
  let body := fun w : list (option Disabler.raised) =>
                (w, [Disabler.LogDebug "backfilling"], failure) in
  let w := [None; Some (Disabler.Raised "MatrixError" true)] in
  let entered := Disabler.__aenter__ _ Disabler.scripted self w in
  let done := Disabler.async_with _ Disabler.scripted self body w in
  exists after,
    Disabler.trace done
    = (Disabler.trace entered ++ [Disabler.LogDebug "backfilling"] ++ after)%list
    /\ ((Disabler.requests (Disabler.trace entered) = [Disabler.PUT]
         /\ Disabler.requests after = [Disabler.DELETE])
        \/ (Disabler.trace entered = [] /\ after = []))
    /\ (Disabler.raises done = failure
        \/ exists e, Disabler.raises done = Some e
                     /\ Disabler.is_Exception e = false
                     /\ snd (Disabler.scripted
                               [Some (Disabler.Raised "MatrixError" true)]
                               Disabler.DELETE Disabler._path None) = Some e).
Proof.
  intros self failure body w.
  exact (guard_brackets_body (list (option Disabler.raised)) Disabler.scripted
                             self body w eq_refl).
Defined.

Lemma exit_after_any_calls_witness :
  let self := Disabler.Self "!room:a" (Some (Some (Disabler.Intent "@u:a"))) false true in
  let w := [Some (Disabler.Raised "MatrixError" true)] in
  let '(self', w') := Disabler.calls _ Disabler.scripted [Disabler.Enter] self w in
  Disabler.enabled self' = true
  /\ Disabler.requests (Disabler.trace (Disabler.__aexit__ _ Disabler.scripted self' w')) = [Disabler.DELETE].
Proof.
  intros self w.
  pose proof (exit_after_any_calls (list (option Disabler.raised)) Disabler.scripted
                self w [Disabler.Enter] eq_refl) as H.
  simpl in H. destruct H as (_ & _ & _ & H).
  exact (H [] eq_refl).
Defined.

Lemma unset_intent_raises_witness :
  let self := Disabler.Self "!room:a" None false false in
  Disabler.async_with _ Disabler.scripted self (fun w => (w, [], None)) []
  = Disabler.Run self [] [] (Some Disabler.no_attribute)
  /\ forall self' w',
       Disabler.raises (Disabler.__aenter__ _ Disabler.scripted self' w')
       <> None ->
       Disabler.trace (Disabler.__aenter__ _ Disabler.scripted self' w') = [] ->
       Disabler.intent self' = None.
Proof.
  intro self.
  exact (unset_intent_raises (list (option Disabler.raised)) Disabler.scripted
                             self (fun w => (w, [], None)) [] eq_refl).
Defined.

(** ** Records that survive a round trip *)

(** *** Equality of what is read back *)

Lemma py_eq_inst n s b n' s' b' :
  py_eq (VInst n s b) (VInst n' s' b') = String.eqb n n' && slots_eq s s'.
Proof.
  reflexivity.
Qed.

Lemma py_eq_None a : py_eq a VNone = true -> a = VNone.
Proof. destruct a; simpl; congruence. Qed.

Lemma py_eq_scalar v : is_scalar v = true -> py_eq v v = true.
Proof.
  destruct v; try discriminate; intros _; simpl.
  - apply Bool.eqb_reflx.
  - apply Z.eqb_refl.
  - apply String.eqb_refl.
Qed.

Lemma py_eq_document : forall v, is_document v = true -> py_eq v v = true.
Proof.
  fix IH 1. intros v D. destruct v; try discriminate; try reflexivity.
  - simpl. apply Bool.eqb_reflx.
  - simpl. apply Z.eqb_refl.
  - simpl. apply String.eqb_refl.
  - cbn [py_eq]. cbn [is_document] in D.
    induction items as [|x items IHl]; [reflexivity|].
    simpl in D. apply andb_true_iff in D as [Dx D].
    rewrite (IH x Dx). now apply IHl.
  - cbn [py_eq]. cbn [is_document] in D.
    apply andb_true_iff in D as [W D]. rewrite Nat.eqb_refl. cbn [andb].
    assert (G : forall k v, In (k, v) items -> dict_get items k = Some v)
      by (intros k v; now apply dict_wf_In_get).
    assert (A : forall d' : dict pyobj,
               (forall k v, In (k, v) items -> dict_get d' k = Some v) ->
               (fix all_in (d : list (key * pyobj)) : bool :=
                  match d with
                  | [] => true
                  | (k, v) :: t =>
                      match dict_get d' k with
                      | Some v' => py_eq v v' && all_in t
                      | None => false
                      end
                  end) items = true).
    { clear W G. induction items as [|[k x] items IHl]; intros d' G;
        [reflexivity|].
      simpl in D. apply andb_true_iff in D as [Dx D].
      rewrite (G k x (or_introl eq_refl)).
      destruct k; try discriminate. rewrite (IH x Dx).
      apply (IHl D). intros k' v' H. apply G. now right. }
    exact (A items G).
Qed.

(** *** What the encoder stores *)

Lemma encode_field_spec nd f x :
  encode_field _serialize nd (json_key f, (f, x))
  = if skipped f x then nd
    else match _serialize (substituted f x) with
         | VDict d =>
             if a_flatten f then dict_update nd d
             else dict_set nd (KStr (json_key f)) (VDict d)
         | w => dict_set nd (KStr (json_key f)) w
         end.
Proof.
  unfold encode_field, store_field, skipped. cbn [fst snd].
  destruct (String.eqb (json_key f) ""); [reflexivity|]. cbn [orb].
  destruct x; cbn [present negb andb orb substituted];
    try (destruct (a_omitdefault f && _); [reflexivity|];
         destruct (_serialize _); reflexivity).
  destruct (a_omitempty f); cbn [negb orb]; [reflexivity|].
  destruct (a_omitdefault f && _); [reflexivity|].
  destruct (_serialize _); reflexivity.
Qed.

Lemma dict_mem_In {V} (d : dict V) k v : In (k, v) d -> dict_mem d k = true.
Proof.
  unfold dict_mem. induction d as [|[k0 v0] d IH]; [contradiction|].
  simpl. intros [E|H].
  - injection E as -> ->. now rewrite key_eqb_refl.
  - destruct (key_eqb k0 k); [reflexivity|]. now apply IH.
Qed.

Lemma dict_mem_app {V} (d d' : dict V) k :
  dict_mem (d ++ d')%list k = dict_mem d k || dict_mem d' k.
Proof.
  unfold dict_mem. rewrite dict_get_app. now destruct (dict_get d k).
Qed.

Lemma dict_set_app_fresh {V} (nd acc : dict V) k v :
  dict_mem nd k = false ->
  dict_set (nd ++ acc)%list k v = (nd ++ dict_set acc k v)%list.
Proof.
  unfold dict_mem. induction nd as [|[k0 v0] nd IH]; [reflexivity|].
  simpl. destruct (key_eqb k0 k); [discriminate|]. intro H. now rewrite IH.
Qed.

Lemma dict_update_app_fresh {V} (d : dict V) : forall nd acc,
  (forall k v, In (k, v) d -> dict_mem nd k = false) ->
  dict_update (nd ++ acc)%list d = (nd ++ dict_update acc d)%list.
Proof.
  induction d as [|[k v] d IH]; intros nd acc H; [reflexivity|].
  rewrite !dict_update_cons.
  rewrite dict_set_app_fresh by (apply (H k v); now left).
  apply IH. intros k' v' Hin. apply (H k' v'). now right.
Qed.

Lemma encode_field_app nd s :
  (forall k, dict_mem (slot_wire s) k = true -> dict_mem nd k = false) ->
  encode_field _serialize nd (json_key (fst s), s) = (nd ++ slot_wire s)%list.
Proof.
  destruct s as [f x]. unfold slot_wire. cbn [fst].
  rewrite !encode_field_spec.
  destruct (skipped f x); [intros _; now rewrite app_nil_r|].
  assert (S : forall w,
             (forall k, dict_mem (dict_set [] (KStr (json_key f)) w) k = true ->
                        dict_mem nd k = false) ->
             dict_set nd (KStr (json_key f)) w
             = (nd ++ dict_set [] (KStr (json_key f)) w)%list).
  { intros w H. apply dict_set_fresh. apply H.
    unfold dict_mem. simpl. now rewrite String.eqb_refl. }
  destruct (_serialize (substituted f x)); try apply S.
  destruct (a_flatten f); [|apply S].
  intro H. rewrite <- (app_nil_r nd) at 1.
  apply dict_update_app_fresh. intros k v Hin. apply H.
  rewrite dict_mem_update. apply orb_true_iff. right.
  apply existsb_exists. exists (k, v). split; [exact Hin|apply key_eqb_refl].
Qed.

Lemma NoDup_app_inv {A} (l l' : list A) :
  NoDup (l ++ l')%list ->
  NoDup l /\ NoDup l' /\ forall a, In a l -> ~ In a l'.
Proof.
  intro H. split; [|split].
  - now apply NoDup_app_remove_r in H.
  - now apply NoDup_app_remove_l in H.
  - induction l as [|b l IH]; [contradiction|].
    simpl in H. inversion H as [|? ? Hnot H']; subst.
    intros a [->|Ha] Hin.
    + apply Hnot. apply in_or_app. now right.
    + now apply (IH H' a).
Qed.

Section Wire.
Variable slots : list (attribute * pyobj).

Hypothesis own :
  forall s k, In s slots -> dict_mem (slot_wire s) k = true ->
    exists j, k = KStr j /\ In j (field_keys (fst s)).
Hypothesis distinct : NoDup (class_keys (map fst slots)).

Lemma wire_concat :
  _attrs_to_dict slots None = flat_map slot_wire slots.
Proof.
  unfold _attrs_to_dict, _attrs_to_dict_with.
  change (flat_map slot_wire slots) with ([] ++ flat_map slot_wire slots)%list.
  assert (F : forall j, In j (class_keys (map fst slots)) ->
                dict_mem (@nil (key * pyobj)) (KStr j) = false)
    by reflexivity.
  revert own distinct F. generalize (@nil (key * pyobj)).
  induction slots as [|s rest IH]; intros nd O ND F.
  - simpl. now rewrite app_nil_r.
  - cbn [fold_left flat_map].
    unfold class_keys in ND. cbn [map flat_map] in ND.
    apply NoDup_app_inv in ND as (N1 & N2 & N3).
    rewrite encode_field_app.
    + rewrite IH.
      * now rewrite <- app_assoc.
      * intros s' k Hs. apply O. now right.
      * exact N2.
      * intros j Hj. rewrite dict_mem_app. apply orb_false_iff. split.
        -- apply F. unfold class_keys. cbn [map flat_map].
           apply in_or_app. now right.
        -- destruct (dict_mem (slot_wire s) (KStr j)) eqn:M; [|reflexivity].
           destruct (O s (KStr j) (or_introl eq_refl) M) as (j' & E & Hj').
           injection E as <-. exfalso. now apply (N3 j).
    + intros k M.
      destruct (O s k (or_introl eq_refl) M) as (j & -> & Hj).
      apply F. unfold class_keys. cbn [map flat_map].
      apply in_or_app. now left.
Qed.

Lemma wire_keys k w :
  In (k, w) (_attrs_to_dict slots None) ->
  exists j, k = KStr j /\ In j (class_keys (map fst slots)).
Proof.
  rewrite wire_concat. intro H.
  apply in_flat_map in H as (s & Hs & Hin).
  destruct (own s k Hs (dict_mem_In _ _ _ Hin)) as (j & -> & Hj).
  exists j. split; [reflexivity|].
  unfold class_keys. apply in_flat_map. exists (fst s).
  split; [now apply in_map|exact Hj].
Qed.

Lemma wire_own s j :
  In s slots -> In j (field_keys (fst s)) ->
  dict_get (_attrs_to_dict slots None) (KStr j)
  = dict_get (slot_wire s) (KStr j).
Proof.
  rewrite wire_concat. revert own distinct.
  induction slots as [|s0 rest IH]; intros O ND Hs Hj; [contradiction|].
  unfold class_keys in ND. cbn [map flat_map] in ND.
  apply NoDup_app_inv in ND as (N1 & N2 & N3).
  cbn [flat_map]. rewrite dict_get_app.
  assert (A : forall s' j', In s' (s0 :: rest) ->
                dict_get (slot_wire s') (KStr j') <> None ->
                In j' (field_keys (fst s'))).
  { intros s' j' Hs' G.
    destruct (O s' (KStr j') Hs') as (j'' & E & H).
    - unfold dict_mem. now destruct (dict_get (slot_wire s') (KStr j')).
    - now injection E as <-. }
  destruct Hs as [->|Hs].
  - destruct (dict_get (slot_wire s) (KStr j)) eqn:G; [reflexivity|].
    destruct (dict_get (flat_map slot_wire rest) (KStr j)) eqn:G'; [|reflexivity].
    exfalso. apply dict_get_In in G' as (k' & Hin & E).
    apply in_flat_map in Hin as (s' & Hs' & Hin).
    destruct (O s' k' (or_intror Hs') (dict_mem_In _ _ _ Hin)) as (j' & -> & H).
    apply key_eqb_KStr in E. injection E as E. subst j'.
    apply (N3 j Hj). apply in_flat_map. exists (fst s').
    split; [now apply in_map|exact H].
  - destruct (dict_get (slot_wire s0) (KStr j)) eqn:G.
    + exfalso. apply (N3 j).
      * apply (A s0 j (or_introl eq_refl)). congruence.
      * apply in_flat_map. exists (fst s). split; [now apply in_map|exact Hj].
    + apply IH; auto. intros s' k Hs'. apply O. now right.
Qed.
End Wire.

(** *** What the decoder reads *)

Lemma encode_field_wf nd s :
  dict_wf nd -> dict_wf (encode_field _serialize nd (json_key (fst s), s)).
Proof.
  intro W. destruct s as [f x]. cbn [fst]. rewrite encode_field_spec.
  destruct (skipped f x); [exact W|].
  destruct (_serialize (substituted f x)); try now apply dict_wf_set.
  destruct (a_flatten f); [now apply dict_wf_update|now apply dict_wf_set].
Qed.

Lemma attrs_to_dict_wf slots : dict_wf (_attrs_to_dict slots None).
Proof.
  unfold _attrs_to_dict, _attrs_to_dict_with.
  assert (W : dict_wf (@nil (key * pyobj))) by reflexivity.
  revert W. generalize (@nil (key * pyobj)).
  induction slots as [|s slots IH]; intros nd W; [exact W|].
  cbn [fold_left]. apply IH. now apply encode_field_wf.
Qed.

Lemma in_class_keys fs g j :
  In g fs -> In j (field_keys g) -> In j (class_keys fs).
Proof. intros Hg Hj. apply in_flat_map. now exists g. Qed.

Lemma class_keys_json fs :
  NoDup (class_keys fs) -> NoDup (map json_key fs).
Proof.
  induction fs as [|f fs IH]; intro N; [constructor|].
  unfold class_keys in N. cbn [flat_map] in N.
  apply NoDup_app_inv in N as (N1 & N2 & N3).
  simpl. constructor; [|now apply IH].
  intro H. apply in_map_iff in H as (g & E & Hg).
  apply (N3 (json_key f)); [now left|].
  apply (in_class_keys fs g); [exact Hg|]. rewrite <- E. now left.
Qed.

Lemma field_keys_NoDup fs g :
  NoDup (class_keys fs) -> In g fs -> NoDup (field_keys g).
Proof.
  induction fs as [|f fs IH]; intros N Hg; [contradiction|].
  unfold class_keys in N. cbn [flat_map] in N.
  apply NoDup_app_inv in N as (N1 & N2 & _).
  destruct Hg as [->|Hg]; [exact N1|now apply IH].
Qed.

Lemma type_keys_core t c :
  core_type t = Some (TAttrs c) -> type_keys t = class_keys (c_fields c).
Proof.
  intro C. destruct t; simpl in C; try discriminate.
  - destruct t; simpl in C; try discriminate. now injection C as <-.
  - now injection C as <-.
Qed.

Lemma substituted_present f x : present x = true -> substituted f x = x.
Proof. destruct x; [discriminate|reflexivity..]. Qed.

Lemma nested_default c D default :
  no_flatten (c_fields c) = true ->
  forallb (unmatched c) D = true ->
  _dict_to_attrs c (VDict D) default true = Ok default.
Proof.
  intros NF U. unfold _dict_to_attrs, _dict_to_attrs_with.
  rewrite (fields_flatten_none c NF). cbn [flatten_pass bind].
  replace (if truthy (VDict D) then VDict D else VDict []) with (VDict D)
    by (destruct D; reflexivity).
  cbn [py_items bind]. rewrite (items_pass_unmatched c D [] [] U).
  simpl. now rewrite safe_default_id.
Qed.

Lemma slots_eq_pointwise : forall s' s,
  map fst s' = map fst s ->
  (forall g y x, In (g, y) s' -> In (g, x) s -> py_eq y x = true) ->
  slots_eq s' s = true.
Proof.
  induction s' as [|[g y] s' IH]; intros [|[g' x] s] E H;
    try discriminate; [reflexivity|].
  simpl in E. injection E as <- E. cbn [slots_eq].
  rewrite (H g y x) by now left.
  apply IH; [exact E|]. intros g0 y0 x0 H1 H2. apply (H g0); now right.
Qed.

Lemma record_read_back c D slots default default_if_empty :
  NoDup (map a_name (c_fields c)) ->
  dict_wf D ->
  map fst slots = c_fields c ->
  (forall g x, In (g, x) slots ->
     match raw_for c D g with
     | Some raw => exists y, decode_field g raw = Ok y /\ py_eq y x = true
     | None => is_mandatory g = false /\ py_eq (a_default g) x = true
     end) ->
  (default_if_empty = true ->
   exists g, In g (c_fields c) /\ raw_for c D g <> None) ->
  exists slots' bucket,
    _dict_to_attrs c (VDict D) default default_if_empty
    = Ok (VInst (c_name c) slots' bucket)
    /\ slots_eq slots' slots = true.
Proof.
  intros NN W Fs H E.
  assert (X : forall g, In g (c_fields c) -> exists x, In (g, x) slots).
  { intros g Hg. rewrite <- Fs in Hg.
    apply in_map_iff in Hg as ([g' x] & Eg & Hs). simpl in Eg. subst g'.
    now exists x. }
  destruct (dict_to_attrs_spec c D default default_if_empty NN W)
    as (slots' & R & Fs' & S).
  - intros g raw Hg Rg. destruct (X g Hg) as [x Hs].
    specialize (H g x Hs). rewrite Rg in H. destruct H as (y & Dy & _).
    now exists y.
  - intros g Hg Mg Rg. destruct (X g Hg) as [x Hs].
    specialize (H g x Hs). rewrite Rg in H. destruct H as [Mg' _].
    congruence.
  - exact E.
  - exists slots', (attached (filter (unmatched c) D)).
    split; [exact R|]. apply slots_eq_pointwise; [congruence|].
    intros g y x Hy Hx. specialize (S g y Hy). specialize (H g x Hx).
    destruct (raw_for c D g) as [raw|].
    + destruct H as (y' & Dy & Ey). congruence.
    + destruct H as [_ Ey]. now subst y.
Qed.

(** *** Slots, records, values *)

Lemma slot_rt_impl (rt rt' : pyobj -> pytype -> Prop) f x :
  (forall t, rt x t -> rt' x t) -> slot_rt rt f x -> slot_rt rt' f x.
Proof.
  intro H. unfold slot_rt.
  destruct (a_flatten f).
  - destruct (core_type (a_type f)) as [[]|]; auto.
    destruct (skipped f x || negb (present x)); auto.
  - destruct (skipped f x); auto. destruct (present x); auto.
Qed.

Lemma slot_wire_own f x k :
  slot_rt read_back f x ->
  dict_mem (slot_wire (f, x)) k = true ->
  exists j, k = KStr j /\ In j (field_keys f).
Proof.
  intros S M. unfold slot_wire in M. cbn [fst] in M.
  rewrite encode_field_spec in M.
  destruct (skipped f x) eqn:Sk; [discriminate|].
  assert (Set_ : forall w : pyobj,
             dict_mem (dict_set [] (KStr (json_key f)) w) k = true ->
             exists j, k = KStr j /\ In j (field_keys f)).
  { intros w Mw. exists (json_key f). split; [|now left].
    unfold dict_mem in Mw. cbn [dict_set dict_get] in Mw.
    destruct (key_eqb (KStr (json_key f)) k) eqn:E; [|discriminate].
    now apply key_eqb_KStr in E. }
  unfold slot_rt in S. destruct (a_flatten f) eqn:Fl.
  - destruct (core_type (a_type f)) as [[| | | | | | | | |c| |]|] eqn:C;
      try contradiction.
    rewrite Sk in S. cbn [orb] in S. destruct (present x) eqn:P; cbn [negb] in S.
    + destruct S as [_ G].
      destruct (G c C) as (n & sl & -> & -> & _ & K & _).
      cbn [substituted] in M. rewrite _serialize_inst in M.
      rewrite dict_mem_update in M. cbn [dict_mem dict_get orb] in M.
      apply existsb_exists in M as ([k' w] & Hin & E). cbn [fst] in E.
      destruct (K k' w Hin) as (j & -> & Hj).
      apply key_eqb_KStr in E. exists j. split; [exact E|].
      right. rewrite Fl, (type_keys_core _ _ C). exact Hj.
    + destruct S as [D _]. apply present_spec in P. subst x.
      apply py_eq_None in D. cbn [substituted] in M. rewrite D in M.
      now apply (Set_ VNone).
  - destruct (_serialize (substituted f x)); now apply (Set_ _) in M.
Qed.

Lemma record_sound slots :
  NoDup (map a_name (map fst slots)) ->
  NoDup (class_keys (map fst slots)) ->
  Forall (fun s => slot_rt read_back (fst s) (snd s)) slots ->
  keeps slots /\ reads_back slots.
Proof.
  intros NN NK S. rewrite Forall_forall in S.
  assert (own : forall s k, In s slots -> dict_mem (slot_wire s) k = true ->
                  exists j, k = KStr j /\ In j (field_keys (fst s))).
  { intros [f x] k Hs. apply slot_wire_own. exact (S (f, x) Hs). }
  split; [intros k w; now apply wire_keys|].
  intros cname D default die W A Sd.
  set (c := class_of cname slots).
  assert (Get : forall g x j, In (g, x) slots -> In j (field_keys g) ->
                  dict_get D (KStr j) = dict_get (slot_wire (g, x)) (KStr j)).
  { intros g x j Hs Hj. rewrite A.
    - now apply (wire_own slots own NK (g, x) j).
    - apply (in_class_keys _ g); [|exact Hj].
      apply (in_map fst _ _ Hs). }
  assert (Plain : forall g x, In (g, x) slots -> a_flatten g = false ->
                    raw_for c D g
                    = if skipped g x then None
                      else Some (_serialize (substituted g x))).
  { intros g x Hs Fl. unfold raw_for. rewrite Fl.
    rewrite (field_for_unique c g); [|now apply class_keys_json
                                     |apply (in_map fst _ _ Hs)|exact Fl].
    rewrite String.eqb_refl.
    rewrite (Get g x (json_key g) Hs) by now left.
    unfold slot_wire. cbn [fst]. rewrite encode_field_spec.
    destruct (skipped g x); [reflexivity|].
    assert (T : forall w : pyobj,
               dict_get (dict_set [] (KStr (json_key g)) w)
                                   (KStr (json_key g)) = Some w)
      by (intro w; apply dict_get_set_same).
    rewrite Fl. destruct (_serialize (substituted g x)); apply T. }
  apply (record_read_back c D slots default die); auto.
  - intros g x Hs. pose proof (S (g, x) Hs) as Sg. cbn [fst snd] in Sg.
    unfold slot_rt in Sg. destruct (a_flatten g) eqn:Fl.
    + rewrite (raw_for_flatten c D g Fl).
      destruct (core_type (a_type g)) as [[| | | | | | | | |c'| |]|] eqn:C;
        try contradiction.
      assert (Dec : forall y,
                 _dict_to_attrs c' (VDict D) (a_default g) true = Ok y ->
                 decode_field g (VDict D) = Ok y).
      { intros y E. unfold decode_field, _try_deserialize.
        rewrite (deserialize_core _ _ _ _ C) by discriminate.
        rewrite _deserialize_attrs by discriminate. now rewrite E. }
      destruct (skipped g x || negb (present x)) eqn:Sk.
      * destruct Sg as [Eq NF]. exists (a_default g). split; [|exact Eq].
        apply Dec. apply nested_default; [exact NF|].
        apply forallb_forall. intros [k v] Hin. unfold unmatched. cbn [fst].
        destruct (field_for c' k) as [g'|] eqn:F; [|reflexivity].
        exfalso. apply field_for_In in F as (Hg' & _ & ->).
        pose proof (dict_wf_In_get D _ v W Hin) as G.
        assert (Hj : In (json_key g') (type_keys (a_type g))).
        { rewrite (type_keys_core _ _ C).
          apply (in_class_keys _ g'); [exact Hg'|now left]. }
        rewrite (Get g x (json_key g') Hs) in G
          by (right; now rewrite Fl).
        unfold slot_wire in G. cbn [fst] in G. rewrite encode_field_spec in G.
        destruct (skipped g x) eqn:Sk'; [discriminate|].
        cbn [orb] in Sk. apply negb_true_iff, present_spec in Sk. subst x.
        apply py_eq_None in Eq. cbn [substituted] in G. rewrite Eq in G.
        cbn [_serialize dict_set dict_get] in G.
        destruct (key_eqb (KStr (json_key g)) (KStr (json_key g'))) eqn:E;
          [|discriminate].
        apply key_eqb_KStr in E. injection E as E.
        pose proof (field_keys_NoDup _ g NK (in_map fst _ _ Hs)) as N.
        unfold field_keys in N. rewrite Fl in N.
        inversion N as [|? ? Hnot _]; subst. apply Hnot. now rewrite <- E.
      * apply orb_false_iff in Sk as [Sk P]. apply negb_false_iff in P.
        destruct Sg as [_ G].
        destruct (G c' C) as (n & sl & -> & -> & Sn & _ & RB).
        destruct (RB n D (a_default g) true W) as (slots' & b & E & Q).
        -- intros j Hj.
           rewrite (Get g _ j Hs)
             by (right; now rewrite Fl, (type_keys_core _ _ C)).
           unfold slot_wire. cbn [fst]. rewrite encode_field_spec, Sk.
           cbn [substituted]. rewrite _serialize_inst, Fl.
           f_equal. apply (dict_update_nil_wf (_attrs_to_dict sl None) []).
           apply attrs_to_dict_wf.
        -- intros _. exact Sn.
        -- exists (VInst n slots' b). split; [now apply Dec|].
           now rewrite py_eq_inst, String.eqb_refl, Q.
    + rewrite (Plain g x Hs Fl). destruct (skipped g x); [exact Sg|].
      destruct (present x) eqn:P.
      * rewrite (substituted_present g x P).
        destruct Sg as [V _]. destruct (V (a_default g)) as (y & E & Q).
        exists y. split; [|exact Q].
        unfold decode_field, _try_deserialize. now rewrite E.
      * apply present_spec in P. subst x. cbn [substituted].
        rewrite Sg. exists VNone. split; [|reflexivity].
        unfold decode_field, _try_deserialize.
        now rewrite _deserialize_None, safe_default_id, Sg.
  - intro Ed. specialize (Sd Ed). unfold sends in Sd.
    apply existsb_exists in Sd as ([g x] & Hs & Hx). cbn [fst snd] in Hx.
    exists g. split; [apply (in_map fst _ _ Hs)|].
    destruct (a_flatten g) eqn:Fl.
    + now rewrite (raw_for_flatten c D g Fl).
    + rewrite (Plain g x Hs Fl). cbn [orb] in Hx.
      apply negb_true_iff in Hx. now rewrite Hx.
Qed.

Lemma roundtrips_eq v t :
  roundtrips v t
  = match core_type t with
    | Some (TClass _) => is_scalar v = true
    | Some TAny => v <> VNone /\ is_document v = true
    | Some (TEnum e) => exists n s, v = VEnum e n s /\ is_member e n s
    | Some (TAttrs c) =>
        match v with
        | VInst cname slots None =>
            c = class_of cname slots
            /\ NoDup (map a_name (map fst slots))
            /\ NoDup (class_keys (map fst slots))
            /\ sends slots = true
            /\ (fix slots_ok (l : list (attribute * pyobj)) : Prop :=
                  match l with
                  | [] => True
                  | (f, x) :: l' => slot_rt roundtrips f x /\ slots_ok l'
                  end) slots
        | _ => False
        end
    | _ => False
    end.
Proof. destruct v; reflexivity. Qed.

Lemma slots_rt_Forall (rt : pyobj -> pytype -> Prop) slots :
  (fix slots_ok (l : list (attribute * pyobj)) : Prop :=
     match l with
     | [] => True
     | (f, x) :: l' => slot_rt rt f x /\ slots_ok l'
     end) slots
  <-> Forall (fun s => slot_rt rt (fst s) (snd s)) slots.
Proof.
  induction slots as [|[f x] slots IH]; split; intro H.
  - constructor.
  - exact I.
  - destruct H as [H H']. constructor; [exact H|]. now apply IH.
  - inversion H; subst. split; [assumption|]. now apply IH.
Qed.

(** A value that [roundtrips] against a type is read back equal. *)
Lemma roundtrips_sound : forall v t, roundtrips v t -> read_back v t.
Proof.
  intro v. induction v as [v NI|n slots u IH] using pyobj_inst_ind;
    intros t R; rewrite roundtrips_eq in R;
    destruct (core_type t) as [[| | | | | | | | |c| |]|] eqn:C;
    try contradiction.
  - split; [|intros c0 E; congruence]. intro d.
    exists v. split; [|now apply py_eq_scalar].
    destruct v; try discriminate;
      (rewrite (deserialize_core _ _ _ _ C) by discriminate; reflexivity).
  - destruct R as [N D]. split; [|intros c0 E; congruence]. intro d.
    exists v. split; [|now apply py_eq_document].
    rewrite (serialize_document v D).
    rewrite (deserialize_core _ _ _ _ C) by exact N.
    destruct v; try reflexivity; congruence.
  - destruct R as (n & s & -> & M). split; [|intros c0 E; congruence].
    intro d. exists (VEnum e n s). split.
    + rewrite (deserialize_core _ _ _ _ C) by discriminate.
      change (SerializableEnum_deserialize e (VStr s) = Ok (VEnum e n s)).
      unfold SerializableEnum_deserialize, enum_call.
      unfold is_member in M. now rewrite M.
    + simpl. now rewrite !String.eqb_refl.
  - destruct v; try contradiction. exfalso. now eapply NI.
  - discriminate.
  - destruct R as [_ E]. discriminate.
  - destruct R as (n0 & s0 & E & _). discriminate.
  - destruct u as [u|]; [contradiction|].
    destruct R as (-> & NN & NK & Sn & S).
    apply slots_rt_Forall in S.
    destruct (record_sound slots NN NK) as [K RB].
    { rewrite Forall_forall in *. intros s Hs.
      apply (slot_rt_impl roundtrips); [|now apply S].
      intros t0 R0. now apply (IH s Hs). }
    split.
    + intro d. rewrite _serialize_inst.
      rewrite (deserialize_core _ _ _ _ C) by discriminate.
      rewrite _deserialize_attrs by discriminate.
      destruct (RB n (_attrs_to_dict slots None) d true)
        as (slots' & b & E & Q); auto using attrs_to_dict_wf.
      exists (VInst n slots' b). split; [exact E|].
      now rewrite py_eq_inst, String.eqb_refl, Q.
    + intros c' E. rewrite C in E. injection E as <-. now exists n, slots.
Qed.



